(** * A shallow embedding of the lokinet router core

    The development follows the C++ sources of the router runtime: the node
    database ([llarp_nodedb]), the DHT [FindRouter] handlers, the path
    subsystem ([PathContext], [Path]) and the connection manager of
    [llarp::Router].  State that C++ mutates in place is threaded explicitly;
    calls into collaborators whose code is outside this slice are recorded as
    events or taken as operations of a type class.

    Layout: definitions first (one module per source component), theorems
    afterwards. *)

From stdpp Require Import gmap list strings.
From Stdlib Require Import ZArith.

(** ** Common data *)

(** [PubKey] / [RouterID]: a 32-byte public signing key, read as a number.
    [PathID_t]: a 16-byte path identifier. *)
Abbreviation PubKey := N (only parsing).
Abbreviation RouterID := N (only parsing).
Abbreviation PathID_t := N (only parsing).
Abbreviation llarp_time_t := Z (only parsing).
Abbreviation buffer := (list Byte.byte) (only parsing).

#[global] Instance byte_eq_dec : EqDecision Byte.byte := Byte.byte_eq_dec.

Record AddressInfo := {
  ai_rank : Z;
  ai_dialect : string;
  ai_pubkey : PubKey;
  ai_ip : N;
  ai_port : Z
}.

Record RouterContact := {
  pubkey : PubKey;
  enckey : PubKey;
  addrs : list AddressInfo;
  exits : list N;
  nickname : string;
  last_updated : llarp_time_t;
  signature : buffer
}.

#[global] Instance AddressInfo_eq_dec : EqDecision AddressInfo.
Proof. solve_decision. Defined.

#[global] Instance RouterContact_eq_dec : EqDecision RouterContact.
Proof. solve_decision. Defined.

(** Modelled from the spec: [RouterContact::IsPublicRouter] is declared in
    router_contact.hpp, which is not part of the slice; an RC is public iff it
    carries at least one address. *)
Definition IsPublicRouter (rc : RouterContact) : bool :=
  negb (length (addrs rc) =? 0)%nat.

(** Signature verification ([RouterContact::Verify]) belongs to the crypto
    suite. *)
Class Crypto := { Verify : RouterContact → bool }.

(** Canonical encoding into a [MAX_RC_SIZE] stack buffer ([None] when the
    buffer is too small) and the hex encoder of encode.hpp. *)
Class Encoder := {
  BEncode : RouterContact → option buffer;
  HexEncode : PubKey → string
}.

(** The file system behind [std::ofstream] and [fs::remove]. *)
Class FileSystem := {
  Disk : Type;
  ofs_write : Disk → string → buffer → Disk * bool;
  fs_remove : Disk → string → Disk
}.

(** 64-bit unsigned arithmetic ([size_t], [uint64_t], [llarp_time_t]). *)
Definition wrap64 (z : Z) : Z := (z mod 2 ^ 64)%Z.
Definition sub64 (a b : Z) : Z := wrap64 (a - b).

(** ** Node database (nodedb.cpp) *)

Module NodeDB.
Section defs.
Context `{!Crypto, !Encoder, !FileSystem}.

(** [entries] is a [std::unordered_map]: unique keys, listed here in
    iteration order. *)
Record llarp_nodedb := {
  entries : list (PubKey * RouterContact);
  nodePath : string;
  disk : Disk
}.

Fixpoint entries_find (pk : PubKey) (es : list (PubKey * RouterContact))
  : option RouterContact :=
  match es with
  | [] => None
  | (k, rc) :: es' => if decide (k = pk) then Some rc else entries_find pk es'
  end.

(** [unordered_map::insert] keeps an existing element with the same key. *)
Definition entries_insert (pk : PubKey) (rc : RouterContact)
    (es : list (PubKey * RouterContact)) : list (PubKey * RouterContact) :=
  match entries_find pk es with
  | Some _ => es
  | None => es ++ [(pk, rc)]
  end.

Fixpoint entries_erase (pk : PubKey) (es : list (PubKey * RouterContact))
  : list (PubKey * RouterContact) :=
  match es with
  | [] => []
  | (k, rc) :: es' => if decide (k = pk) then es' else (k, rc) :: entries_erase pk es'
  end.

Definition Has (db : llarp_nodedb) (pk : PubKey) : bool :=
  bool_decide (is_Some (entries_find pk (entries db))).

Definition Get (db : llarp_nodedb) (pk : PubKey) : option RouterContact :=
  entries_find pk (entries db).

Definition num_loaded (db : llarp_nodedb) : Z :=
  Z.of_nat (length (entries db)).

Definition last_char (s : string) : string :=
  String.substring (String.length s - 1) 1 s.

Definition RC_FILE_EXT : string := ".signed".

Definition getRCFilePath (db : llarp_nodedb) (pk : PubKey) : string :=
  let hexString := HexEncode pk in
  let skiplistDir := last_char hexString in
  nodePath db +:+ "/" +:+ skiplistDir +:+ "/" +:+ hexString +:+ RC_FILE_EXT.

Definition Remove (db : llarp_nodedb) (pk : PubKey) : llarp_nodedb * bool :=
  match entries_find pk (entries db) with
  | None => (db, false)
  | Some _ =>
      ({| entries := entries_erase pk (entries db);
          nodePath := nodePath db;
          disk := fs_remove (disk db) (getRCFilePath db pk) |}, true)
  end.

(** insert and write to disk *)
Definition Insert (db : llarp_nodedb) (rc : RouterContact)
  : llarp_nodedb * bool :=
  let db1 := {| entries := entries_insert (pubkey rc) rc (entries db);
                nodePath := nodePath db;
                disk := disk db |} in
  match BEncode rc with
  | None => (db1, false)
  | Some buf =>
      let filepath := getRCFilePath db1 (pubkey rc) in
      let '(d, ok) := ofs_write (disk db1) filepath buf in
      ({| entries := entries db1; nodePath := nodePath db1; disk := d |}, ok)
  end.

(** *** The asynchronous verify pipeline *)

Inductive Hook := on_verify_server_rc | on_verify_client_rc.

(** [logic] is [true] iff the pointer to the logic executor is non-null. *)
Record llarp_async_verify_rc := {
  rc : RouterContact;
  valid : bool;
  hook : option Hook;
  logic : bool
}.

Inductive Executor := cryptoworker | diskworker | logic_thread.
Inductive Worker :=
  | crypto_threadworker_verifyrc
  | disk_threadworker_setRC
  | logic_threadworker_callback.

(** What an observer of the pipeline sees: every call of [Insert] and every
    call of the completion hook, each with the executor that ran it. *)
Inductive Event :=
  | EvInsert (on : Executor) (r : RouterContact) (ok : bool)
  | EvHook (on : Executor) (h : Hook) (v : bool)
  | EvLogWarn (msg : string).

(** The request is one shared object handed from stage to stage; [queue]
    holds the jobs that were queued and have not run yet. *)
Record Pipeline := {
  job : llarp_async_verify_rc;
  nodedb : llarp_nodedb;
  queue : list (Executor * Worker);
  trace : list Event
}.

Definition set_valid (j : llarp_async_verify_rc) (v : bool) :=
  {| rc := rc j; valid := v; hook := hook j; logic := logic j |}.

Definition queue_job (e : Executor) (w : Worker) (p : Pipeline) : Pipeline :=
  {| job := job p; nodedb := nodedb p;
     queue := queue p ++ [(e, w)]; trace := trace p |}.

Definition emit (ev : Event) (p : Pipeline) : Pipeline :=
  {| job := job p; nodedb := nodedb p;
     queue := queue p; trace := trace p ++ [ev] |}.

(** Each worker runs on the executor [on] it was queued to.  [None] is a
    null-pointer dereference. *)
Definition run_worker (on : Executor) (w : Worker) (p : Pipeline)
  : option Pipeline :=
  match w with
  | logic_threadworker_callback =>
      match hook (job p) with
      | Some h => Some (emit (EvHook on h (valid (job p))) p)
      | None => Some p
      end
  | disk_threadworker_setRC =>
      let '(db, ok) := Insert (nodedb p) (rc (job p)) in
      let p1 := {| job := set_valid (job p) ok; nodedb := db;
                   queue := queue p;
                   trace := trace p ++ [EvInsert on (rc (job p)) ok] |} in
      if logic (job p1)
      then Some (queue_job logic_thread logic_threadworker_callback p1)
      else Some p1
  | crypto_threadworker_verifyrc =>
      let r := rc (job p) in
      let v := Verify r in
      let p1 := {| job := set_valid (job p) v; nodedb := nodedb p;
                   queue := queue p; trace := trace p |} in
      if v && IsPublicRouter r
      then Some (queue_job diskworker disk_threadworker_setRC p1)
      else
        let p2 := if v then p1
                  else emit (EvLogWarn "RC is not valid, can't save to disk") p1 in
        if logic (job p2)
        then Some (queue_job logic_thread logic_threadworker_callback p2)
        else None
  end.

(** maybe rename to verify_and_set *)
Definition llarp_nodedb_async_verify (j : llarp_async_verify_rc)
    (db : llarp_nodedb) : Pipeline :=
  queue_job cryptoworker crypto_threadworker_verifyrc
    {| job := j; nodedb := db; queue := []; trace := [] |}.

(** The pools run the queued jobs in order. *)
Definition step (p : Pipeline) : option Pipeline :=
  match queue p with
  | [] => Some p
  | (e, w) :: q =>
      run_worker e w {| job := job p; nodedb := nodedb p;
                        queue := q; trace := trace p |}
  end.

Fixpoint run (n : nat) (p : Pipeline) : option Pipeline :=
  match n with
  | O => Some p
  | S n' => match step p with Some p' => run n' p' | None => None end
  end.

(** *** Random hop selection *)

(** [tries--] used as a condition: the old value is tested, the new one
    wraps as a [size_t]. *)
Definition post_dec (tries : Z) : bool * Z :=
  (negb (tries =? 0)%Z, wrap64 (tries - 1)).

(** [auto itr = entries.begin(); if(sz > 1) { idx = randint() % sz;
    if(idx) std::advance(itr, idx - 1); }] followed by [*itr]. *)
Definition pick_index (sz r : Z) : Z :=
  if (1 <? sz)%Z then
    let idx := (r mod sz)%Z in
    if (idx =? 0)%Z then 0%Z else (idx - 1)%Z
  else 0%Z.

Definition pick (es : list (PubKey * RouterContact)) (sz r : Z)
  : option (PubKey * RouterContact) :=
  es !! Z.to_nat (pick_index sz r).

(** The [do { ... } while(tries--)] loop; [rand i] is the value of the
    [i]-th call of [llarp::randint].  The result is the return value and
    the content of the out-parameter [result]. *)
Fixpoint hop_loop (fuel : nat) (es : list (PubKey * RouterContact)) (sz : Z)
    (prev result : RouterContact) (tries : Z) (rand : nat → Z) (i : nat)
  : option (bool * RouterContact) :=
  match fuel with
  | O => None
  | S fuel' =>
      match pick es sz (rand i) with
      | None => None
      | Some (_, e) =>
          if decide (pubkey prev = pubkey e) then
            let '(c, tries1) := post_dec tries in
            if c then
              (* [continue] jumps to the loop condition *)
              let '(c2, tries2) := post_dec tries1 in
              if c2 then hop_loop fuel' es sz prev result tries2 rand (S i)
              else Some (false, result)
            else Some (false, result)
          else if negb (length (addrs e) =? 0)%nat then Some (true, e)
          else
            let '(c2, tries2) := post_dec tries in
            if c2 then hop_loop fuel' es sz prev result tries2 rand (S i)
            else Some (false, result)
      end
  end.

Definition select_random_hop (db : llarp_nodedb) (prev result : RouterContact)
    (N : Z) (rand : nat → Z) : option (bool * RouterContact) :=
  let sz := Z.of_nat (length (entries db)) in
  if (sz <? 3)%Z then Some (false, result)
  else
    let tries := 5%Z in
    if negb (N =? 0)%Z then
      hop_loop 6 (entries db) sz prev result tries rand 0
    else
      match pick (entries db) sz (rand 0%nat) with
      | Some (_, e) => Some (true, e)
      | None => None
      end.
End defs.

(** *** Exit selection and loading from disk *)

(** [RouterContact::IsExit] is declared in router_contact.hpp, which is not
    part of the slice. *)
Class ExitInfo := { IsExit : RouterContact → bool }.

Section loading.
Context `{!Crypto, !Encoder, !FileSystem, !ExitInfo}.

(** Reading the node database directory: [fs::exists], the directory
    listing behind [llarp::util::IterDir], [fs::is_regular_file],
    [fs::path::extension] and [RouterContact::Read]. *)
Class DirReader := {
  fs_exists : Disk → string → bool;
  IterDir : Disk → string → list string;
  is_regular_file : Disk → string → bool;
  extension : string → string;
  RouterContact_Read : Disk → string → option RouterContact
}.
Context `{!DirReader}.

Definition Clear (db : llarp_nodedb) : llarp_nodedb :=
  {| entries := []; nodePath := nodePath db; disk := disk db |}.

(** [r] is the value of [llarp::randint].  The first scan runs from the
    start position to [end()], the second ("wrap around") from [begin()]
    for [idx] steps. *)
Definition select_random_exit (db : llarp_nodedb) (result : RouterContact)
    (r : Z) : bool * RouterContact :=
  let sz := Z.of_nat (length (entries db)) in
  if (sz <? 3)%Z then (false, result)
  else
    let idx := (r mod sz)%Z in
    let start := if (idx =? 0)%Z then 0%Z else (idx - 1)%Z in
    match List.find (λ e, IsExit e.2) (drop (Z.to_nat start) (entries db)) with
    | Some e => (true, e.2)
    | None =>
        (* wrap around *)
        match List.find (λ e, IsExit e.2) (take (Z.to_nat idx) (entries db)) with
        | Some e => (true, e.2)
        | None => (false, result)
        end
    end.

Definition loadfile (db : llarp_nodedb) (fpath : string)
  : llarp_nodedb * bool :=
  if decide (extension fpath ≠ RC_FILE_EXT) then (db, false)
  else
    match RouterContact_Read (disk db) fpath with
    | None => (db, false)
    | Some r =>
        if negb (Verify r) then (db, false)
        else
          ({| entries := entries_insert (pubkey r) r (entries db);
              nodePath := nodePath db; disk := disk db |}, true)
    end.

(** The visitor of [loadSubdir], on the database and the counter [sz]; it
    always returns [true], so every entry of the directory is visited. *)
Definition loadSubdir_visit (acc : llarp_nodedb * Z) (f : string)
  : llarp_nodedb * Z :=
  if is_regular_file (disk acc.1) f then
    let '(db', ok) := loadfile acc.1 f in
    (db', if ok then (acc.2 + 1)%Z else acc.2)
  else acc.

Definition loadSubdir (db : llarp_nodedb) (dir : string) : llarp_nodedb * Z :=
  foldl loadSubdir_visit (db, 0%Z) (IterDir (disk db) dir).

(** The 16 characters of [skiplist_subdirs]; the terminating NUL that the
    range-for also visits is skipped by [if(!ch) continue]. *)
Definition skiplist_subdirs : list string :=
  ["0"; "1"; "2"; "3"; "4"; "5"; "6"; "7";
   "8"; "9"; "a"; "b"; "c"; "d"; "e"; "f"].

(** The body of the loop of [Load], on the database and the counter
    [loaded]. *)
Definition Load_subdir (path : string) (acc : llarp_nodedb * Z) (p : string)
  : llarp_nodedb * Z :=
  let sub := path +:+ "/" +:+ p in
  let '(db', l) := loadSubdir acc.1 sub in
  (db', if (0 <? l)%Z then (acc.2 + l)%Z else acc.2).

Definition Load (db : llarp_nodedb) (path : string) : llarp_nodedb * Z :=
  if negb (fs_exists (disk db) path) then (db, (-1)%Z)
  else foldl (Load_subdir path) (db, 0%Z) skiplist_subdirs.

Definition set_dir (db : llarp_nodedb) (dir : string) : llarp_nodedb :=
  {| entries := entries db; nodePath := dir; disk := disk db |}.

Definition load_dir (db : llarp_nodedb) (dir : string) : llarp_nodedb * Z :=
  if negb (fs_exists (disk db) dir) then (db, (-1)%Z)
  else Load (set_dir db dir) dir.

(** The keys of [entries] are unique, as in the [std::unordered_map]. *)
Definition keys_unique (db : llarp_nodedb) : Prop := NoDup (entries db).*1.

(** [f] holds an RC that [loadfile] accepts; and every such RC of the
    regular files [F] already has its pubkey in [es]. *)
Definition loadable (d : Disk) (f : string) (r : RouterContact) : Prop :=
  extension f = RC_FILE_EXT ∧ RouterContact_Read d f = Some r ∧
  Verify r = true.

Definition saturated (d : Disk) (es : list (PubKey * RouterContact))
    (F : list string) : Prop :=
  ∀ f r, f ∈ F → is_regular_file d f = true → loadable d f r →
         is_Some (entries_find (pubkey r) es).

(** Every entry of [es] is found unchanged in [es']. *)
Definition extends (es es' : list (PubKey * RouterContact)) : Prop :=
  ∀ pk x, entries_find pk es = Some x → entries_find pk es' = Some x.

(** The files [Load] visits below [path]. *)
Definition skiplist_files (d : Disk) (path : string) (S : list string)
  : list string :=
  S ≫= λ p, IterDir d (path +:+ "/" +:+ p).

(** [llarp_nodedb::visit]: the visitor is called on the entries in order
    until it returns [false]; [s] is the state its captures hold. *)
Fixpoint visit_entries {S} (es : list (PubKey * RouterContact))
    (visitor : S → RouterContact → S * bool) (s : S) : S :=
  match es with
  | [] => s
  | e :: es' =>
      let '(s', continue) := visitor s e.2 in
      if continue then visit_entries es' visitor s' else s'
  end.

Definition visit {S} (db : llarp_nodedb)
    (visitor : S → RouterContact → S * bool) (s : S) : S :=
  visit_entries (entries db) visitor s.
End loading.
End NodeDB.

(** ** Path subsystem (path.cpp) *)

Module path.
Inductive PathStatus :=
  | ePathBuilding
  | ePathEstablished
  | ePathTimeout
  | ePathExpired.

#[global] Instance PathStatus_eq_dec : EqDecision PathStatus.
Proof. solve_decision. Defined.

(** Constants of path.hpp, which is not part of the slice: the two timeouts
    (in milliseconds) and the bits of the role set. *)
Class PathConstants := {
  PATH_BUILD_TIMEOUT : Z;
  PATH_ALIVE_TIMEOUT : Z;
  ePathRoleExit : Z;
  ePathRoleSVC : Z
}.

Record Introduction := {
  router : RouterID;
  pathID : PathID_t;
  latency : Z;
  expiresAt : llarp_time_t
}.

(** The data members of [Path] that [Tick], [Expired] and [EnterState]
    read or write. *)
Record PathData := {
  _status : PathStatus;
  buildStarted : llarp_time_t;
  intro : Introduction;
  m_LastRecvMessage : llarp_time_t;
  m_LastLatencyTestTime : llarp_time_t;
  m_LastLatencyTestID : Z;
  _role : Z
}.

(** A path with its owner's optional dead-check callback, which is called
    with the path and the time since the last latency test. *)
Record Path := {
  data : PathData;
  m_CheckForDead : option (PathData → llarp_time_t → bool)
}.

(** Calls that leave the path: the profiler, the owning path set, and
    routing messages sent upstream. *)
Inductive PathEvent :=
  | MarkPathFail
  | HandlePathBuildTimeout
  | SendRoutingMessage_PathLatency (T : Z)
  | LogInfo (msg : string).

Definition set_status (st : PathStatus) (d : PathData) : PathData :=
  {| _status := st; buildStarted := buildStarted d; intro := intro d;
     m_LastRecvMessage := m_LastRecvMessage d;
     m_LastLatencyTestTime := m_LastLatencyTestTime d;
     m_LastLatencyTestID := m_LastLatencyTestID d; _role := _role d |}.

Definition set_buildStarted (t : llarp_time_t) (d : PathData) : PathData :=
  {| _status := _status d; buildStarted := t; intro := intro d;
     m_LastRecvMessage := m_LastRecvMessage d;
     m_LastLatencyTestTime := m_LastLatencyTestTime d;
     m_LastLatencyTestID := m_LastLatencyTestID d; _role := _role d |}.

Definition set_latency_test (T : Z) (t : llarp_time_t) (d : PathData)
  : PathData :=
  {| _status := _status d; buildStarted := buildStarted d; intro := intro d;
     m_LastRecvMessage := m_LastRecvMessage d;
     m_LastLatencyTestTime := t;
     m_LastLatencyTestID := T; _role := _role d |}.

Definition with_data (p : Path) (d : PathData) : Path :=
  {| data := d; m_CheckForDead := m_CheckForDead p |}.

(** Modelled from the spec: [Path::ExpireTime] is declared in path.hpp,
    which is not part of the slice; an established path expires at the
    expiry of its introduction. *)
Definition ExpireTime (p : Path) : llarp_time_t := expiresAt (intro (data p)).

(** Modelled from the spec: [Path::SupportsAnyRoles] is declared in
    path.hpp; a path supports any of [roles] when its role set meets
    them. *)
Definition SupportsAnyRoles (p : Path) (roles : Z) : bool :=
  negb (Z.land (_role (data p)) roles =? 0)%Z.

Definition Expired (p : Path) (now : llarp_time_t) : bool :=
  match _status (data p) with
  | ePathEstablished => (ExpireTime p <=? now)%Z
  | ePathBuilding => false
  | _ => true
  end.

Definition EnterState (p : Path) (st : PathStatus) (now : llarp_time_t)
  : Path * list PathEvent :=
  let '(d, evs) :=
    match st with
    | ePathTimeout => (data p, [HandlePathBuildTimeout])
    | ePathBuilding =>
        (set_buildStarted now (data p), [LogInfo "path is building"])
    | ePathEstablished =>
        if decide (_status (data p) = ePathBuilding)
        then (data p, [LogInfo "path is built"])
        else (data p, [])
    | ePathExpired => (data p, [])
    end in
  (with_data p (set_status st d), evs).

Section tick.
Context `{!PathConstants}.

(** [r->routerProfiling.MarkPathFail(this); EnterState(ePathTimeout, now)] *)
Definition fail_and_time_out (p : Path) (now : llarp_time_t)
    (evs : list PathEvent) : Path * list PathEvent :=
  let '(p', evs') := EnterState p ePathTimeout now in
  (p', evs ++ MarkPathFail :: evs').

(** The latency probe of [Tick]; [rnd] is the value [llarp::randint]
    returns for it. *)
Definition latency_test (p : Path) (now : llarp_time_t) (rnd : Z)
  : Path * list PathEvent :=
  let dlt := sub64 now (m_LastLatencyTestTime (data p)) in
  if (5000 <? dlt)%Z && (m_LastLatencyTestID (data p) =? 0)%Z
  then (with_data p (set_latency_test rnd now (data p)),
        [SendRoutingMessage_PathLatency rnd])
  else (p, []).

Definition Tick (p : Path) (now : llarp_time_t) (rnd : Z)
  : Path * list PathEvent :=
  if Expired p now then (p, [])
  else if bool_decide (_status (data p) = ePathBuilding)
            && (buildStarted (data p) <=? now)%Z
            && (PATH_BUILD_TIMEOUT <=? sub64 now (buildStarted (data p)))%Z
  then fail_and_time_out p now []
  else
    let dlt := sub64 now (m_LastLatencyTestTime (data p)) in
    let '(p1, evs) := latency_test p now rnd in
    (* check to see if this path is dead *)
    if decide (_status (data p1) = ePathEstablished) then
      let last := m_LastRecvMessage (data p1) in
      let silent :=
        negb (last =? 0)%Z && (last <? now)%Z
        && (PATH_ALIVE_TIMEOUT <? sub64 now last)%Z in
      if SupportsAnyRoles p1 (Z.lor ePathRoleExit ePathRoleSVC) && silent
      then
        (* TODO: send close exit message *)
        (p1, evs)
      else if silent then
        match m_CheckForDead p1 with
        | Some check =>
            if check (data p1) dlt then fail_and_time_out p1 now evs
            else (p1, evs)
        | None => fail_and_time_out p1 now evs
        end
      else if (10000 <=? dlt)%Z && (last =? 0)%Z
      then fail_and_time_out p1 now evs
      else (p1, evs)
    else (p1, evs).
End tick.

(** *** PathContext: the router-local index *)

Record TransitHopInfo := {
  txID : PathID_t;
  rxID : PathID_t;
  upstream : RouterID;
  downstream : RouterID
}.

Record TransitHop := {
  info : TransitHopInfo;
  pathKey : N;
  nonceXOR : N;
  started : llarp_time_t;
  lifetime : llarp_time_t
}.

#[global] Instance TransitHopInfo_eq_dec : EqDecision TransitHopInfo.
Proof. solve_decision. Defined.

#[global] Instance TransitHop_eq_dec : EqDecision TransitHop.
Proof. solve_decision. Defined.

Inductive IHopHandler :=
  | OwnedPath (p : Path)
  | TransitHandler (h : TransitHop).

(** A path set answers [GetByUpstream] for the paths it owns
    (pathset.cpp is not part of the slice). *)
Record PathSet := {
  PathSet_GetByUpstream : RouterID → PathID_t → option Path
}.

(** Modelled from the spec: the container types of [m_OurPaths] and
    [m_TransitPaths] are declared in path.hpp, which is not part of the
    slice; the index of transit hops is a multimap.  A multimap is listed
    here in iteration order; [insert] puts the new element behind the
    elements that already have its key, as [std::multimap] does. *)
Definition equal_range {V} (k : PathID_t) (m : list (PathID_t * V)) : list V :=
  (filter (λ kv, kv.1 = k) m).*2.

Definition MapGet {V R} (m : list (PathID_t * V)) (k : PathID_t)
    (check : V → bool) (get : V → option R) : option R :=
  match List.find check (equal_range k m) with
  | Some v => get v
  | None => None
  end.

Definition MapHas {V} (m : list (PathID_t * V)) (k : PathID_t)
    (check : V → bool) : bool :=
  match List.find check (equal_range k m) with
  | Some _ => true
  | None => false
  end.

Definition MapPut {V} (m : list (PathID_t * V)) (k : PathID_t) (v : V)
  : list (PathID_t * V) :=
  m ++ [(k, v)].

Record PathContext := {
  m_OurPaths : list (PathID_t * PathSet);
  m_TransitPaths : list (PathID_t * TransitHop);
  m_AllowTransit : bool
}.

Definition HasTransitHop (ctx : PathContext) (i : TransitHopInfo) : bool :=
  MapHas (m_TransitPaths ctx) (txID i) (λ hop, bool_decide (i = info hop)).

Definition GetByUpstream (ctx : PathContext) (remote : RouterID)
    (id : PathID_t) : option IHopHandler :=
  let own :=
    MapGet (m_OurPaths ctx) id
      (λ _, (* TODO: is this right? *) true)
      (λ p, OwnedPath <$> PathSet_GetByUpstream p remote id) in
  match own with
  | Some o => Some o
  | None =>
      MapGet (m_TransitPaths ctx) id
        (λ hop, bool_decide (upstream (info hop) = remote))
        (λ h, Some (TransitHandler h))
  end.

Definition GetByDownstream (ctx : PathContext) (remote : RouterID)
    (id : PathID_t) : option IHopHandler :=
  MapGet (m_TransitPaths ctx) id
    (λ hop, bool_decide (downstream (info hop) = remote))
    (λ h, Some (TransitHandler h)).

Definition PutTransitHop (ctx : PathContext) (hop : TransitHop)
  : PathContext :=
  let m1 := MapPut (m_TransitPaths ctx) (txID (info hop)) hop in
  let m2 := MapPut m1 (rxID (info hop)) hop in
  {| m_OurPaths := m_OurPaths ctx; m_TransitPaths := m2;
     m_AllowTransit := m_AllowTransit ctx |}.

(** [GetPathForTransfer]: the loop over [equal_range(id)] returns the first
    transit hop whose upstream is this router; [us] is [OurRouterID()]. *)
Definition GetPathForTransfer (ctx : PathContext) (us : RouterID)
    (id : PathID_t) : option IHopHandler :=
  TransitHandler <$>
    List.find (λ hop, bool_decide (upstream (info hop) = us))
      (equal_range id (m_TransitPaths ctx)).

(** [TransitHop::Expired] of transit_hop.cpp, which is not part of the
    slice. *)
Class TransitHopExpiry := {
  TransitHop_Expired : TransitHop → llarp_time_t → bool
}.

(** [ExpirePaths]: the first loop erases the expired entries of
    [m_TransitPaths]; the second calls [ExpirePaths] of every builder of
    [m_PathBuilders] that is not null (pathbuilder.cpp is not part of the
    slice; the calls are returned, a builder is named by a number). *)
Definition ExpirePaths `{!TransitHopExpiry} (ctx : PathContext)
    (m_PathBuilders : list (option N)) (now : llarp_time_t)
  : PathContext * list (N * llarp_time_t) :=
  ({| m_OurPaths := m_OurPaths ctx;
      m_TransitPaths :=
        filter (λ kv, TransitHop_Expired kv.2 now = false) (m_TransitPaths ctx);
      m_AllowTransit := m_AllowTransit ctx |},
   omap (λ b, (λ x, (x, now)) <$> b) m_PathBuilders).

(** Every transit hop is indexed under both of its ids or under neither. *)
Definition indexed_in_pairs (ctx : PathContext) : Prop :=
  ∀ k hop, (k, hop) ∈ m_TransitPaths ctx →
    (txID (info hop), hop) ∈ m_TransitPaths ctx ∧
    (rxID (info hop), hop) ∈ m_TransitPaths ctx.

(** Modelled from the spec: [PathSet::ExpirePaths] (pathset.cpp) is not part
    of the slice; a builder's [ExpirePaths] removes from its active set the
    paths that are expired at [now]. *)
Definition PathSet_ExpirePaths (paths : list Path) (now : llarp_time_t)
  : list Path :=
  filter (λ p, Expired p now = false) paths.

(** The builders' side of one pass: every call that
    [PathContext::ExpirePaths] made is carried out on the active set of the
    builder it names; [sets] holds the active set of each builder. *)
Definition expire_builders (calls : list (N * llarp_time_t))
    (sets : gmap N (list Path)) : gmap N (list Path) :=
  foldl (λ st c, alter (λ paths, PathSet_ExpirePaths paths c.2) c.1 st)
        sets calls.

(** *** The constructor of [Path] *)

(** The members of [PathHopConfig] that the constructor writes; the fields
    are [rc], [txID] and [rxID] in the source. *)
Record PathHopConfig := {
  hop_rc : RouterContact;
  hop_txID : PathID_t;
  hop_rxID : PathID_t
}.

Definition set_hop_txID (t : PathID_t) (h : PathHopConfig) : PathHopConfig :=
  {| hop_rc := hop_rc h; hop_txID := t; hop_rxID := hop_rxID h |}.

(** The first loop: [rnd] lists the values that [Randomize] produces, in the
    order of the calls. *)
Definition randomized_hops (h : list RouterContact) (rnd : nat → PathID_t)
  : list PathHopConfig :=
  imap (λ idx r, {| hop_rc := r; hop_txID := rnd (2 * idx)%nat;
                    hop_rxID := rnd (2 * idx + 1)%nat |}) h.

(** The second loop, [hops[idx].txID = hops[idx + 1].rxID] for
    [idx < hsz - 1]. *)
Definition stitch_hops (hops : list PathHopConfig) : list PathHopConfig :=
  foldl (λ hs idx,
           match hs !! (idx + 1)%nat with
           | Some next => alter (set_hop_txID (hop_rxID next)) idx hs
           | None => hs
           end)
        hops (seq 0 (length hops - 1)).

Definition set_intro_endpoint (r : RouterID) (id : PathID_t) (role : Z)
    (d : PathData) : PathData :=
  {| _status := _status d; buildStarted := buildStarted d;
     intro := {| router := r; pathID := id; latency := latency (intro d);
                 expiresAt := expiresAt (intro d) |};
     m_LastRecvMessage := m_LastRecvMessage d;
     m_LastLatencyTestTime := m_LastLatencyTestTime d;
     m_LastLatencyTestID := m_LastLatencyTestID d; _role := role |}.

(** [Path::Path(h, parent, startingRoles)].  [d0] holds the members as their
    default initialisers in path.hpp leave them, [now] is [parent->Now()].
    With no hops, [hsz - 1] wraps around and the loops index out of bounds;
    the result is [None] then. *)
Definition Path_new (h : list RouterContact) (now : llarp_time_t)
    (startingRoles : Z) (rnd : nat → PathID_t) (d0 : PathData)
  : option (list PathHopConfig * Path * list PathEvent) :=
  let hops := stitch_hops (randomized_hops h rnd) in
  match last hops with
  | None => None
  | Some lh =>
      let d := set_intro_endpoint (pubkey (hop_rc lh)) (hop_txID lh)
                 startingRoles d0 in
      let '(p, evs) :=
        EnterState {| data := d; m_CheckForDead := None |} ePathBuilding now in
      Some (hops, p, evs)
  end.

(** *** Exit traffic *)

(** Modelled from the spec: [bufbe64toh] is declared in endian.hpp, which is
    not part of the slice; it reads a 64-bit number in network byte order. *)
Definition bufbe64toh (bs : list Byte.byte) : Z :=
  foldl (λ acc b, (acc * 256 + Z.of_N (Byte.to_N b))%Z) 0%Z (take 8 bs).

(** What [HandleTransferTrafficMessage] calls: [MarkActive], which is
    declared in path.hpp, and the exit traffic handler of the path. *)
Inductive TrafficEvent :=
  | MarkActive (now : llarp_time_t)
  | ExitTrafficHandler (payload : list Byte.byte) (counter : Z).

(** The loop over the packets: the handler calls made, and whether the loop
    ran to the end. *)
Fixpoint deliver_packets (X : list (list Byte.byte))
  : list TrafficEvent * bool :=
  match X with
  | [] => ([], true)
  | pkt :: X' =>
      if (length pkt <=? 8)%nat then ([], false)
      else
        let '(evs, finished) := deliver_packets X' in
        (ExitTrafficHandler (drop 8 pkt) (bufbe64toh pkt) :: evs, finished)
  end.

(** [has_handler] says whether [m_ExitTrafficHandler] is set. *)
Definition HandleTransferTrafficMessage `{!PathConstants} (p : Path)
    (has_handler : bool)
    (X : list (list Byte.byte)) (now : llarp_time_t)
  : bool * list TrafficEvent :=
  (* check if we can handle exit data *)
  if negb (SupportsAnyRoles p (Z.lor ePathRoleExit ePathRoleSVC))
  then (false, [])
  else if negb has_handler then (false, [MarkActive now])
  else
    let sent := (0 <? length X)%nat in
    let '(evs, finished) := deliver_packets X in
    (if finished then sent else false, MarkActive now :: evs).
End path.

(** ** DHT FindRouter handlers (dht/messages/findrouter.cpp) *)

Module dht.
(** A reply queued for the sender. *)
Inductive IMessage :=
  | GotRouterMessage (k : N) (txid : Z) (R : list RouterContact) (near : bool).

(** Lookups handed on to [dht::Context], whose code (dht/context.cpp) is
    not part of the slice. *)
Inductive Call :=
  | HandleExploritoryRouterLookup (From : N) (txid : Z) (K : RouterID)
  | LookupRouterRelayed (From : N) (txid : Z) (k : N) (recursive : bool)
  | LookupRouterForPath (K : RouterID) (txid : Z) (pathID : PathID_t) (peer : N).

(** The parts of [dht::Context] and of the router that the handlers
    read.  [pendingRouterLookups] lists the owners [(From, txid)] of the
    lookups in flight. *)
Record Context := {
  allowTransit : bool;
  pendingRouterLookups : list (N * Z);
  OurKey : N;
  nodes : list N;
  router_rc : RouterContact;
  router_nodedb : list (PubKey * RouterContact);
  router_pathContext : path.PathContext
}.

(** What the absent Context operations hand back to the handlers: the
    return value and the replies of [HandleExploritoryRouterLookup], the
    replies of [LookupRouterRelayed], and the bucket search
    [FindClosest]. *)
Class ContextOps := {
  exploritory_result : Context → N → Z → RouterID → bool * list IMessage;
  relayed_replies : Context → N → Z → N → bool → list IMessage;
  FindClosest : list N → N → option N
}.

Record FindRouterMessage := {
  From : N;
  K : RouterID;
  txid : Z;
  exploritory : bool;
  iterative : bool;
  version : Z
}.

Record RelayedFindRouterMessage := {
  base : FindRouterMessage;
  pathID : PathID_t
}.

(** Modelled from the spec: the transaction table ([TXHolder]) is not part
    of the slice; a lookup is pending from [(From, txid)] when that owner
    has a lookup in flight. *)
Definition HasPendingLookupFrom (ctx : Context) (owner : N * Z) : bool :=
  bool_decide (owner ∈ pendingRouterLookups ctx).

Definition nodedb_Get (ctx : Context) (pk : PubKey) : option RouterContact :=
  NodeDB.entries_find pk (router_nodedb ctx).

(** The outcome of [HandleMessage]: the return value, the [replies] vector
    afterwards, and the lookups handed to the Context. *)
Record Outcome := {
  ret : bool;
  replies : list IMessage;
  calls : list Call
}.

Section handlers.
Context `{!ContextOps}.

Definition RelayedFindRouterMessage_HandleMessage
    (msg : RelayedFindRouterMessage) (ctx : Context)
    (replies : list IMessage) : Outcome :=
  let m := base msg in
  (* lookup for us, send an immeidate reply *)
  let us := OurKey ctx in
  let k := K m in
  if decide (K m = us) then
    match path.GetByUpstream (router_pathContext ctx) (K m) (pathID msg) with
    | Some _ =>
        {| ret := true;
           replies := replies ++
             [GotRouterMessage k (txid m) [router_rc ctx] false];
           calls := [] |}
    | None => {| ret := false; replies := replies; calls := [] |}
    end
  else
    (* check if we know this in our nodedb first *)
    match nodedb_Get ctx (K m) with
    | Some found =>
        {| ret := true;
           replies := replies ++ [GotRouterMessage k (txid m) [found] false];
           calls := [] |}
    | None =>
        (* lookup if we don't have it in our nodedb *)
        match FindClosest (nodes ctx) k with
        | Some peer =>
            {| ret := true; replies := replies;
               calls := [LookupRouterForPath (K m) (txid m) (pathID msg) peer] |}
        | None => {| ret := true; replies := replies; calls := [] |}
        end
    end.

Definition FindRouterMessage_HandleMessage
    (m : FindRouterMessage) (ctx : Context)
    (replies : list IMessage) : Outcome :=
  if negb (allowTransit ctx) then
    {| ret := false; replies := replies; calls := [] |}
  else if HasPendingLookupFrom ctx (From m, txid m) then
    {| ret := false; replies := replies; calls := [] |}
  else
    let k := K m in
    if exploritory m then
      let '(r, more) := exploritory_result ctx (From m) (txid m) (K m) in
      {| ret := r; replies := replies ++ more;
         calls := [HandleExploritoryRouterLookup (From m) (txid m) (K m)] |}
    else
      match nodedb_Get ctx (K m) with
      | Some found =>
          {| ret := true;
             replies := replies ++ [GotRouterMessage k (txid m) [found] false];
             calls := [] |}
      | None =>
          {| ret := true;
             replies := replies ++
               relayed_replies ctx (From m) (txid m) k (negb (iterative m));
             calls := [LookupRouterRelayed (From m) (txid m) k
                         (negb (iterative m))] |}
      end.
End handlers.

Definition with_transit (a : bool) (pend : list (N * Z)) (ctx : Context)
  : Context :=
  {| allowTransit := a; pendingRouterLookups := pend; OurKey := OurKey ctx;
     nodes := nodes ctx; router_rc := router_rc ctx;
     router_nodedb := router_nodedb ctx;
     router_pathContext := router_pathContext ctx |}.
End dht.

(** ** Router: connection manager (router.cpp) *)

Module router.
(** Modelled from the spec: the link layer (link/server.cpp) is not part
    of the slice; each link maintains a map from RouterID to session, of
    which only the keys matter here. *)
Record ILinkLayer := {
  Name : string;
  sessions : list RouterID
}.

Definition HasSessionTo (l : ILinkLayer) (pk : RouterID) : bool :=
  bool_decide (pk ∈ sessions l).

(** Link-layer messages and their encoder into [linkmsg_buffer] ([None]
    when the message does not fit). *)
Class LinkMessages := {
  ILinkMessage : Type;
  ILinkMessage_BEncode : ILinkMessage → option buffer
}.

(** The peer profiler (profiling.cpp is not part of the slice). *)
Class Profiling := {
  Profiles : Type;
  MarkTimeout : RouterID → Profiles → Profiles;
  MarkSuccess : RouterID → Profiles → Profiles;
  IsBad : Profiles → RouterID → bool
}.

(** [link] is the outbound link the job was created with (a null pointer
    when the router has none); [triesLeft] is a [uint16_t]. *)
Record TryConnectJob := {
  rc : RouterContact;
  link : option ILinkLayer;
  triesLeft : Z
}.

Definition MaxPendingSendQueueSize : nat := 8.

Section defs.
Context `{!Crypto, !Encoder, !FileSystem, !LinkMessages, !Profiling}.

(** Calls that leave the router: into a link, the logic executor, the
    DHT, the node database's disk worker, and the log. *)
Inductive Event :=
  | Router_SendTo (remote : RouterID) (msg : ILinkMessage) (selected : string)
  | Link_SendTo (l : string) (remote : RouterID) (buf : buffer)
  | Link_TryEstablishTo (l : option string) (r : RouterContact)
  | Link_CloseSessionTo (l : option string) (remote : RouterID)
  | queue_job_on_try_connecting (remote : RouterID)
  | LookupRouter_for_SendTo (remote : RouterID)
  | nodedb_InsertAsync (r : RouterContact)
  | LogWarn (msg : string).

(** Modelled from the spec: the DHT bucket [dht->impl.nodes] (dht/bucket.hpp)
    is not part of the slice; it stores [(RouterID, RC)] nodes, so [HasNode]
    is a lookup in [dht_nodes] and [PutNode] an insertion. *)
Record Router := {
  inboundLinks : list ILinkLayer;
  outboundLink : option ILinkLayer;
  outboundMessageQueue : gmap RouterID (list buffer);
  pendingEstablishJobs : gmap RouterID TryConnectJob;
  pendingVerifyRC : gmap RouterID RouterContact;
  validRouters : gmap RouterID RouterContact;
  dht_nodes : gmap RouterID RouterContact;
  nodedb : NodeDB.llarp_nodedb;
  routerProfiling : Profiles;
  events : list Event
}.

Definition set_queue (q : gmap RouterID (list buffer)) (r : Router) :=
  {| inboundLinks := inboundLinks r; outboundLink := outboundLink r;
     outboundMessageQueue := q;
     pendingEstablishJobs := pendingEstablishJobs r;
     pendingVerifyRC := pendingVerifyRC r;
     validRouters := validRouters r; dht_nodes := dht_nodes r;
     nodedb := nodedb r; routerProfiling := routerProfiling r;
     events := events r |}.

Definition set_jobs (j : gmap RouterID TryConnectJob) (r : Router) :=
  {| inboundLinks := inboundLinks r; outboundLink := outboundLink r;
     outboundMessageQueue := outboundMessageQueue r;
     pendingEstablishJobs := j;
     pendingVerifyRC := pendingVerifyRC r;
     validRouters := validRouters r; dht_nodes := dht_nodes r;
     nodedb := nodedb r; routerProfiling := routerProfiling r;
     events := events r |}.

Definition set_verifying (v : gmap RouterID RouterContact) (r : Router) :=
  {| inboundLinks := inboundLinks r; outboundLink := outboundLink r;
     outboundMessageQueue := outboundMessageQueue r;
     pendingEstablishJobs := pendingEstablishJobs r;
     pendingVerifyRC := v;
     validRouters := validRouters r; dht_nodes := dht_nodes r;
     nodedb := nodedb r; routerProfiling := routerProfiling r;
     events := events r |}.

Definition set_validRouters (v : gmap RouterID RouterContact) (r : Router) :=
  {| inboundLinks := inboundLinks r; outboundLink := outboundLink r;
     outboundMessageQueue := outboundMessageQueue r;
     pendingEstablishJobs := pendingEstablishJobs r;
     pendingVerifyRC := pendingVerifyRC r;
     validRouters := v; dht_nodes := dht_nodes r;
     nodedb := nodedb r; routerProfiling := routerProfiling r;
     events := events r |}.

Definition set_dht_nodes (d : gmap RouterID RouterContact) (r : Router) :=
  {| inboundLinks := inboundLinks r; outboundLink := outboundLink r;
     outboundMessageQueue := outboundMessageQueue r;
     pendingEstablishJobs := pendingEstablishJobs r;
     pendingVerifyRC := pendingVerifyRC r;
     validRouters := validRouters r; dht_nodes := d;
     nodedb := nodedb r; routerProfiling := routerProfiling r;
     events := events r |}.

Definition set_nodedb (db : NodeDB.llarp_nodedb) (r : Router) :=
  {| inboundLinks := inboundLinks r; outboundLink := outboundLink r;
     outboundMessageQueue := outboundMessageQueue r;
     pendingEstablishJobs := pendingEstablishJobs r;
     pendingVerifyRC := pendingVerifyRC r;
     validRouters := validRouters r; dht_nodes := dht_nodes r;
     nodedb := db; routerProfiling := routerProfiling r;
     events := events r |}.

Definition set_profiling (p : Profiles) (r : Router) :=
  {| inboundLinks := inboundLinks r; outboundLink := outboundLink r;
     outboundMessageQueue := outboundMessageQueue r;
     pendingEstablishJobs := pendingEstablishJobs r;
     pendingVerifyRC := pendingVerifyRC r;
     validRouters := validRouters r; dht_nodes := dht_nodes r;
     nodedb := nodedb r; routerProfiling := p;
     events := events r |}.

Definition emit (evs : list Event) (r : Router) :=
  {| inboundLinks := inboundLinks r; outboundLink := outboundLink r;
     outboundMessageQueue := outboundMessageQueue r;
     pendingEstablishJobs := pendingEstablishJobs r;
     pendingVerifyRC := pendingVerifyRC r;
     validRouters := validRouters r; dht_nodes := dht_nodes r;
     nodedb := nodedb r; routerProfiling := routerProfiling r;
     events := events r ++ evs |}.

Definition IsServiceNode (r : Router) : bool :=
  negb (length (inboundLinks r) =? 0)%nat.

Definition HasPendingConnectJob (r : Router) (remote : RouterID) : bool :=
  bool_decide (is_Some (pendingEstablishJobs r !! remote)).

(** *** TryConnectJob *)

(** [--triesLeft; link->TryEstablishTo(rc)], on the job [j] that the map
    stores under [key]. *)
Definition Attempt (r : Router) (key : RouterID) (j : TryConnectJob)
  : Router :=
  let j' := {| rc := rc j; link := link j;
               triesLeft := (triesLeft j - 1) mod 2 ^ 16 |} in
  emit [Link_TryEstablishTo (Name <$> link j) (rc j)]
    (set_jobs (<[key := j']> (pendingEstablishJobs r)) r).

Definition ShouldRetry (j : TryConnectJob) : bool := (0 <? triesLeft j)%Z.

Definition AttemptTimedout (r : Router) (key : RouterID)
    (j : TryConnectJob) : Router :=
  let pk := pubkey (rc j) in
  let r1 := set_profiling (MarkTimeout pk (routerProfiling r)) r in
  if ShouldRetry j then Attempt r1 key j
  else
    let r2 :=
      if negb (IsServiceNode r1) then
        if IsBad (routerProfiling r1) pk
        then set_nodedb (NodeDB.Remove (nodedb r1) pk).1 r1
        else r1
      else r1 in
    (* delete this *)
    set_jobs (delete pk (pendingEstablishJobs r2)) r2.

(** The logic job [on_try_connecting] of the job stored for [remote]. *)
Definition on_try_connecting (r : Router) (remote : RouterID) : Router :=
  match pendingEstablishJobs r !! remote with
  | Some j => Attempt r remote j
  | None => r
  end.

Definition llarp_router_try_connect (r : Router) (remote : RouterContact)
    (numretries : Z) : Router * bool :=
  (* do we already have a pending job for this remote? *)
  if HasPendingConnectJob r (pubkey remote) then (r, false)
  else
    let j := {| rc := remote; link := outboundLink r;
                triesLeft := numretries |} in
    (* try establishing async *)
    (emit [queue_job_on_try_connecting (pubkey remote)]
       (set_jobs (<[pubkey remote := j]> (pendingEstablishJobs r)) r),
     true).

Definition OnConnectTimeout (r : Router) (session_pk : RouterID) : Router :=
  match pendingEstablishJobs r !! session_pk with
  | Some j => AttemptTimedout r session_pk j
  | None => r
  end.

(** *** Outbound queue *)

Definition DiscardOutboundFor (r : Router) (remote : RouterID) : Router :=
  set_queue (delete remote (outboundMessageQueue r)) r.

Definition GetLinkWithSessionByPubkey (r : Router) (pk : RouterID)
  : option ILinkLayer :=
  match outboundLink r with
  | Some l =>
      if HasSessionTo l pk then Some l
      else List.find (λ l, HasSessionTo l pk) (inboundLinks r)
  | None => List.find (λ l, HasSessionTo l pk) (inboundLinks r)
  end.

Definition FlushOutboundFor (r : Router) (remote : RouterID)
    (chosen : option ILinkLayer) : Router :=
  match outboundMessageQueue r !! remote with
  | None => set_jobs (delete remote (pendingEstablishJobs r)) r
  | Some q =>
      match chosen with
      | None =>
          let r1 := DiscardOutboundFor r remote in
          set_jobs (delete remote (pendingEstablishJobs r1)) r1
      | Some l =>
          let r1 :=
            emit (map (Link_SendTo (Name l) remote) q)
              (set_queue (<[remote := []]> (outboundMessageQueue r)) r) in
          set_jobs (delete remote (pendingEstablishJobs r1)) r1
      end
  end.

Definition MessageQueue_of (r : Router) (remote : RouterID) : list buffer :=
  default [] (outboundMessageQueue r !! remote).

(** The link [SendToOrQueue] sends on: the first inbound link with a
    session to [remote], else the outbound link if it has one. *)
Definition link_with_session (r : Router) (remote : RouterID)
  : option ILinkLayer :=
  match List.find (λ l, HasSessionTo l remote) (inboundLinks r) with
  | Some l => Some l
  | None =>
      match outboundLink r with
      | Some l => if HasSessionTo l remote then Some l else None
      | None => None
      end
  end.

Definition SendToOrQueue (r : Router) (remote : RouterID)
    (msg : ILinkMessage) : Router * bool :=
  match link_with_session r remote with
  | Some l => (emit [Router_SendTo remote msg (Name l)] r, true)
  | None =>
      (* no link available *)
      (* this will create an entry in the obmq if it's not already there *)
      let r1 :=
        match outboundMessageQueue r !! remote with
        | None => set_queue (<[remote := []]> (outboundMessageQueue r)) r
        | Some _ => r
        end in
      (* encode *)
      match ILinkMessage_BEncode msg with
      | None => (r1, false)
      | Some buf =>
          (* queue buffer *)
          let q := MessageQueue_of r1 remote in
          let r2 :=
            if (length q <? MaxPendingSendQueueSize)%nat
            then set_queue (<[remote := q ++ [buf]]> (outboundMessageQueue r1)) r1
            else emit [LogWarn "tried to queue a message but the queue is full so we drop it"] r1 in
          (* we don't have an open session to that router right now *)
          match NodeDB.Get (nodedb r2) remote with
          | Some remoteRC =>
              (* try connecting directly as the rc is loaded from disk *)
              ((llarp_router_try_connect r2 remoteRC 10).1, true)
          | None =>
              (* we don't have the RC locally so do a dht lookup *)
              (emit [LookupRouter_for_SendTo remote] r2, true)
          end
      end
  end.

(** *** Completion hooks of the verify pipeline *)

Definition TryConnectJob_Failed (r : Router) (j : TryConnectJob) : Router :=
  emit [Link_CloseSessionTo (Name <$> link j) (pubkey (rc j))] r.

Definition TryConnectJob_Success (r : Router) (j : TryConnectJob) : Router :=
  FlushOutboundFor r (pubkey (rc j)) (link j).

Definition on_verify_client_rc (r : Router) (job_rc : RouterContact)
  : Router :=
  let pk := pubkey job_rc in
  let r1 := set_jobs (delete pk (pendingEstablishJobs r)) r in
  let r2 := FlushOutboundFor r1 pk (GetLinkWithSessionByPubkey r1 pk) in
  set_verifying (delete pk (pendingVerifyRC r2)) r2.

(** [establish_job] is the job the verify context points to, if any.
    The DHT bucket's [PutNode] is modelled as an insertion. *)
Definition on_verify_server_rc (r : Router) (job_rc : RouterContact)
    (valid : bool) (establish_job : option TryConnectJob) : Router :=
  let pk := pubkey job_rc in
  if negb valid then
    let r1 :=
      match establish_job with
      | Some j => (* was an outbound attempt *) TryConnectJob_Failed r j
      | None => r
      end in
    let r2 := DiscardOutboundFor r1 pk in
    set_verifying (delete pk (pendingVerifyRC r2)) r2
  else
    (* we're valid, which means it's already been committed to the nodedb *)
    let r1 := set_validRouters
                (<[pk := job_rc]> (delete pk (validRouters r))) r in
    (* track valid router in dht *)
    let r2 := set_dht_nodes (<[pk := job_rc]> (dht_nodes r1)) r1 in
    (* mark success in profile *)
    let r3 := set_profiling (MarkSuccess pk (routerProfiling r2)) r2 in
    let r4 :=
      match establish_job with
      | Some j => (* this was an outbound establish job *)
          TryConnectJob_Success r3 j
      | None => FlushOutboundFor r3 pk (GetLinkWithSessionByPubkey r3 pk)
      end in
    set_verifying (delete pk (pendingVerifyRC r4)) r4.

(** *** Session renegotiation *)

Definition CheckRenegotiateValid (r : Router) (newrc oldrc : RouterContact)
  : Router * bool :=
  (* missmatch of identity ? *)
  if decide (pubkey newrc ≠ pubkey oldrc) then (r, false)
  else
    (* store it in nodedb async *)
    let r1 := emit [nodedb_InsertAsync newrc] r in
    (* update dht if required *)
    let r2 :=
      match dht_nodes r1 !! pubkey newrc with
      | Some _ => set_dht_nodes (<[pubkey newrc := newrc]> (dht_nodes r1)) r1
      | None => r1
      end in
    (* update valid routers *)
    let r3 :=
      match validRouters r2 !! pubkey newrc with
      | None => set_validRouters (<[pubkey newrc := newrc]> (validRouters r2)) r2
      | Some _ => set_validRouters (<[pubkey newrc := newrc]> (validRouters r2)) r2
      end in
    (r3, true).

(** *** The handlers as operations on the router

    Every handler runs to completion on the logic thread; [exec] runs
    one of them. *)
Inductive Op :=
  | op_try_connect (remote : RouterContact) (numretries : Z)
  | op_on_try_connecting (remote : RouterID)
  | op_OnConnectTimeout (remote : RouterID)
  | op_FlushOutboundFor (remote : RouterID) (chosen : option ILinkLayer)
  | op_DiscardOutboundFor (remote : RouterID)
  | op_SendToOrQueue (remote : RouterID) (msg : ILinkMessage)
  | op_on_verify_client_rc (job_rc : RouterContact)
  | op_on_verify_server_rc (job_rc : RouterContact) (valid : bool)
      (establish_job : option TryConnectJob)
  | op_CheckRenegotiateValid (newrc oldrc : RouterContact).

Definition exec (r : Router) (op : Op) : Router :=
  match op with
  | op_try_connect remote n => (llarp_router_try_connect r remote n).1
  | op_on_try_connecting remote => on_try_connecting r remote
  | op_OnConnectTimeout remote => OnConnectTimeout r remote
  | op_FlushOutboundFor remote chosen => FlushOutboundFor r remote chosen
  | op_DiscardOutboundFor remote => DiscardOutboundFor r remote
  | op_SendToOrQueue remote msg => (SendToOrQueue r remote msg).1
  | op_on_verify_client_rc job_rc => on_verify_client_rc r job_rc
  | op_on_verify_server_rc job_rc v j => on_verify_server_rc r job_rc v j
  | op_CheckRenegotiateValid newrc oldrc =>
      (CheckRenegotiateValid r newrc oldrc).1
  end.

(** The handler [op] calls [FlushOutboundFor(pk, _)]. *)
Definition flushes (op : Op) (pk : RouterID) : Prop :=
  match op with
  | op_FlushOutboundFor remote _ => remote = pk
  | op_on_verify_client_rc job_rc => pubkey job_rc = pk
  | op_on_verify_server_rc job_rc true (Some j) => pubkey (rc j) = pk
  | op_on_verify_server_rc job_rc true None => pubkey job_rc = pk
  | _ => False
  end.

(** The handler [op] is [AttemptTimedout] of the job of [pk] with no try
    left. *)
Definition gives_up (op : Op) (r : Router) (pk : RouterID) : Prop :=
  match op with
  | op_OnConnectTimeout remote =>
      remote = pk ∧
      ∃ j, pendingEstablishJobs r !! pk = Some j ∧ ShouldRetry j = false
  | _ => False
  end.

(** No handler of [ops], run in order from [r], flushes for [pk] or gives
    up on it. *)
Fixpoint keeps (pk : RouterID) (ops : list Op) (r : Router) : Prop :=
  match ops with
  | [] => True
  | op :: ops' =>
      ¬ flushes op pk ∧ ¬ gives_up op r pk ∧ keeps pk ops' (exec r op)
  end.

(** Every job is stored under the pubkey of its RC. *)
Definition jobs_keyed (r : Router) : Prop :=
  ∀ k j, pendingEstablishJobs r !! k = Some j → pubkey (rc j) = k.

(** No per-peer queue holds more than [MaxPendingSendQueueSize]
    messages. *)
Definition queues_bounded (r : Router) : Prop :=
  ∀ k q, outboundMessageQueue r !! k = Some q →
         (length q ≤ MaxPendingSendQueueSize)%nat.
End defs.

(** *** Lookup handlers, connection policy and the verify round trip *)

(** [RouterContact::Verify(crypto, now)]: the signature check together with
    the expiry check at [now]. *)
Class VerifyAt := { Verify_at : RouterContact → llarp_time_t → bool }.

(** [RouterContact::ExpiresSoon(now, dlt)] of router_contact.cpp, which is
    not part of the slice. *)
Class RCExpiry := { ExpiresSoon : RouterContact → llarp_time_t → Z → bool }.

(** The members of [Router] that the connection policy reads. *)
Record RouterConfig := {
  whitelistRouters : bool;
  lokinetRouters : gset RouterID;
  strictConnectPubkeys : gset RouterID
}.

(** The handler a DHT lookup is started with. *)
Inductive LookupHandler :=
  | HandleDHTLookupForSendTo_h
  | HandleDHTLookupForTryEstablishTo_h
  | HandleDHTLookupForExplore_h.

(** [dht->impl.LookupRouter(remote, handler)]. *)
Inductive DhtLookup := LookupRouter (remote : RouterID) (h : LookupHandler).

Section more.
Context `{!Crypto, !Encoder, !FileSystem, !LinkMessages, !Profiling, !VerifyAt}.

(** [rnd] is the value of [randint]; [advance(itr, randint() % sz)]. *)
Definition GetRandomGoodRouter (r : Router) (rnd : Z) : option RouterID :=
  let es := NodeDB.entries (nodedb r) in
  let sz := Z.of_nat (length es) in
  if (sz =? 0)%Z then None
  else
    let n := if (1 <? sz)%Z then (rnd mod sz)%Z else 0%Z in
    fst <$> es !! Z.to_nat n.

Definition SessionClosed (r : Router) (remote : RouterID) : Router :=
  set_validRouters (delete remote (validRouters r))
    (set_dht_nodes (delete remote (dht_nodes r)) r).

Definition Router_HasSessionTo (r : Router) (remote : RouterID) : bool :=
  bool_decide (is_Some (validRouters r !! remote)).

Definition NumberOfConnectedRouters (r : Router) : nat :=
  size (validRouters r).

Definition ConnectionToRouterAllowed (cfg : RouterConfig) (r : Router)
    (router : RouterID) : bool :=
  if negb (size (strictConnectPubkeys cfg) =? 0)%nat
     && bool_decide (router ∉ strictConnectPubkeys cfg)
  then false
  else if IsServiceNode r && whitelistRouters cfg
  then bool_decide (router ∈ lokinetRouters cfg)
  else true.

(** [has_lookup] is [dht->impl.HasRouterLookup(remote)]. *)
Definition TryEstablishTo (cfg : RouterConfig) (has_lookup : bool)
    (r : Router) (remote : RouterID) : Router * list DhtLookup :=
  if negb (ConnectionToRouterAllowed cfg r remote) then
    (emit [LogWarn "not connecting as it's not permitted by config"] r, [])
  else
    match NodeDB.Get (nodedb r) remote with
    | Some rc0 =>
        (* try connecting async *)
        ((llarp_router_try_connect r rc0 5).1, [])
    | None =>
        if IsServiceNode r || negb (IsBad (routerProfiling r) remote) then
          if has_lookup then (r, [])
          else
            (* dht lookup as we don't know it *)
            (r, [LookupRouter remote HandleDHTLookupForTryEstablishTo_h])
        else (emit [LogWarn "not connecting as it's unreliable"] r, [])
    end.

Definition HandleDHTLookupForSendTo (cfg : RouterConfig) (now : llarp_time_t)
    (r : Router) (remote : RouterID) (results : list RouterContact) : Router :=
  match results with
  | first :: _ =>
      if whitelistRouters cfg && bool_decide (remote ∉ lokinetRouters cfg)
      then r
      else if Verify_at first now then
        let r1 := set_nodedb (NodeDB.Insert (nodedb r) first).1 r in
        (llarp_router_try_connect r1 first 10).1
      else DiscardOutboundFor r remote
  | [] => DiscardOutboundFor r remote
  end.

(** The loop of [HandleDHTLookupForExplore]: insert until the first RC that
    does not verify; the flag tells whether the loop ran to its end. *)
Fixpoint insert_verified (now : llarp_time_t) (db : NodeDB.llarp_nodedb)
    (results : list RouterContact) : NodeDB.llarp_nodedb * bool :=
  match results with
  | [] => (db, true)
  | rc0 :: rest =>
      if Verify_at rc0 now
      then insert_verified now (NodeDB.Insert db rc0).1 rest
      else (db, false)
  end.

Definition HandleDHTLookupForExplore (cfg : RouterConfig) (has_lookup : bool)
    (now : llarp_time_t) (r : Router) (remote : RouterID)
    (results : list RouterContact) : Router * list DhtLookup :=
  match results with
  | [] => (r, [])
  | _ =>
      let '(db, all) := insert_verified now (nodedb r) results in
      let r1 := set_nodedb db r in
      if all then
        if ConnectionToRouterAllowed cfg r1 remote
        then TryEstablishTo cfg has_lookup r1 remote
        else (r1, [])
      else (r1, [])
  end.

Definition HandleDHTLookupForTryEstablishTo (cfg : RouterConfig) (r : Router)
    (remote : RouterID) (results : list RouterContact) : Router :=
  let r0 :=
    match results with
    | [] =>
        if negb (IsServiceNode r)
        then set_profiling (MarkTimeout remote (routerProfiling r)) r
        else r
    | _ => r
    end in
  foldl (λ r' result,
           if whitelistRouters cfg
              && bool_decide (pubkey result ∉ lokinetRouters cfg)
           then r'
           else
             let r1 := set_nodedb (NodeDB.Insert (nodedb r') result).1 r' in
             (llarp_router_try_connect r1 result 10).1)
        r0 results.

(** [async_verify_RC]: the request handed to the node database and the
    establish job its context points to; [None] when no request is made.
    The outer [None] is the dereference of a null [link]. *)
Definition async_verify_RC (cfg : RouterConfig) (r : Router)
    (rc0 : RouterContact) (l : option ILinkLayer)
  : option (Router *
            option (NodeDB.llarp_async_verify_rc * option TryConnectJob)) :=
  if bool_decide (is_Some (pendingVerifyRC r !! pubkey rc0)) then Some (r, None)
  else if IsPublicRouter rc0 && whitelistRouters cfg
          && bool_decide (pubkey rc0 ∉ lokinetRouters cfg)
  then
    match l with
    | Some l' =>
        Some (emit [Link_CloseSessionTo (Some (Name l')) (pubkey rc0)] r, None)
    | None => None
    end
  else
    let r1 := set_verifying (<[pubkey rc0 := rc0]> (pendingVerifyRC r)) r in
    let job :=
      {| NodeDB.rc := rc0; NodeDB.valid := false;
         NodeDB.hook := Some (if IsPublicRouter rc0
                              then NodeDB.on_verify_server_rc
                              else NodeDB.on_verify_client_rc);
         NodeDB.logic := true |} in
    Some (r1, Some (job, pendingEstablishJobs r !! pubkey rc0)).

Definition OnSessionEstablished (cfg : RouterConfig) (r : Router)
    (rc0 : RouterContact) :=
  async_verify_RC cfg r rc0 None.

(** The hooks the pipeline called, applied to the router in order. *)
Definition deliver_hooks (j : NodeDB.llarp_async_verify_rc)
    (establish_job : option TryConnectJob) (trace : list NodeDB.Event)
    (r : Router) : Router :=
  foldl (λ r' ev,
           match ev with
           | NodeDB.EvHook _ NodeDB.on_verify_server_rc v =>
               on_verify_server_rc r' (NodeDB.rc j) v establish_job
           | NodeDB.EvHook _ NodeDB.on_verify_client_rc _ =>
               on_verify_client_rc r' (NodeDB.rc j)
           | _ => r'
           end) r trace.

(** One full verification of [rc0]: [async_verify_RC], the three stages of
    the node database's pipeline on the router's database, and the hooks the
    pipeline called. *)
Definition verify_round (cfg : RouterConfig) (r : Router)
    (rc0 : RouterContact) (l : option ILinkLayer) : option Router :=
  match async_verify_RC cfg r rc0 l with
  | None => None
  | Some (r1, None) => Some r1
  | Some (r1, Some (job, ej)) =>
      match NodeDB.run 3 (NodeDB.llarp_nodedb_async_verify job (nodedb r1)) with
      | None => None
      | Some p =>
          Some (deliver_hooks (NodeDB.job p) ej (NodeDB.trace p)
                  (set_nodedb (NodeDB.nodedb p) r1))
      end
  end.

(** [send_all]: [SendToOrQueue] of each message in turn. *)
Definition send_all (r : Router) (remote : RouterID)
    (msgs : list ILinkMessage) : Router :=
  foldl (λ r' m, (SendToOrQueue r' remote m).1) r msgs.

(** [Router::PersistSessionUntil], on the table [m_PersistingSessions]. *)
Definition PersistSessionUntil (m : gmap RouterID llarp_time_t)
    (remote : RouterID) (until : llarp_time_t) : gmap RouterID llarp_time_t :=
  <[remote := Z.max until (default 0%Z (m !! remote))]> m.

(** *** Connecting to random routers *)

Section random_connect.
Context `{!RCExpiry}.

(** The visitor of [ConnectToRandomRouters].  Its state is the router, the
    captured counter [want] and the number of values drawn from
    [llarp::randint] so far; [rnd] lists the values [randint] returns and
    [now] is the clock.  [randint] is called only when the first two tests
    pass, and the session tests are made only when the value is even. *)
Definition ConnectToRandomRouters_visit (cfg : RouterConfig)
    (now : llarp_time_t) (rnd : nat → Z) (st : Router * Z * nat)
    (other : RouterContact) : (Router * Z * nat) * bool :=
  let '(r, want, n) := st in
  (* check if we really want to *)
  if ExpiresSoon other now 30000 then (st, (0 <? want)%Z)
  else if negb (ConnectionToRouterAllowed cfg r (pubkey other))
  then (st, (0 <? want)%Z)
  else if (rnd n mod 2 =? 0)%Z
          && negb (Router_HasSessionTo r (pubkey other)
                   || HasPendingConnectJob r (pubkey other))
  then
    ((((llarp_router_try_connect r other 5).1), (want - 1)%Z, S n),
     (0 <? want - 1)%Z)
  else ((r, want, S n), (0 <? want)%Z).

(** The router afterwards and the final value of [want].  [want] is an
    [int]; it is decremented at most once while it is not positive. *)
Definition ConnectToRandomRouters (cfg : RouterConfig) (now : llarp_time_t)
    (rnd : nat → Z) (r : Router) (want : Z) : Router * Z :=
  let '(r', want', _) :=
    NodeDB.visit (nodedb r) (ConnectToRandomRouters_visit cfg now rnd)
      (r, want, 0%nat) in
  (r', want').
End random_connect.
End more.
End router.

(** ** Hidden service context (service/context.cpp) *)

Module service.
(** The endpoints (service/endpoint.cpp, handlers/tun.cpp and
    handlers/null.cpp are not part of the slice): the two constructors of
    [endpointConstructors] and the calls the context makes.  A call that
    can change the endpoint returns it. *)
Class EndpointOps := {
  Endpoint : Type;
  TunEndpoint : string → Endpoint;
  NullEndpoint : string → Endpoint;
  SetOption : Endpoint → string → string → Endpoint * bool;
  Start : Endpoint → Endpoint * bool;
  Stop : Endpoint → Endpoint;
  ShouldRemove : Endpoint → bool;
  Endpoint_Tick : Endpoint → llarp_time_t → Endpoint
}.

Section defs.
Context `{!EndpointOps}.

(** context.hpp is not part of the slice: [m_Endpoints] is used as a map
    with unique keys ([find], [insert], [erase]) and [m_Stopped] as a
    sequence ([emplace_back]).  A loop over [m_Endpoints] visits
    [map_to_list]. *)
Record Context := {
  m_Endpoints : gmap string Endpoint;
  m_Stopped : list Endpoint
}.

(** A configuration section: its name and its options in order. *)
Definition section_t : Type := string * list (string * string).

Definition StopAll (ctx : Context) : Context * bool :=
  ({| m_Endpoints := ∅;
      m_Stopped := m_Stopped ctx ++ (Stop <$> (map_to_list (m_Endpoints ctx)).*2) |},
   true).

Definition RemoveEndpoint (ctx : Context) (name : string) : Context * bool :=
  match m_Endpoints ctx !! name with
  | None => (ctx, false)
  | Some ep =>
      ({| m_Endpoints := delete name (m_Endpoints ctx);
          m_Stopped := m_Stopped ctx ++ [Stop ep] |}, true)
  end.

Definition Tick (ctx : Context) (now : llarp_time_t) : Context :=
  {| (* erase stopped endpoints that are done *)
     m_Stopped := filter (λ ep, ShouldRemove ep = false) (m_Stopped ctx);
     (* tick active endpoints *)
     m_Endpoints := (λ ep, Endpoint_Tick ep now) <$> m_Endpoints ctx |}.

Definition hasEndpoints (ctx : Context) : bool :=
  negb (size (m_Endpoints ctx) =? 0)%nat.

(** The loop of [StartAll] over the endpoints still to visit. *)
Fixpoint StartAll_from (l : list (string * Endpoint))
    (m : gmap string Endpoint) : gmap string Endpoint * bool :=
  match l with
  | [] => (m, true)
  | (name, ep) :: l' =>
      let '(ep', ok) := Start ep in
      if ok then StartAll_from l' (<[name := ep']> m)
      else (<[name := ep']> m, false)
  end.

Definition StartAll (ctx : Context) : Context * bool :=
  let '(m, ok) :=
    StartAll_from (map_to_list (m_Endpoints ctx)) (m_Endpoints ctx) in
  ({| m_Endpoints := m; m_Stopped := m_Stopped ctx |}, ok).

(** The first loop of [AddEndpoint]: the last [type] option names the type,
    [tun] when there is none. *)
Definition endpointType (opts : list (string * string)) : string :=
  foldl (λ t (option : string * string),
           if decide (option.1 = "type") then option.2 else t) "tun" opts.

Definition endpointConstructors (type : string)
  : option (string → Endpoint) :=
  if decide (type = "tun") then Some TunEndpoint
  else if decide (type = "null") then Some NullEndpoint
  else None.

(** The second loop: [None] when a [SetOption] fails. *)
Fixpoint configure (service : Endpoint) (opts : list (string * string))
  : option Endpoint :=
  match opts with
  | [] => Some service
  | (k, v) :: opts' =>
      if decide (k = "type") then configure service opts'
      else
        let '(service', ok) := SetOption service k v in
        if ok then configure service' opts' else None
  end.

Definition AddEndpoint (ctx : Context) (conf : section_t) (autostart : bool)
  : Context * bool :=
  if bool_decide (is_Some (m_Endpoints ctx !! conf.1)) then
    (* cannot add hidden service with duplicate name *)
    (ctx, false)
  else
    (* detect type *)
    match endpointConstructors (endpointType conf.2) with
    | None => (ctx, false)
    | Some construct =>
        (* configure *)
        match configure (construct conf.1) conf.2 with
        | None => (ctx, false)
        | Some service =>
            if autostart then
              let '(service', ok) := Start service in
              if ok then
                ({| m_Endpoints := <[conf.1 := service']> (m_Endpoints ctx);
                    m_Stopped := m_Stopped ctx |}, true)
              else (ctx, false)
            else
              ({| m_Endpoints := <[conf.1 := service]> (m_Endpoints ctx);
                  m_Stopped := m_Stopped ctx |}, true)
        end
    end.

(** [autostart] is the default argument of [AddEndpoint], which is declared
    in context.hpp. *)
Definition AddDefaultEndpoint (ctx : Context) (opts : list (string * string))
    (autostart : bool) : Context * bool :=
  AddEndpoint ctx ("default", ("type", "tun") :: opts) autostart.
End defs.
End service.

(** ** Concrete instances used to run the definitions *)

Module Fixtures.
(** A signature check that accepts exactly the one-byte signature [x01]. *)
Definition toy_crypto : Crypto :=
  {| Verify r := bool_decide (signature r = [Byte.x01]) |}.

Definition toy_encoder : Encoder :=
  {| BEncode r := Some (signature r); HexEncode pk := "0f" |}.

(** A disk that stores every file, and one on which every write fails. *)
Definition mem_fs : FileSystem :=
  {| Disk := gmap string buffer;
     ofs_write d p b := (<[p:=b]> d, true);
     fs_remove d p := delete p d |}.

Definition readonly_fs : FileSystem :=
  {| Disk := unit;
     ofs_write d _ _ := (d, false);
     fs_remove d _ := d |}.

Definition addr0 : AddressInfo :=
  {| ai_rank := 1; ai_dialect := "utp"; ai_pubkey := 9%N;
     ai_ip := 1%N; ai_port := 1090 |}.

Definition mk_rc (pk : PubKey) (a : list AddressInfo) (sig : buffer)
  : RouterContact :=
  {| pubkey := pk; enckey := pk; addrs := a; exits := [];
     nickname := ""; last_updated := 0; signature := sig |}.

Definition rcA := mk_rc 1%N [addr0] [Byte.x01].
Definition rcB := mk_rc 2%N [addr0] [Byte.x01].
Definition rcC := mk_rc 3%N [addr0] [Byte.x01].
(** A public RC whose signature does not verify, and a client RC. *)
Definition rcBad := mk_rc 4%N [addr0] [Byte.x00].
Definition rcClient := mk_rc 5%N [] [Byte.x01].

Definition db3 : @NodeDB.llarp_nodedb mem_fs :=
  @NodeDB.Build_llarp_nodedb mem_fs
    [(1%N, rcA); (2%N, rcB); (3%N, rcC)] "nodedb" (∅ : gmap string buffer).

Definition db_ro : @NodeDB.llarp_nodedb readonly_fs :=
  @NodeDB.Build_llarp_nodedb readonly_fs [] "nodedb" ().
(** Modelled from the spec: the defaults of the two path timeouts (30 s and
    60 s); the role bits are two distinct bits. *)
Definition spec_constants : path.PathConstants :=
  {| path.PATH_BUILD_TIMEOUT := 30000; path.PATH_ALIVE_TIMEOUT := 60000;
     path.ePathRoleExit := 2; path.ePathRoleSVC := 4 |}.

Definition intro0 : path.Introduction :=
  {| path.router := 3%N; path.pathID := 7%N; path.latency := 40;
     path.expiresAt := 600000 |}.

(** An established path that heard its last message at 1 s; [role] is its
    role set. *)
Definition established (role : Z) : path.Path :=
  {| path.data :=
       {| path._status := path.ePathEstablished; path.buildStarted := 0;
          path.intro := intro0; path.m_LastRecvMessage := 1000;
          path.m_LastLatencyTestTime := 1000;
          path.m_LastLatencyTestID := 0; path._role := role |};
     path.m_CheckForDead := None |}.

Definition hop (tx rx : PathID_t) (up down : RouterID) : path.TransitHop :=
  {| path.info := {| path.txID := tx; path.rxID := rx;
                     path.upstream := up; path.downstream := down |};
     path.pathKey := 0%N; path.nonceXOR := 0%N;
     path.started := 0; path.lifetime := 600000 |}.

Definition empty_paths : path.PathContext :=
  {| path.m_OurPaths := []; path.m_TransitPaths := [];
     path.m_AllowTransit := true |}.
(** A Context whose absent operations answer nothing and know no peer. *)
Definition quiet_ops : dht.ContextOps :=
  {| dht.exploritory_result _ _ _ _ := (true, []);
     dht.relayed_replies _ _ _ _ _ := [];
     dht.FindClosest _ _ := None |}.

(** A client: no transit allowed, router [rcA] known, one lookup from
    [(8, 77)] in flight. *)
Definition dht_ctx (transit : bool) : dht.Context :=
  {| dht.allowTransit := transit;
     dht.pendingRouterLookups := [(8%N, 77%Z)];
     dht.OurKey := 100%N;
     dht.nodes := [];
     dht.router_rc := rcClient;
     dht.router_nodedb := [(1%N, rcA)];
     dht.router_pathContext := empty_paths |}.

Definition find_rcA (from : N) (tx : Z) : dht.FindRouterMessage :=
  {| dht.From := from; dht.K := 1%N; dht.txid := tx;
     dht.exploritory := false; dht.iterative := false; dht.version := 0 |}.
(** Link messages that are their own encoding; a message of more than 4
    bytes does not fit the buffer. *)
Definition raw_messages : router.LinkMessages :=
  {| router.ILinkMessage := buffer;
     router.ILinkMessage_BEncode m :=
       if (length m <=? 4)%nat then Some m else None |}.

(** A profiler that counts timeouts and calls a peer bad after three. *)
Definition counting_profiler : router.Profiling :=
  {| router.Profiles := gmap RouterID nat;
     router.MarkTimeout pk p := <[pk := S (default 0%nat (p !! pk))]> p;
     router.MarkSuccess pk p := delete pk p;
     router.IsBad p pk := (3 <=? default 0%nat (p !! pk))%nat |}.

Definition outbound : router.ILinkLayer :=
  {| router.Name := "utp"; router.sessions := [] |}.

(** A client router without sessions that knows [rcA], [rcB] and [rcC];
    [q] is the outbound queue for peer 2. *)
Definition client_router (q : list buffer)
  : @router.Router mem_fs raw_messages counting_profiler :=
  @router.Build_Router mem_fs raw_messages counting_profiler
    [] (Some outbound) {[ 2%N := q ]} ∅ ∅ ∅ ∅ db3
    (∅ : gmap RouterID nat) [].

Definition msg1 : buffer := [Byte.x01].
Definition link_msg1 : @router.ILinkMessage raw_messages := msg1.
Definition full_queue : list buffer := replicate 8 msg1.

(** A configuration without whitelist and without strict-connect list. *)
Definition open_config : router.RouterConfig :=
  {| router.whitelistRouters := false; router.lokinetRouters := ∅;
     router.strictConnectPubkeys := ∅ |}.

(** A path whose build started at [t]. *)
Definition building (t : Z) : path.Path :=
  {| path.data :=
       {| path._status := path.ePathBuilding; path.buildStarted := t;
          path.intro := intro0; path.m_LastRecvMessage := 0;
          path.m_LastLatencyTestTime := t;
          path.m_LastLatencyTestID := 0; path._role := 0 |};
     path.m_CheckForDead := None |}.

(** A transit hop is done when its lifetime has passed since it started. *)
Definition hop_expiry : path.TransitHopExpiry :=
  {| path.TransitHop_Expired h now :=
       (path.started h + path.lifetime h <=? now)%Z |}.
End Fixtures.

(** * Theorems *)

(** ** Node database *)

Section nodedb_proofs.
Context `{!Crypto, !Encoder, !FileSystem}.
Import NodeDB.

Lemma entries_find_app pk es es' :
  entries_find pk (es ++ es') =
  match entries_find pk es with
  | Some r => Some r
  | None => entries_find pk es'
  end.
Proof.
  induction es as [|[k r] es IH]; simpl; [done|].
  destruct (decide (k = pk)); [done|apply IH].
Qed.

Lemma entries_insert_find pk r es :
  is_Some (entries_find pk (entries_insert pk r es)).
Proof.
  unfold entries_insert.
  destruct (entries_find pk es) as [r'|] eqn:E.
  - rewrite E. by eexists.
  - rewrite entries_find_app, E. simpl.
    destruct (decide (pk = pk)); [by eexists|done].
Qed.

Lemma entries_insert_Forall (P : PubKey * RouterContact → Prop) pk r es :
  Forall P es → P (pk, r) → Forall P (entries_insert pk r es).
Proof.
  intros Hes Hr. unfold entries_insert.
  destruct (entries_find pk es); [done|].
  apply Forall_app. split; [done|]. by constructor.
Qed.

Lemma Insert_entries db r :
  entries (Insert db r).1 = entries_insert (pubkey r) r (entries db).
Proof.
  unfold Insert. destruct (BEncode r); [|done].
  simpl. by destruct (ofs_write _ _ _).
Qed.


(** The pipeline seen from the outside. *)
Lemma async_verify_run (db : llarp_nodedb) (j : llarp_async_verify_rc) :
  logic j = true →
  run 3 (llarp_nodedb_async_verify j db) =
  Some
    (if Verify (rc j) && IsPublicRouter (rc j) then
       let ok := (Insert db (rc j)).2 in
       {| job := set_valid j ok;
          nodedb := (Insert db (rc j)).1;
          queue := [];
          trace := EvInsert diskworker (rc j) ok ::
                   match hook j with
                   | Some h => [EvHook logic_thread h ok]
                   | None => []
                   end |}
     else
       {| job := set_valid j (Verify (rc j));
          nodedb := db;
          queue := [];
          trace :=
            (if Verify (rc j) then []
             else [EvLogWarn "RC is not valid, can't save to disk"]) ++
            match hook j with
            | Some h => [EvHook logic_thread h (Verify (rc j))]
            | None => []
            end |}).
Proof.
  intros Hl. unfold llarp_nodedb_async_verify, run, step, queue_job. simpl.
  destruct (Verify (rc j)) eqn:V; simpl.
  - destruct (IsPublicRouter (rc j)) eqn:P; simpl.
    + destruct (Insert db (rc j)) as [db' ok] eqn:I. simpl. rewrite Hl. simpl.
      destruct (hook j); simpl; by rewrite ?Hl.
    + rewrite Hl. simpl. destruct (hook j); simpl; by rewrite ?V.
  - rewrite Hl. simpl. destruct (hook j); simpl; by rewrite ?V.
Qed.

(** C1: a request submitted to [llarp_nodedb_async_verify] runs to
    completion; [Insert] is called (on the disk worker, with the submitted
    RC) only when the signature verified and the RC is public; entries that
    all verify still all verify afterwards, and an RC that fails
    verification leaves the map untouched; and when a stage fails (the
    verification, or the insert), the hook is called on the logic thread
    with [valid = false]. *)
Theorem async_verify_inserts_only_verified
    (db : llarp_nodedb) (j : llarp_async_verify_rc) (h : Hook) :
  logic j = true →
  hook j = Some h →
  Forall (λ e, Verify e.2 = true) (entries db) →
  ∃ p, run 3 (llarp_nodedb_async_verify j db) = Some p ∧
    queue p = [] ∧
    (∀ on r ok, EvInsert on r ok ∈ trace p →
       on = diskworker ∧ r = rc j ∧
       Verify (rc j) = true ∧ IsPublicRouter (rc j) = true) ∧
    Forall (λ e, Verify e.2 = true) (entries (nodedb p)) ∧
    (Verify (rc j) = false → entries (nodedb p) = entries db) ∧
    (Verify (rc j) = false ∨
     (IsPublicRouter (rc j) = true ∧ (Insert db (rc j)).2 = false) →
     valid (job p) = false ∧ EvHook logic_thread h false ∈ trace p).
Proof.
  intros Hl Hh Hinv. eexists. split; [by apply async_verify_run|].
  rewrite Hh.
  destruct (Verify (rc j)) eqn:V; simpl.
  - destruct (IsPublicRouter (rc j)) eqn:P; simpl.
    + split; [done|]. split.
      { intros on r ok Hin. apply elem_of_cons in Hin as [Hin|Hin].
        - by inversion Hin.
        - apply list_elem_of_singleton in Hin. discriminate. }
      split.
      { rewrite Insert_entries. by apply entries_insert_Forall. }
      split; [done|].
      intros [?|[_ Hok]]; [done|]. rewrite Hok. split; [done|].
      apply elem_of_cons. right. by apply list_elem_of_singleton.
    + split; [done|]. split.
      { intros on r ok Hin. apply list_elem_of_singleton in Hin. discriminate. }
      split; [done|]. split; [done|].
      intros [?|[? _]]; done.
  - split; [done|]. split.
    { intros on r ok Hin. apply elem_of_cons in Hin as [Hin|Hin]; [done|].
      apply list_elem_of_singleton in Hin. discriminate. }
    split; [done|]. split; [done|].
    intros _. split; [done|].
    apply elem_of_cons. right. by apply list_elem_of_singleton.
Qed.

(** *** [select_random_hop] *)

(** The index that is dereferenced is never the last one: [idx - 1] is used
    where [idx] is meant. *)
Lemma pick_index_range (sz r : Z) :
  (2 ≤ sz → 0 ≤ pick_index sz r ≤ sz - 2)%Z.
Proof.
  intros Hsz. unfold pick_index.
  destruct (1 <? sz)%Z eqn:E; [|lia].
  pose proof (Z.mod_pos_bound r sz ltac:(lia)) as Hm.
  destruct (r mod sz =? 0)%Z eqn:E0; lia.
Qed.

Lemma pick_is_Some (es : list (PubKey * RouterContact)) (r : Z) :
  (2 ≤ length es)%nat →
  ∃ k e, pick es (Z.of_nat (length es)) r = Some (k, e) ∧ (k, e) ∈ es.
Proof.
  intros Hlen. unfold pick.
  pose proof (pick_index_range (Z.of_nat (length es)) r ltac:(lia)) as Hr.
  destruct (lookup_lt_is_Some_2 es (Z.to_nat (pick_index (Z.of_nat (length es)) r))
              ltac:(lia)) as [[k e] Hke].
  exists k, e. split; [done|]. by eapply list_elem_of_lookup_2.
Qed.

Lemma post_dec_pos (tries : Z) :
  (0 < tries < 2 ^ 64)%Z → post_dec tries = (true, (tries - 1)%Z).
Proof.
  intros Hr. unfold post_dec, wrap64.
  rewrite Z.mod_small by lia.
  by destruct (Z.eqb_spec tries 0); [lia|].
Qed.

Lemma post_dec_zero : post_dec 0%Z = (false, (2 ^ 64 - 1)%Z).
Proof. reflexivity. Qed.

(** With [tries < fuel] the loop returns: it does not run out of fuel and
    never dereferences [end()]. *)
Lemma hop_loop_returns fuel (es : list (PubKey * RouterContact))
    prev result tries rand i :
  (2 ≤ length es)%nat → (0 ≤ tries < Z.of_nat fuel)%Z → (tries < 2 ^ 64)%Z →
  is_Some (hop_loop fuel es (Z.of_nat (length es)) prev result tries rand i).
Proof.
  intros Hlen. revert tries i.
  induction fuel as [|fuel IH]; intros tries i Ht Hb; [lia|].
  cbn [hop_loop]. destruct (pick_is_Some es (rand i) Hlen) as (k & e & -> & _).
  destruct (decide (tries = 0%Z)) as [->|Hne].
  - rewrite post_dec_zero.
    destruct (decide (pubkey prev = pubkey e)); [by eexists|].
    destruct (negb _); by eexists.
  - rewrite (post_dec_pos tries) by lia.
    destruct (decide (pubkey prev = pubkey e)).
    + destruct (decide (tries - 1 = 0)%Z) as [->|Hne1].
      * rewrite post_dec_zero. by eexists.
      * rewrite (post_dec_pos (tries - 1)) by lia. apply IH; lia.
    + destruct (negb _); [by eexists|]. apply IH; lia.
Qed.

Lemma hop_loop_sound fuel (es : list (PubKey * RouterContact))
    sz prev result tries rand i e :
  hop_loop fuel es sz prev result tries rand i = Some (true, e) →
  pubkey e ≠ pubkey prev ∧ addrs e ≠ [] ∧ ∃ k, (k, e) ∈ es.
Proof.
  revert tries i. induction fuel as [|fuel IH]; intros tries i; [done|].
  cbn [hop_loop]. unfold pick.
  destruct (es !! _) as [[k e']|] eqn:Hp; [|done].
  destruct (post_dec tries) as [c t1] eqn:Hd.
  destruct (decide (pubkey prev = pubkey e')).
  - destruct c; [|done].
    destruct (post_dec t1) as [c2 t2]. destruct c2; [apply IH|done].
  - destruct (length (addrs e') =? 0)%nat eqn:Ha; simpl.
    + destruct c; [apply IH|done].
    + intros [= <-]. split; [done|]. split.
      * intros Hnil. rewrite Hnil in Ha. done.
      * exists k. by eapply list_elem_of_lookup_2.
Qed.

(** The parts of the description of [select_random_hop] that hold: it
    always returns; with fewer than three entries it returns [false]; for
    [N > 0] a [true] result is an entry that differs from [prev] and has an
    address; for [N = 0] it returns [true] with an entry. *)
Lemma select_random_hop_returns db prev result N rand :
  is_Some (select_random_hop db prev result N rand).
Proof.
  unfold select_random_hop.
  destruct (Z.ltb_spec (Z.of_nat (length (entries db))) 3); [by eexists|].
  destruct (negb (N =? 0)%Z).
  - apply hop_loop_returns; simpl; lia.
  - destruct (pick_is_Some (entries db) (rand 0%nat) ltac:(lia))
      as (k & e & -> & _). by eexists.
Qed.

Lemma select_random_hop_few_entries db prev result N rand :
  (length (entries db) < 3)%nat →
  select_random_hop db prev result N rand = Some (false, result).
Proof.
  intros Hlen. unfold select_random_hop.
  by destruct (Z.ltb_spec (Z.of_nat (length (entries db))) 3); [|lia].
Qed.

Lemma select_random_hop_middle db prev result N rand e :
  N ≠ 0%Z →
  select_random_hop db prev result N rand = Some (true, e) →
  pubkey e ≠ pubkey prev ∧ addrs e ≠ [] ∧ ∃ k, (k, e) ∈ entries db.
Proof.
  intros HN. unfold select_random_hop.
  destruct (_ <? 3)%Z; [done|].
  destruct (Z.eqb_spec N 0); [done|]. cbn [negb]. apply hop_loop_sound.
Qed.

Lemma select_random_hop_entry db prev result rand :
  (3 ≤ length (entries db))%nat →
  ∃ k e, select_random_hop db prev result 0 rand = Some (true, e) ∧
         (k, e) ∈ entries db.
Proof.
  intros Hlen. unfold select_random_hop.
  destruct (Z.ltb_spec (Z.of_nat (length (entries db))) 3); [lia|]. simpl.
  destruct (pick_is_Some (entries db) (rand 0%nat) ltac:(lia))
    as (k & e & -> & Hin). by exists k, e.
Qed.
End nodedb_proofs.


(** Witness of C1 on a disk that refuses every write: [rcA] verifies and is
    public, [Insert] runs and fails, and the server hook is called on the
    logic thread with [valid = false]. *)
Lemma async_verify_inserts_only_verified_witness :
  ∃ p, @NodeDB.run Fixtures.toy_crypto Fixtures.toy_encoder Fixtures.readonly_fs 3
         (NodeDB.llarp_nodedb_async_verify
            {| NodeDB.rc := Fixtures.rcA; NodeDB.valid := false;
               NodeDB.hook := Some NodeDB.on_verify_server_rc;
               NodeDB.logic := true |} Fixtures.db_ro) = Some p ∧
       NodeDB.valid (NodeDB.job p) = false ∧
       NodeDB.EvHook NodeDB.logic_thread NodeDB.on_verify_server_rc false
         ∈ NodeDB.trace p.
Proof.
  destruct (@async_verify_inserts_only_verified
              Fixtures.toy_crypto Fixtures.toy_encoder Fixtures.readonly_fs
              Fixtures.db_ro
              {| NodeDB.rc := Fixtures.rcA; NodeDB.valid := false;
                 NodeDB.hook := Some NodeDB.on_verify_server_rc;
                 NodeDB.logic := true |}
              NodeDB.on_verify_server_rc eq_refl eq_refl (Forall_nil_2 _))
    as (p & Hrun & _ & _ & _ & _ & Hfail).
  exists p. split; [exact Hrun|].
  apply Hfail. right. split; reflexivity.
Defined.

(** C5 (evaluated where the code departs from it): on a node database of
    three reachable routers [rcA; rcB; rcC], whatever [randint] returns and
    for every [N], [select_random_hop] never selects the last entry, and the
    draws [0] and [1] both select the first one: the pick is not uniform. *)
Theorem select_random_hop_never_picks_last (N : Z) (rand : nat → Z) :
  @NodeDB.select_random_hop Fixtures.mem_fs Fixtures.db3
    Fixtures.rcClient Fixtures.rcClient N rand ≠ Some (true, Fixtures.rcC) ∧
  @NodeDB.select_random_hop Fixtures.mem_fs Fixtures.db3
    Fixtures.rcClient Fixtures.rcClient N (λ _, 0%Z) = Some (true, Fixtures.rcA) ∧
  @NodeDB.select_random_hop Fixtures.mem_fs Fixtures.db3
    Fixtures.rcClient Fixtures.rcClient N (λ _, 1%Z) = Some (true, Fixtures.rcA).
Proof.
  assert (Hpick : ∀ r, @NodeDB.pick Fixtures.db3.(NodeDB.entries) 3 r = Some (1%N, Fixtures.rcA)
                     ∨ @NodeDB.pick Fixtures.db3.(NodeDB.entries) 3 r = Some (2%N, Fixtures.rcB)).
  { intros r. unfold NodeDB.pick.
    pose proof (pick_index_range 3 r ltac:(lia)) as Hr.
    destruct (decide (NodeDB.pick_index 3 r = 0%Z)) as [->|Hne]; [by left|].
    assert (NodeDB.pick_index 3 r = 1%Z) as -> by lia. by right. }
  split; [|split].
  - unfold NodeDB.select_random_hop.
    change (Z.of_nat (length (NodeDB.entries Fixtures.db3))) with 3%Z.
    cbn [Z.ltb Z.compare Pos.compare Pos.compare_cont].
    destruct (negb (N =? 0)%Z).
    + cbn [NodeDB.hop_loop].
      destruct (Hpick (rand 0%nat)) as [-> | ->]; simpl; discriminate.
    + destruct (Hpick (rand 0%nat)) as [-> | ->]; discriminate.
  - unfold NodeDB.select_random_hop. simpl. by destruct (negb (N =? 0)%Z).
  - unfold NodeDB.select_random_hop. simpl. by destruct (negb (N =? 0)%Z).
Qed.

(** A pick that equals [prev] costs two tries ([if(tries--) continue;] is
    followed by the loop condition [while(tries--)]): when the first three
    picks equal [prev] the search gives up, although the fourth draw would
    have selected [rcB]. *)
Example select_random_hop_prev_costs_two_tries :
  @NodeDB.select_random_hop Fixtures.mem_fs Fixtures.db3
    Fixtures.rcA Fixtures.rcClient 1
    (λ i, if (i <? 3)%nat then 0 else 2)%Z = Some (false, Fixtures.rcClient) ∧
  @NodeDB.select_random_hop Fixtures.mem_fs Fixtures.db3
    Fixtures.rcA Fixtures.rcClient 1
    (λ i, if (i <? 2)%nat then 0 else 2)%Z = Some (true, Fixtures.rcB).
Proof. split; reflexivity. Qed.

(** ** Path state machine *)

Section path_proofs.
Import path.
Context `{!PathConstants}.

(** One pass of the builders: afterwards the active set of a builder holds
    the paths it held before, without the expired ones if the builder was
    called. *)
Lemma expire_builders_elem (builders : list (option N)) (now : Z)
    (sets : gmap N (list Path)) (b : N) (q : Path) :
  q ∈ default []
        (expire_builders (omap (λ b, (λ x, (x, now)) <$> b) builders) sets
         !! b) ↔
  q ∈ default [] (sets !! b) ∧ (Some b ∈ builders → Expired q now = false).
Proof.
  unfold expire_builders. revert sets.
  induction builders as [|[a|] builders IH]; intros sets.
  - simpl. split; [|by intros [? _]]. intros Hq. split; [done|].
    intros Hb. by apply elem_of_nil in Hb.
  - cbn [omap list_omap fmap option_fmap option_map foldl fst snd].
    rewrite IH. rewrite elem_of_cons.
    destruct (decide (a = b)) as [->|Hne].
    + rewrite lookup_alter_eq.
      assert (Hf : q ∈ default []
                         ((λ paths, PathSet_ExpirePaths paths now) <$> sets !! b) ↔
                   Expired q now = false ∧ q ∈ default [] (sets !! b)).
      { unfold PathSet_ExpirePaths. destruct (sets !! b) as [ps|]; simpl.
        - by rewrite list_elem_of_filter.
        - split; [intros Hq; by apply elem_of_nil in Hq|by intros [_ ?]]. }
      rewrite Hf. split.
      * intros [[He Hq] Hrest]. split; [done|]. by intros _.
      * intros [Hq He]. split; [split; [apply He; by left|done]|].
        intros Hb. apply He. by right.
    + rewrite lookup_alter_ne by done. split.
      * intros [Hq He]. split; [done|]. intros [[= ?]|Hb]; [done|by apply He].
      * intros [Hq He]. split; [done|]. intros Hb. apply He. by right.
  - cbn [omap list_omap fmap option_fmap option_map]. rewrite IH.
    rewrite elem_of_cons. split.
    + intros [Hq He]. split; [done|]. intros [?|Hb]; [done|by apply He].
    + intros [Hq He]. split; [done|]. intros Hb. apply He. by right.
Qed.

(** C10: [Expired] is [false] for a building path whatever the time, is
    [now >= ExpireTime()] for an established path, and is [true] in every
    other status; so a path that has just entered [ePathTimeout] or
    [ePathExpired] is expired at every time.  In the next [ExpirePaths] pass
    [PathContext::ExpirePaths] calls every builder that is not null with the
    time of the pass, and a builder that is called keeps exactly its paths
    that are not expired at that time: a path that entered [ePathTimeout] or
    [ePathExpired] is gone from the active set of its builder, whatever the
    time of the pass, and a building path stays. *)
Theorem Expired_by_status `{!TransitHopExpiry} (p : Path) (now t now' : Z) :
  Expired p now =
    match _status (data p) with
    | ePathBuilding => false
    | ePathEstablished => bool_decide (ExpireTime p ≤ now)%Z
    | ePathTimeout | ePathExpired => true
    end ∧
  _status (data (EnterState p ePathTimeout t).1) = ePathTimeout ∧
  Expired (EnterState p ePathTimeout t).1 now' = true ∧
  _status (data (EnterState p ePathExpired t).1) = ePathExpired ∧
  Expired (EnterState p ePathExpired t).1 now' = true ∧
  (∀ ctx builders sets b q,
     q ∈ default []
           (expire_builders (ExpirePaths ctx builders now').2 sets !! b) ↔
     q ∈ default [] (sets !! b) ∧
     (Some b ∈ builders → Expired q now' = false)) ∧
  (∀ ctx builders sets b st,
     st = ePathTimeout ∨ st = ePathExpired →
     Some b ∈ builders →
     (EnterState p st t).1
       ∉ default []
           (expire_builders (ExpirePaths ctx builders now').2 sets !! b)) ∧
  (∀ ctx builders sets b,
     _status (data p) = ePathBuilding →
     p ∈ default [] (sets !! b) →
     p ∈ default []
           (expire_builders (ExpirePaths ctx builders now').2 sets !! b)).
Proof.
  split_and!; try done.
  - unfold Expired. destruct (_status (data p)); try done.
    destruct (Z.leb_spec (ExpireTime p) now).
    + by rewrite bool_decide_eq_true_2.
    + rewrite bool_decide_eq_false_2; [done|lia].
  - intros ctx builders sets b q. unfold ExpirePaths. cbn [snd].
    apply expire_builders_elem.
  - intros ctx builders sets b st Hst Hb Hin.
    unfold ExpirePaths in Hin. cbn [snd] in Hin.
    apply expire_builders_elem in Hin as [_ He]. specialize (He Hb).
    by destruct Hst as [-> | ->].
  - intros ctx builders sets b Hst Hin. unfold ExpirePaths. cbn [snd].
    apply expire_builders_elem. split; [done|]. intros _.
    unfold Expired. by rewrite Hst.
Qed.

Lemma fail_and_time_out_status p now evs :
  _status (data (fail_and_time_out p now evs).1) = ePathTimeout ∧
  MarkPathFail ∈ (fail_and_time_out p now evs).2.
Proof.
  unfold fail_and_time_out. simpl. split; [done|].
  apply elem_of_app. right. by left.
Qed.

Lemma latency_test_keeps p now rnd :
  _status (data (latency_test p now rnd).1) = _status (data p) ∧
  m_LastRecvMessage (data (latency_test p now rnd).1) = m_LastRecvMessage (data p) ∧
  _role (data (latency_test p now rnd).1) = _role (data p) ∧
  m_CheckForDead (latency_test p now rnd).1 = m_CheckForDead p ∧
  MarkPathFail ∉ (latency_test p now rnd).2.
Proof.
  unfold latency_test. destruct (_ && _); simpl; repeat split; try done.
  - intros Hin. apply list_elem_of_singleton in Hin. discriminate.
  - apply not_elem_of_nil.
Qed.

(** C7, as the code has it: for an established path that is not expired,
    [Tick] enters [ePathTimeout] (and reports the failure to the profiler)
    when the last inbound message is older than [PATH_ALIVE_TIMEOUT], the
    path supports neither the exit nor the service role, and the dead-check
    callback, if there is one, returns [true]; it also does so, whatever
    the roles, when no message was ever received and the last latency test
    is at least 10 s old; a path that supports the exit or the service role
    and has been silent for longer than [PATH_ALIVE_TIMEOUT] is left in
    [ePathEstablished]. *)
Theorem Tick_established_dead_check (p : Path) (now rnd : Z) :
  _status (data p) = ePathEstablished →
  Expired p now = false →
  (m_LastRecvMessage (data p) ≠ 0 ∧ m_LastRecvMessage (data p) < now ∧
   PATH_ALIVE_TIMEOUT < sub64 now (m_LastRecvMessage (data p)) →
   SupportsAnyRoles p (Z.lor ePathRoleExit ePathRoleSVC) = false →
   (∀ check, m_CheckForDead p = Some check →
      check (data (latency_test p now rnd).1)
            (sub64 now (m_LastLatencyTestTime (data p))) = true) →
   _status (data (Tick p now rnd).1) = ePathTimeout ∧
   MarkPathFail ∈ (Tick p now rnd).2)%Z ∧
  (m_LastRecvMessage (data p) = 0 →
   10000 ≤ sub64 now (m_LastLatencyTestTime (data p)) →
   _status (data (Tick p now rnd).1) = ePathTimeout ∧
   MarkPathFail ∈ (Tick p now rnd).2)%Z ∧
  (m_LastRecvMessage (data p) ≠ 0 ∧ m_LastRecvMessage (data p) < now ∧
   PATH_ALIVE_TIMEOUT < sub64 now (m_LastRecvMessage (data p)) →
   SupportsAnyRoles p (Z.lor ePathRoleExit ePathRoleSVC) = true →
   _status (data (Tick p now rnd).1) = ePathEstablished ∧
   MarkPathFail ∉ (Tick p now rnd).2)%Z.
Proof.
  intros Hst Hexp.
  pose proof (latency_test_keeps p now rnd) as (Ks & Kl & Kr & Kc & Ke).
  assert (HT : Tick p now rnd =
    let '(p1, evs) := latency_test p now rnd in
    let last := m_LastRecvMessage (data p1) in
    let silent := negb (last =? 0)%Z && (last <? now)%Z
                  && (PATH_ALIVE_TIMEOUT <? sub64 now last)%Z in
    if SupportsAnyRoles p1 (Z.lor ePathRoleExit ePathRoleSVC) && silent
    then (p1, evs)
    else if silent then
      match m_CheckForDead p1 with
      | Some check =>
          if check (data p1) (sub64 now (m_LastLatencyTestTime (data p)))
          then fail_and_time_out p1 now evs else (p1, evs)
      | None => fail_and_time_out p1 now evs
      end
    else if (10000 <=? sub64 now (m_LastLatencyTestTime (data p)))%Z
            && (last =? 0)%Z
    then fail_and_time_out p1 now evs
    else (p1, evs)).
  { unfold Tick. rewrite Hexp, Hst. simpl.
    destruct (latency_test p now rnd) as [p1 evs]. simpl in Ks.
    destruct (decide (_status (data p1) = ePathEstablished)); [done|congruence]. }
  rewrite HT. clear HT.
  assert (Hroles : SupportsAnyRoles (latency_test p now rnd).1
                     (Z.lor ePathRoleExit ePathRoleSVC)
                   = SupportsAnyRoles p (Z.lor ePathRoleExit ePathRoleSVC)).
  { unfold SupportsAnyRoles. by rewrite Kr. }
  destruct (latency_test p now rnd) as [p1 evs]. simpl in *.
  rewrite Kl, Hroles, Kc.
  split; [|split].
  - intros (Hne & Hlt & Hto) Hrole Hcheck. rewrite Hrole. cbn [andb].
    assert (negb (m_LastRecvMessage (data p) =? 0)%Z
            && (m_LastRecvMessage (data p) <? now)%Z
            && (PATH_ALIVE_TIMEOUT <? sub64 now (m_LastRecvMessage (data p)))%Z
            = true) as ->.
    { rewrite !andb_true_iff, negb_true_iff. repeat split; lia. }
    destruct (m_CheckForDead p) as [check|].
    + rewrite (Hcheck check eq_refl). apply fail_and_time_out_status.
    + apply fail_and_time_out_status.
  - intros H0 Hdlt. rewrite H0.
    change (0 =? 0)%Z with true. cbn [negb andb]. rewrite andb_false_r.
    assert ((10000 <=? sub64 now (m_LastLatencyTestTime (data p)))%Z = true)
      as -> by lia.
    cbn [andb]. apply fail_and_time_out_status.
  - intros (Hne & Hlt & Hto) Hrole. rewrite Hrole. cbn [andb].
    assert (negb (m_LastRecvMessage (data p) =? 0)%Z
            && (m_LastRecvMessage (data p) <? now)%Z
            && (PATH_ALIVE_TIMEOUT <? sub64 now (m_LastRecvMessage (data p)))%Z
            = true) as ->.
    { rewrite !andb_true_iff, negb_true_iff. repeat split; lia. }
    simpl. split; [congruence|done].
Qed.
End path_proofs.

(** Witness of C7 under the default timeouts: at 100 s a path without the
    exit and service roles that heard its last message at 1 s times out,
    while the same path with the exit role stays established. *)
Lemma Tick_established_dead_check_witness :
  path._status (path.data
    (@path.Tick Fixtures.spec_constants (Fixtures.established 0) 100000 42).1)
    = path.ePathTimeout ∧
  path._status (path.data
    (@path.Tick Fixtures.spec_constants (Fixtures.established 2) 100000 42).1)
    = path.ePathEstablished.
Proof.
  split.
  - destruct (@Tick_established_dead_check Fixtures.spec_constants
                (Fixtures.established 0) 100000 42 eq_refl eq_refl)
      as (Hdead & _ & _).
    apply Hdead.
    + repeat split; vm_compute; congruence.
    + reflexivity.
    + intros check Hc. discriminate Hc.
  - destruct (@Tick_established_dead_check Fixtures.spec_constants
                (Fixtures.established 2) 100000 42 eq_refl eq_refl)
      as (_ & _ & Hexempt).
    apply Hexempt.
    + repeat split; vm_compute; congruence.
    + reflexivity.
Defined.

(** Counterexample to C7 as stated: an established, unexpired path with the
    exit role and no dead-check callback, silent for 99 s, is not moved to
    [ePathTimeout] by [Tick]. *)
Lemma Tick_exit_path_not_timed_out :
  ¬ (∀ (p : path.Path) (now rnd : Z),
       path._status (path.data p) = path.ePathEstablished →
       (path.m_LastRecvMessage (path.data p) ≠ 0 ∧
        path.m_LastRecvMessage (path.data p) < now ∧
        @path.PATH_ALIVE_TIMEOUT Fixtures.spec_constants
          < sub64 now (path.m_LastRecvMessage (path.data p)))%Z →
       path.m_CheckForDead p = None →
       path._status (path.data
         (@path.Tick Fixtures.spec_constants p now rnd).1) = path.ePathTimeout).
Proof.
  intros Hclaim.
  specialize (Hclaim (Fixtures.established 2) 100000%Z 42%Z eq_refl).
  assert (Hs : path._status (path.data
    (@path.Tick Fixtures.spec_constants (Fixtures.established 2) 100000 42).1)
    = path.ePathTimeout).
  { apply Hclaim; [|reflexivity]. repeat split; vm_compute; congruence. }
  vm_compute in Hs. discriminate Hs.
Qed.

(** An established path past its expiry is not looked at by [Tick] at all:
    silent for 699 s and without the exit or service role, it stays
    [ePathEstablished]. *)
Example Tick_expired_path_untouched :
  @path.Tick Fixtures.spec_constants (Fixtures.established 0) 700000 42
    = (Fixtures.established 0, []).
Proof. reflexivity. Qed.

(** ** PathContext *)

Section pathcontext_proofs.
Import path.

Lemma find_app_r {A} (f : A → bool) (l l' : list A) :
  List.find f (l ++ l') =
  match List.find f l with Some x => Some x | None => List.find f l' end.
Proof. induction l as [|a l IH]; simpl; [done|]. by destruct (f a). Qed.

Lemma equal_range_app {V} (k : N) (m m' : list (N * V)) :
  equal_range k (m ++ m') = equal_range k m ++ equal_range k m'.
Proof. unfold equal_range. by rewrite filter_app, fmap_app. Qed.

Lemma equal_range_elem {V} (k : N) (m : list (N * V)) (v : V) :
  v ∈ equal_range k m ↔ (k, v) ∈ m.
Proof.
  unfold equal_range. rewrite list_elem_of_fmap. split.
  - intros ([k' v'] & -> & Hin). apply list_elem_of_filter in Hin as [Hk Hin].
    simpl in Hk. by subst.
  - intros Hin. exists (k, v). split; [done|].
    apply list_elem_of_filter. by split.
Qed.


Lemma PutTransitHop_elem (ctx : PathContext) (h : TransitHop) k h' :
  (k, h') ∈ m_TransitPaths (PutTransitHop ctx h) ↔
  (k, h') ∈ m_TransitPaths ctx ∨
  (h' = h ∧ (k = txID (info h) ∨ k = rxID (info h))).
Proof.
  unfold PutTransitHop, MapPut. simpl.
  rewrite !elem_of_app, !list_elem_of_singleton. split.
  - intros [[Hin|[= -> ->]]|[= -> ->]]; auto.
  - intros [Hin|[-> [->| ->]]]; auto.
Qed.

End pathcontext_proofs.



(** ** DHT *)

Section dht_proofs.
Import dht.
Context `{!ContextOps}.

(** C2, as the code has it: a direct [FindRouterMessage] received while
    [allowTransit] is unset, or whose [(From, txid)] owns a pending lookup,
    is refused: [HandleMessage] returns [false], the replies are untouched
    and nothing is forwarded.  The path-relayed variant consults neither
    [allowTransit] nor the pending lookups: its outcome is the same
    whatever they are. *)
Theorem FindRouter_transit_and_replay
    (m : FindRouterMessage) (rm : RelayedFindRouterMessage)
    (ctx : Context) (rs : list IMessage) :
  (allowTransit ctx = false →
   FindRouterMessage_HandleMessage m ctx rs
     = {| ret := false; replies := rs; calls := [] |}) ∧
  ((From m, txid m) ∈ pendingRouterLookups ctx →
   FindRouterMessage_HandleMessage m ctx rs
     = {| ret := false; replies := rs; calls := [] |}) ∧
  (∀ a pend,
     RelayedFindRouterMessage_HandleMessage rm (with_transit a pend ctx) rs
     = RelayedFindRouterMessage_HandleMessage rm ctx rs).
Proof.
  split; [|split].
  - intros Ha. unfold FindRouterMessage_HandleMessage. by rewrite Ha.
  - intros Hp. unfold FindRouterMessage_HandleMessage, HasPendingLookupFrom.
    rewrite bool_decide_eq_true_2 by done. by destruct (negb _).
  - done.
Qed.
End dht_proofs.

(** Counterexample to C2 as stated: with [allowTransit] unset, a path-relayed
    lookup for a router that is in the node database returns [true] and
    queues a reply. *)
Lemma Relayed_FindRouter_ignores_allowTransit :
  ¬ (∀ (rm : dht.RelayedFindRouterMessage) (ctx : dht.Context)
       (rs : list dht.IMessage),
       dht.allowTransit ctx = false →
       @dht.RelayedFindRouterMessage_HandleMessage Fixtures.quiet_ops rm ctx rs
         = {| dht.ret := false; dht.replies := rs; dht.calls := [] |}).
Proof.
  intros Hclaim.
  specialize (Hclaim {| dht.base := Fixtures.find_rcA 8 77; dht.pathID := 7%N |}
                (Fixtures.dht_ctx false) [] eq_refl).
  vm_compute in Hclaim. discriminate Hclaim.
Qed.

(** Witness of C2: on a client ([allowTransit] unset) a direct lookup is
    refused, and on a relay a lookup from the owner [(8, 77)] of a pending
    lookup is refused as a replay. *)
Lemma FindRouter_transit_and_replay_witness :
  @dht.FindRouterMessage_HandleMessage Fixtures.quiet_ops
     (Fixtures.find_rcA 9 5) (Fixtures.dht_ctx false) []
     = {| dht.ret := false; dht.replies := []; dht.calls := [] |} ∧
  @dht.FindRouterMessage_HandleMessage Fixtures.quiet_ops
     (Fixtures.find_rcA 8 77) (Fixtures.dht_ctx true) []
     = {| dht.ret := false; dht.replies := []; dht.calls := [] |}.
Proof.
  split.
  - destruct (@FindRouter_transit_and_replay Fixtures.quiet_ops
                (Fixtures.find_rcA 9 5)
                {| dht.base := Fixtures.find_rcA 9 5; dht.pathID := 7%N |}
                (Fixtures.dht_ctx false) []) as (Hoff & _ & _).
    apply Hoff. reflexivity.
  - destruct (@FindRouter_transit_and_replay Fixtures.quiet_ops
                (Fixtures.find_rcA 8 77)
                {| dht.base := Fixtures.find_rcA 8 77; dht.pathID := 7%N |}
                (Fixtures.dht_ctx true) []) as (_ & Hdup & _).
    apply Hdup. simpl. left.
Defined.

(** ** Router *)

Section router_proofs.
Import router.
Context `{!Crypto, !Encoder, !FileSystem, !LinkMessages, !Profiling}.

Lemma no_session_no_link (r : Router) (remote : RouterID) :
  (∀ l, l ∈ inboundLinks r → HasSessionTo l remote = false) →
  (∀ l, outboundLink r = Some l → HasSessionTo l remote = false) →
  link_with_session r remote = None.
Proof.
  intros Hin Hout. unfold link_with_session.
  destruct (List.find _ (inboundLinks r)) as [l|] eqn:Hf.
  - apply find_some in Hf as [Hl Hs].
    rewrite Hin in Hs; [done|]. by apply list_elem_of_In.
  - destruct (outboundLink r) as [l|]; [|done]. by rewrite (Hout l).
Qed.

Lemma try_connect_queue (r : Router) (remote : RouterContact) (n : Z) :
  outboundMessageQueue (llarp_router_try_connect r remote n).1
    = outboundMessageQueue r ∧
  ∃ evs, events (llarp_router_try_connect r remote n).1 = events r ++ evs ∧
         ∀ m, LogWarn m ∉ evs.
Proof.
  unfold llarp_router_try_connect.
  destruct (HasPendingConnectJob r (pubkey remote)); simpl.
  - split; [done|]. exists []. split; [by rewrite app_nil_r|].
    intros m. apply not_elem_of_nil.
  - split; [done|]. eexists. split; [done|].
    intros m Hm. apply list_elem_of_singleton in Hm. discriminate.
Qed.

(** What the queueing branch of [SendToOrQueue] does to the queues and the
    log. *)
Lemma SendToOrQueue_no_link (r : Router) (remote : RouterID)
    (msg : ILinkMessage) :
  link_with_session r remote = None →
  match ILinkMessage_BEncode msg with
  | None =>
      (SendToOrQueue r remote msg).2 = false ∧
      outboundMessageQueue (SendToOrQueue r remote msg).1
        = <[remote := MessageQueue_of r remote]> (outboundMessageQueue r) ∧
      events (SendToOrQueue r remote msg).1 = events r
  | Some buf =>
      (SendToOrQueue r remote msg).2 = true ∧
      if (length (MessageQueue_of r remote) <? MaxPendingSendQueueSize)%nat
      then
        outboundMessageQueue (SendToOrQueue r remote msg).1
          = <[remote := MessageQueue_of r remote ++ [buf]]>
              (outboundMessageQueue r) ∧
        ∃ evs, events (SendToOrQueue r remote msg).1 = events r ++ evs ∧
               ∀ m, LogWarn m ∉ evs
      else
        outboundMessageQueue (SendToOrQueue r remote msg).1
          = <[remote := MessageQueue_of r remote]> (outboundMessageQueue r) ∧
        ∃ m evs, events (SendToOrQueue r remote msg).1
                 = events r ++ LogWarn m :: evs
  end.
Proof.
  intros Hno. unfold SendToOrQueue. rewrite Hno.
  set (r1 := match outboundMessageQueue r !! remote with
             | None => set_queue (<[remote:=[]]> (outboundMessageQueue r)) r
             | Some _ => r
             end).
  assert (Hq1 : outboundMessageQueue r1
                = <[remote := MessageQueue_of r remote]> (outboundMessageQueue r)).
  { unfold r1, MessageQueue_of.
    destruct (outboundMessageQueue r !! remote) as [q|] eqn:E; simpl; [|done].
    by rewrite insert_id. }
  assert (Hq1' : MessageQueue_of r1 remote = MessageQueue_of r remote).
  { unfold MessageQueue_of at 1. by rewrite Hq1, lookup_insert_eq. }
  assert (He1 : events r1 = events r).
  { unfold r1. by destruct (outboundMessageQueue r !! remote). }
  assert (Hn1 : nodedb r1 = nodedb r).
  { unfold r1. by destruct (outboundMessageQueue r !! remote). }
  destruct (ILinkMessage_BEncode msg) as [buf|]; [|done].
  rewrite Hq1'.
  destruct (length (MessageQueue_of r remote) <? MaxPendingSendQueueSize)%nat.
  - cbv zeta.
    match goal with |- context [NodeDB.Get ?d remote] =>
      destruct (NodeDB.Get d remote) as [remoteRC|] end; simpl.
    + split; [done|].
      match goal with |- context [llarp_router_try_connect ?x ?y ?z] =>
        destruct (try_connect_queue x y z) as (-> & evs & -> & Hev) end.
      simpl. rewrite Hq1, insert_insert_eq, He1. split; [done|]. by exists evs.
    + rewrite Hq1, insert_insert_eq, He1. split; [done|]. split; [done|].
      eexists. split; [done|].
      intros m Hm. apply list_elem_of_singleton in Hm. discriminate.
  - cbv zeta.
    match goal with |- context [NodeDB.Get ?d remote] =>
      destruct (NodeDB.Get d remote) as [remoteRC|] end; simpl.
    + split; [done|].
      match goal with |- context [llarp_router_try_connect ?x ?y ?z] =>
        destruct (try_connect_queue x y z) as (-> & evs & -> & Hev) end.
      simpl. rewrite Hq1, He1. split; [done|].
      eexists _, evs. by rewrite <- app_assoc.
    + rewrite Hq1, He1. split; [done|]. split; [done|].
      eexists _, _. by rewrite <- app_assoc.
Qed.

(** C3: for a peer without a link session, [SendToOrQueue] keeps every
    per-peer queue within 8 messages and touches no other peer's queue.
    When the message encodes, it returns [true] and: below 8 queued
    messages, exactly the encoded message is appended at the back (and no
    warning is logged); at 8 messages the queue is left as it is and a
    warning is logged.  When the message does not encode, it returns
    [false] and the queued messages are as before. *)
Theorem SendToOrQueue_queue_cap (r : Router) (remote : RouterID)
    (msg : ILinkMessage) :
  (∀ l, l ∈ inboundLinks r → HasSessionTo l remote = false) →
  (∀ l, outboundLink r = Some l → HasSessionTo l remote = false) →
  queues_bounded r →
  queues_bounded (SendToOrQueue r remote msg).1 ∧
  (∀ k, k ≠ remote →
     outboundMessageQueue (SendToOrQueue r remote msg).1 !! k
     = outboundMessageQueue r !! k) ∧
  match ILinkMessage_BEncode msg with
  | None =>
      (SendToOrQueue r remote msg).2 = false ∧
      MessageQueue_of (SendToOrQueue r remote msg).1 remote
        = MessageQueue_of r remote
  | Some buf =>
      (SendToOrQueue r remote msg).2 = true ∧
      (length (MessageQueue_of r remote) < 8 →
         MessageQueue_of (SendToOrQueue r remote msg).1 remote
           = MessageQueue_of r remote ++ [buf] ∧
         ∃ evs, events (SendToOrQueue r remote msg).1 = events r ++ evs ∧
                ∀ m, LogWarn m ∉ evs)%nat ∧
      (length (MessageQueue_of r remote) = 8 →
         MessageQueue_of (SendToOrQueue r remote msg).1 remote
           = MessageQueue_of r remote ∧
         length (MessageQueue_of (SendToOrQueue r remote msg).1 remote) = 8 ∧
         ∃ m evs, events (SendToOrQueue r remote msg).1
                  = events r ++ LogWarn m :: evs)%nat
  end.
Proof.
  intros Hin Hout Hb.
  pose proof (SendToOrQueue_no_link r remote msg
                (no_session_no_link r remote Hin Hout)) as Hs.
  assert (Hself : (length (MessageQueue_of r remote)
                   ≤ MaxPendingSendQueueSize)%nat).
  { unfold MessageQueue_of.
    destruct (outboundMessageQueue r !! remote) as [q|] eqn:E; simpl.
    - by apply (Hb remote).
    - unfold MaxPendingSendQueueSize. lia. }
  assert (Hkeep : ∀ q',
    (length q' ≤ MaxPendingSendQueueSize)%nat →
    outboundMessageQueue (SendToOrQueue r remote msg).1
      = <[remote := q']> (outboundMessageQueue r) →
    queues_bounded (SendToOrQueue r remote msg).1 ∧
    (∀ k, k ≠ remote →
       outboundMessageQueue (SendToOrQueue r remote msg).1 !! k
       = outboundMessageQueue r !! k) ∧
    MessageQueue_of (SendToOrQueue r remote msg).1 remote = q').
  { intros q' Hlen Hq. split; [|split].
    - intros k q. rewrite Hq. destruct (decide (remote = k)) as [->|Hne].
      + rewrite lookup_insert_eq. by intros [= <-].
      + rewrite lookup_insert_ne by done. apply Hb.
    - intros k Hk. rewrite Hq. by rewrite lookup_insert_ne.
    - unfold MessageQueue_of at 1. by rewrite Hq, lookup_insert_eq. }
  destruct (ILinkMessage_BEncode msg) as [buf|].
  - destruct Hs as [Hret Hs]. unfold MaxPendingSendQueueSize in *.
    destruct (Nat.ltb_spec (length (MessageQueue_of r remote)) 8) as [Hlt|Hge].
    + destruct Hs as (Hq & evs & Hev & Hw).
      destruct (Hkeep (MessageQueue_of r remote ++ [buf])) as (Hb' & Ho & Hm);
        [rewrite length_app; simpl; lia|done|].
      split; [done|]. split; [done|]. split; [done|]. split.
      * intros _. split; [done|]. by exists evs.
      * lia.
    + destruct Hs as (Hq & m & evs & Hev).
      destruct (Hkeep (MessageQueue_of r remote)) as (Hb' & Ho & Hm);
        [done|done|].
      split; [done|]. split; [done|]. split; [done|]. split.
      * lia.
      * intros H8. rewrite Hm. split; [done|]. split; [done|].
        by exists m, evs.
  - destruct Hs as (Hret & Hq & _).
    destruct (Hkeep (MessageQueue_of r remote)) as (Hb' & Ho & Hm);
      [done|done|].
    done.
Qed.

(** *** Session renegotiation *)

Lemma CheckRenegotiateValid_identity_mismatch (r : Router)
    (newrc oldrc : RouterContact) :
  pubkey newrc ≠ pubkey oldrc →
  CheckRenegotiateValid r newrc oldrc = (r, false).
Proof.
  intros Hne. unfold CheckRenegotiateValid.
  by destruct (decide (pubkey newrc ≠ pubkey oldrc)).
Qed.

(** C8 (evaluated where the code departs from it): an RC with the identity
    of the old one is adopted although its signature does not verify:
    [CheckRenegotiateValid] returns [true], hands the RC to the node
    database, refreshes the DHT node if there is one, and makes it the
    valid router of that identity. *)
Theorem CheckRenegotiateValid_adopts_unverified (r : Router)
    (newrc oldrc : RouterContact) :
  Verify newrc = false →
  pubkey newrc = pubkey oldrc →
  (CheckRenegotiateValid r newrc oldrc).2 = true ∧
  validRouters (CheckRenegotiateValid r newrc oldrc).1 !! pubkey newrc
    = Some newrc ∧
  nodedb_InsertAsync newrc ∈ events (CheckRenegotiateValid r newrc oldrc).1 ∧
  dht_nodes (CheckRenegotiateValid r newrc oldrc).1 !! pubkey newrc
    = (λ _, newrc) <$> dht_nodes r !! pubkey newrc.
Proof.
  intros _ Heq. unfold CheckRenegotiateValid.
  destruct (decide (pubkey newrc ≠ pubkey oldrc)); [done|]. simpl.
  split; [done|].
  destruct (dht_nodes r !! pubkey newrc) eqn:Ed; simpl;
    destruct (validRouters r !! pubkey newrc) eqn:Ev; simpl;
    rewrite ?lookup_insert_eq;
    (split; [done|]); (split; [|done]);
    apply elem_of_app; right; by left.
Qed.

(** *** Pending establish jobs *)

Lemma HasPendingConnectJob_is_Some (r : Router) (pk : RouterID) :
  HasPendingConnectJob r pk = true ↔ is_Some (pendingEstablishJobs r !! pk).
Proof. unfold HasPendingConnectJob. apply bool_decide_eq_true. Qed.

Lemma HasPendingConnectJob_None (r : Router) (pk : RouterID) :
  HasPendingConnectJob r pk = false ↔ pendingEstablishJobs r !! pk = None.
Proof.
  unfold HasPendingConnectJob. rewrite bool_decide_eq_false.
  by rewrite eq_None_not_Some.
Qed.

Lemma try_connect_jobs (r : Router) (remote : RouterContact) (n : Z) :
  pendingEstablishJobs (llarp_router_try_connect r remote n).1 =
  match pendingEstablishJobs r !! pubkey remote with
  | Some _ => pendingEstablishJobs r
  | None => <[pubkey remote := {| rc := remote; link := outboundLink r;
                                  triesLeft := n |}]> (pendingEstablishJobs r)
  end.
Proof.
  unfold llarp_router_try_connect, HasPendingConnectJob.
  destruct (pendingEstablishJobs r !! pubkey remote) as [j|] eqn:E.
  - by rewrite bool_decide_eq_true_2.
  - rewrite bool_decide_eq_false_2; [done|]. by intros [? ?].
Qed.

Lemma FlushOutboundFor_jobs (r : Router) remote chosen :
  pendingEstablishJobs (FlushOutboundFor r remote chosen)
    = delete remote (pendingEstablishJobs r).
Proof.
  unfold FlushOutboundFor.
  destruct (outboundMessageQueue r !! remote); [|done].
  by destruct chosen.
Qed.

Lemma SendToOrQueue_jobs (r : Router) remote msg :
  pendingEstablishJobs (SendToOrQueue r remote msg).1 = pendingEstablishJobs r ∨
  ∃ j, pendingEstablishJobs r !! pubkey (rc j) = None ∧
       pendingEstablishJobs (SendToOrQueue r remote msg).1
       = <[pubkey (rc j) := j]> (pendingEstablishJobs r).
Proof.
  unfold SendToOrQueue.
  destruct (link_with_session r remote); [by left|].
  destruct (ILinkMessage_BEncode msg) as [buf|];
    [|left; by destruct (outboundMessageQueue r !! remote)].
  cbv zeta.
  match goal with |- context [NodeDB.Get (nodedb ?x) remote] =>
    set (r2 := x) end.
  assert (Hj2 : pendingEstablishJobs r2 = pendingEstablishJobs r).
  { unfold r2. destruct (_ <? _)%nat; simpl;
      by destruct (outboundMessageQueue r !! remote). }
  destruct (NodeDB.Get (nodedb r2) remote) as [remoteRC|].
  - cbn [fst]. rewrite try_connect_jobs, Hj2.
    destruct (pendingEstablishJobs r !! pubkey remoteRC) eqn:E; [by left|].
    right. by eexists {| rc := remoteRC |}.
  - left. cbn [fst]. by rewrite <- Hj2.
Qed.

(** One handler keeps the job of [pk] unless it flushes for [pk] or gives
    up on it. *)
Lemma exec_keeps_job (r : Router) (op : Op) (pk : RouterID) :
  jobs_keyed r →
  is_Some (pendingEstablishJobs r !! pk) →
  ¬ flushes op pk → ¬ gives_up op r pk →
  is_Some (pendingEstablishJobs (exec r op) !! pk).
Proof.
  intros Hk Hp Hf Hg. destruct op; simpl in *.
  - rewrite try_connect_jobs.
    destruct (pendingEstablishJobs r !! pubkey remote) eqn:E; [done|].
    destruct (decide (pubkey remote = pk)) as [->|Hne].
    + by rewrite lookup_insert_eq.
    + by rewrite lookup_insert_ne.
  - unfold on_try_connecting.
    destruct (pendingEstablishJobs r !! remote) as [j|] eqn:E; [|done].
    simpl. destruct (decide (remote = pk)) as [->|Hne].
    + by rewrite lookup_insert_eq.
    + by rewrite lookup_insert_ne.
  - unfold OnConnectTimeout.
    destruct (pendingEstablishJobs r !! remote) as [j|] eqn:E; [|done].
    unfold AttemptTimedout. destruct (ShouldRetry j) eqn:Hr.
    + simpl. destruct (decide (remote = pk)) as [->|Hne].
      * by rewrite lookup_insert_eq.
      * by rewrite lookup_insert_ne.
    + rewrite (Hk remote j E).
      assert (remote ≠ pk) as Hne.
      { intros ->. apply Hg. split; [done|]. by exists j. }
      destruct (negb _); [destruct (IsBad _ _)|]; simpl;
        by rewrite lookup_delete_ne.
  - rewrite FlushOutboundFor_jobs. by rewrite lookup_delete_ne.
  - done.
  - destruct (SendToOrQueue_jobs r remote msg) as [->|(j & _ & ->)]; [done|].
    destruct (decide (pubkey (rc j) = pk)) as [->|Hne].
    + by rewrite lookup_insert_eq.
    + by rewrite lookup_insert_ne.
  - unfold on_verify_client_rc. simpl.
    rewrite FlushOutboundFor_jobs. simpl. by rewrite !lookup_delete_ne.
  - unfold on_verify_server_rc. destruct valid; simpl.
    + destruct establish_job as [j|]; simpl.
      * unfold TryConnectJob_Success. rewrite FlushOutboundFor_jobs. simpl.
        by rewrite lookup_delete_ne.
      * rewrite FlushOutboundFor_jobs. simpl. by rewrite lookup_delete_ne.
    + by destruct establish_job.
  - unfold CheckRenegotiateValid.
    destruct (decide (pubkey newrc ≠ pubkey oldrc)); [done|]. simpl.
    destruct (dht_nodes r !! pubkey newrc); simpl;
      by destruct (validRouters r !! pubkey newrc).
Qed.

Lemma exec_jobs_keyed (r : Router) (op : Op) :
  jobs_keyed r → jobs_keyed (exec r op).
Proof.
  intros Hk k j. destruct op; simpl.
  - rewrite try_connect_jobs.
    destruct (pendingEstablishJobs r !! pubkey remote) eqn:E; [apply Hk|].
    destruct (decide (pubkey remote = k)) as [<-|Hne].
    + rewrite lookup_insert_eq. by intros [= <-].
    + rewrite lookup_insert_ne by done. apply Hk.
  - unfold on_try_connecting.
    destruct (pendingEstablishJobs r !! remote) as [j0|] eqn:E; [|apply Hk].
    simpl. destruct (decide (remote = k)) as [<-|Hne].
    + rewrite lookup_insert_eq. intros [= <-]. simpl. by apply Hk.
    + rewrite lookup_insert_ne by done. apply Hk.
  - unfold OnConnectTimeout.
    destruct (pendingEstablishJobs r !! remote) as [j0|] eqn:E; [|apply Hk].
    unfold AttemptTimedout. destruct (ShouldRetry j0).
    + simpl. destruct (decide (remote = k)) as [<-|Hne].
      * rewrite lookup_insert_eq. intros [= <-]. simpl. by apply Hk.
      * rewrite lookup_insert_ne by done. apply Hk.
    + destruct (negb _); [destruct (IsBad _ _)|]; simpl;
        intros Hl; apply lookup_delete_Some in Hl as [_ Hl]; by apply Hk.
  - rewrite FlushOutboundFor_jobs.
    intros Hl. apply lookup_delete_Some in Hl as [_ Hl]. by apply Hk.
  - apply Hk.
  - destruct (SendToOrQueue_jobs r remote msg) as [->|(j0 & _ & ->)];
      [apply Hk|].
    destruct (decide (pubkey (rc j0) = k)) as [<-|Hne].
    + rewrite lookup_insert_eq. by intros [= <-].
    + rewrite lookup_insert_ne by done. apply Hk.
  - unfold on_verify_client_rc. simpl. rewrite FlushOutboundFor_jobs. simpl.
    intros Hl. apply lookup_delete_Some in Hl as [_ Hl].
    apply lookup_delete_Some in Hl as [_ Hl]. by apply Hk.
  - unfold on_verify_server_rc. destruct valid; simpl.
    + destruct establish_job as [j0|]; simpl.
      * unfold TryConnectJob_Success. rewrite FlushOutboundFor_jobs. simpl.
        intros Hl. apply lookup_delete_Some in Hl as [_ Hl]. by apply Hk.
      * rewrite FlushOutboundFor_jobs. simpl.
        intros Hl. apply lookup_delete_Some in Hl as [_ Hl]. by apply Hk.
    + destruct establish_job; apply Hk.
  - unfold CheckRenegotiateValid.
    destruct (decide (pubkey newrc ≠ pubkey oldrc)); [apply Hk|]. simpl.
    destruct (dht_nodes r !! pubkey newrc); simpl;
      destruct (validRouters r !! pubkey newrc); apply Hk.
Qed.

Lemma keeps_job (ops : list Op) (r : Router) (pk : RouterID) :
  jobs_keyed r →
  is_Some (pendingEstablishJobs r !! pk) →
  keeps pk ops r →
  is_Some (pendingEstablishJobs (foldl exec r ops) !! pk).
Proof.
  revert r. induction ops as [|op ops IH]; intros r Hk Hp Hops; [done|].
  destruct Hops as (Hf & Hg & Hops). simpl. apply IH; [|by apply exec_keeps_job|done].
  by apply exec_jobs_keyed.
Qed.

(** C9: the jobs are a map keyed by pubkey, so a peer has at most one.
    [llarp_router_try_connect] on a peer with a pending job returns
    [false] and leaves the router as it is; on a peer without one it
    returns [true] and stores the job.  From then on the job stays pending
    through every sequence of handlers in which none calls
    [FlushOutboundFor] for the peer and none is [AttemptTimedout] of its
    job with no try left; [FlushOutboundFor] for the peer, and
    [AttemptTimedout] with no try left, erase it. *)
Theorem pending_connect_job_lifetime (r : Router) (remote : RouterContact)
    (n : Z) (ops : list Op) (chosen : option ILinkLayer) :
  jobs_keyed r →
  (HasPendingConnectJob r (pubkey remote) = true →
     llarp_router_try_connect r remote n = (r, false)) ∧
  (HasPendingConnectJob r (pubkey remote) = false →
     let r1 := (llarp_router_try_connect r remote n).1 in
     (llarp_router_try_connect r remote n).2 = true ∧
     pendingEstablishJobs r1 !! pubkey remote
       = Some {| rc := remote; link := outboundLink r; triesLeft := n |} ∧
     (keeps (pubkey remote) ops r1 →
        HasPendingConnectJob (foldl exec r1 ops) (pubkey remote) = true)) ∧
  HasPendingConnectJob (FlushOutboundFor r (pubkey remote) chosen)
    (pubkey remote) = false ∧
  (∀ j, pendingEstablishJobs r !! pubkey remote = Some j →
        ShouldRetry j = false →
        HasPendingConnectJob (OnConnectTimeout r (pubkey remote))
          (pubkey remote) = false).
Proof.
  intros Hk. split; [|split; [|split]].
  - intros Hp. unfold llarp_router_try_connect. by rewrite Hp.
  - intros Hp. cbv zeta.
    pose proof (try_connect_jobs r remote n) as Hj.
    apply HasPendingConnectJob_None in Hp as Hnone. rewrite Hnone in Hj.
    split; [|split].
    + unfold llarp_router_try_connect. by rewrite Hp.
    + by rewrite Hj, lookup_insert_eq.
    + intros Hops. apply HasPendingConnectJob_is_Some, keeps_job; [|by rewrite Hj, lookup_insert_eq|done].
      by apply (exec_jobs_keyed r (op_try_connect remote n)).
  - apply HasPendingConnectJob_None.
    by rewrite FlushOutboundFor_jobs, lookup_delete_eq.
  - intros j Hj Hr. apply HasPendingConnectJob_None.
    unfold OnConnectTimeout, AttemptTimedout. rewrite Hj, Hr, (Hk _ _ Hj).
    destruct (negb _); [destruct (IsBad _ _)|]; simpl;
      by rewrite lookup_delete_eq.
Qed.
End router_proofs.

(** ** Node database: lookups, removal, exit selection, loading *)

Section nodedb_more_proofs.
Import NodeDB.
Context `{!Crypto, !Encoder, !FileSystem, !ExitInfo, !DirReader}.

Lemma entries_find_None pk (es : list (N * RouterContact)) :
  entries_find pk es = None ↔ pk ∉ es.*1.
Proof.
  induction es as [|[k r] es IH]; simpl.
  - split; [intros _; apply not_elem_of_nil|done].
  - rewrite not_elem_of_cons. destruct (decide (k = pk)) as [->|Hne].
    + split; [done|]. by intros [? _].
    + rewrite IH. split; [by intros ?; split|by intros [_ ?]].
Qed.

Lemma entries_find_insert pk pk' r (es : list (N * RouterContact)) :
  entries_find pk' (entries_insert pk r es) =
  match entries_find pk' es with
  | Some old => Some old
  | None => if decide (pk = pk') then Some r else None
  end.
Proof.
  unfold entries_insert. destruct (entries_find pk es) as [x|] eqn:E.
  - destruct (entries_find pk' es) eqn:E'; [done|].
    destruct (decide (pk = pk')) as [->|]; [congruence|done].
  - rewrite entries_find_app. by destruct (entries_find pk' es).
Qed.

Lemma entries_insert_keys pk r (es : list (N * RouterContact)) :
  NoDup es.*1 → NoDup (entries_insert pk r es).*1.
Proof.
  intros Hnd. unfold entries_insert.
  destruct (entries_find pk es) eqn:E; [done|].
  rewrite fmap_app. apply NoDup_app. split; [done|]. split.
  - intros k Hk Hin. apply list_elem_of_singleton in Hin. simpl in Hin. subst.
    by apply entries_find_None in E.
  - apply NoDup_singleton.
Qed.

Lemma entries_insert_length pk r (es : list (N * RouterContact)) :
  length (entries_insert pk r es) =
  match entries_find pk es with
  | Some _ => length es
  | None => S (length es)
  end.
Proof.
  unfold entries_insert. destruct (entries_find pk es); [done|].
  rewrite length_app. simpl. lia.
Qed.

Lemma entries_erase_keys pk (es : list (N * RouterContact)) k :
  k ∈ (entries_erase pk es).*1 → k ∈ es.*1.
Proof.
  induction es as [|[k' r] es IH]; simpl; [done|].
  destruct (decide (k' = pk)).
  - intros ?. by right.
  - simpl. rewrite !elem_of_cons. intros [->|?]; [by left|right; by apply IH].
Qed.

Lemma entries_erase_find pk pk' (es : list (N * RouterContact)) :
  NoDup es.*1 →
  entries_find pk' (entries_erase pk es) =
  if decide (pk = pk') then None else entries_find pk' es.
Proof.
  induction es as [|[k r] es IH]; simpl; intros Hnd.
  - by destruct (decide (pk = pk')).
  - apply NoDup_cons in Hnd as [Hk Hnd].
    destruct (decide (k = pk)) as [->|Hne].
    + destruct (decide (pk = pk')) as [->|Hne'].
      * by apply entries_find_None.
      * done.
    + simpl. destruct (decide (k = pk')) as [->|Hne'].
      * by destruct (decide (pk = pk')); [congruence|].
      * by apply IH.
Qed.

Lemma entries_erase_NoDup pk (es : list (N * RouterContact)) :
  NoDup es.*1 → NoDup (entries_erase pk es).*1.
Proof.
  induction es as [|[k r] es IH]; simpl; intros Hnd; [done|].
  apply NoDup_cons in Hnd as [Hk Hnd].
  destruct (decide (k = pk)); [done|]. simpl. apply NoDup_cons. split.
  - intros Hin. by apply Hk, (entries_erase_keys pk).
  - by apply IH.
Qed.

Lemma entries_erase_length pk (es : list (N * RouterContact)) :
  is_Some (entries_find pk es) →
  S (length (entries_erase pk es)) = length es.
Proof.
  induction es as [|[k r] es IH]; simpl; [by intros [? ?]|].
  destruct (decide (k = pk)); [done|]. intros Hs. simpl. by rewrite IH.
Qed.

(** X1: [Insert] never replaces or removes an entry: whatever the encoding
    and the file write do, a lookup afterwards finds the RC that was stored
    under that pubkey before, and the inserted RC only where none was. *)
Theorem Insert_keeps_existing_entry (db : llarp_nodedb) (r : RouterContact)
    (pk : PubKey) :
  Get (Insert db r).1 pk =
  match Get db pk with
  | Some old => Some old
  | None => if decide (pubkey r = pk) then Some r else None
  end.
Proof. unfold Get. rewrite Insert_entries. apply entries_find_insert. Qed.

(** X2: on a map with unique keys, [Insert] keeps the keys unique and
    [num_loaded] grows by one exactly when the pubkey was not stored yet. *)
Theorem Insert_num_loaded (db : llarp_nodedb) (r : RouterContact) :
  keys_unique db →
  keys_unique (Insert db r).1 ∧
  num_loaded (Insert db r).1 =
    (if Has db (pubkey r) then num_loaded db else num_loaded db + 1)%Z.
Proof.
  intros Hu. unfold keys_unique, num_loaded, Has.
  rewrite Insert_entries, entries_insert_length. split.
  - by apply entries_insert_keys.
  - destruct (entries_find (pubkey r) (entries db)) eqn:E.
    + by rewrite bool_decide_eq_true_2.
    + rewrite bool_decide_eq_false_2; [lia|]. by intros [? ?].
Qed.

(** X3: [Remove] of a pubkey that is not stored returns [false] and changes
    nothing; [Remove] of a stored pubkey returns [true], after which the
    pubkey is gone, every other lookup is as before, the keys are still
    unique and [num_loaded] is one less. *)
Theorem Remove_erases_entry (db : llarp_nodedb) (pk pk' : PubKey) :
  keys_unique db →
  match Get db pk with
  | None => Remove db pk = (db, false)
  | Some _ =>
      (Remove db pk).2 = true ∧
      Has (Remove db pk).1 pk = false ∧
      (pk' ≠ pk → Get (Remove db pk).1 pk' = Get db pk') ∧
      keys_unique (Remove db pk).1 ∧
      num_loaded (Remove db pk).1 = (num_loaded db - 1)%Z
  end.
Proof.
  intros Hu. unfold Get, Remove, Has, keys_unique, num_loaded in *.
  destruct (entries_find pk (entries db)) as [old|] eqn:E; [|done]. simpl.
  split; [done|]. split; [|split; [|split]].
  - rewrite entries_erase_find by done.
    rewrite decide_True by done. apply bool_decide_eq_false_2. by intros [? ?].
  - intros Hne. rewrite entries_erase_find by done. by rewrite decide_False.
  - by apply entries_erase_NoDup.
  - pose proof (entries_erase_length pk (entries db)) as Hl.
    rewrite E in Hl. specialize (Hl (mk_is_Some _ _ eq_refl)). lia.
Qed.

(** *** [select_random_exit] *)

Lemma find_drop_take_None {A} (f : A → bool) (l : list A) (a b : nat) :
  (a ≤ b)%nat →
  List.find f (drop a l) = None → List.find f (take b l) = None →
  ∀ x, x ∈ l → f x = false.
Proof.
  intros Hab Hd Ht x Hx.
  rewrite <- (take_drop a l) in Hx. apply elem_of_app in Hx as [Hx|Hx].
  - apply (find_none _ _ Ht). apply list_elem_of_In.
    rewrite <- (take_drop a (take b l)). apply elem_of_app. left.
    by rewrite take_take, Nat.min_l.
  - apply (find_none _ _ Hd). by apply list_elem_of_In.
Qed.

(** X4: [select_random_exit] refuses a database of fewer than three
    entries; otherwise, whatever [randint] returns, it succeeds exactly when
    some entry is an exit, a success returns an exit that is stored in the
    database, and a failure leaves [result] untouched. *)
Theorem select_random_exit_finds_exit (db : llarp_nodedb)
    (result : RouterContact) (r : Z) :
  if (length (entries db) <? 3)%nat
  then select_random_exit db result r = (false, result)
  else
    ((select_random_exit db result r).1 = true ↔
       ∃ e, e ∈ entries db ∧ IsExit e.2 = true) ∧
    ((select_random_exit db result r).1 = true →
       IsExit (select_random_exit db result r).2 = true ∧
       ∃ k, (k, (select_random_exit db result r).2) ∈ entries db) ∧
    ((select_random_exit db result r).1 = false →
       (select_random_exit db result r).2 = result).
Proof.
  unfold select_random_exit.
  destruct (Nat.ltb_spec (length (entries db)) 3) as [Hlt|Hge].
  - by destruct (Z.ltb_spec (Z.of_nat (length (entries db))) 3); [|lia].
  - destruct (Z.ltb_spec (Z.of_nat (length (entries db))) 3); [lia|].
    pose proof (Z.mod_pos_bound r (Z.of_nat (length (entries db))) ltac:(lia))
      as Hm.
    set (idx := (r mod Z.of_nat (length (entries db)))%Z) in *.
    set (start := if (idx =? 0)%Z then 0%Z else (idx - 1)%Z).
    assert (Hsi : (Z.to_nat start ≤ Z.to_nat idx)%nat).
    { unfold start. destruct (Z.eqb_spec idx 0); lia. }
    destruct (List.find _ (drop _ _)) as [[k e]|] eqn:Hd.
    + apply find_some in Hd as [Hin He]. simpl in *.
      apply list_elem_of_In, (subseteq_drop _ (entries db)) in Hin.
      rename Hin into Hi.
      split; [|split; [|done]].
      * split; [|done]. intros _. by exists (k, e).
      * intros _. split; [done|]. by exists k.
    + destruct (List.find _ (take _ _)) as [[k e]|] eqn:Ht.
      * apply find_some in Ht as [Hin He]. simpl in *.
        apply list_elem_of_In, (subseteq_take _ (entries db)) in Hin.
        rename Hin into Hi.
        split; [|split; [|done]].
        -- split; [|done]. intros _. by exists (k, e).
        -- intros _. split; [done|]. by exists k.
      * simpl. split; [|split; [done|done]].
        split; [done|]. intros (e & Hin & He).
        rewrite (find_drop_take_None _ _ _ _ Hsi Hd Ht e Hin) in He. done.
Qed.

(** *** Loading the directory *)

Lemma extends_refl (es : list (N * RouterContact)) : extends es es.
Proof. by intros pk x. Qed.

Lemma extends_trans (es1 es2 es3 : list (N * RouterContact)) :
  extends es1 es2 → extends es2 es3 → extends es1 es3.
Proof. intros H12 H23 pk x Hx. by apply H23, H12. Qed.

Lemma extends_is_Some (es es' : list (N * RouterContact)) pk :
  extends es es' → is_Some (entries_find pk es) →
  is_Some (entries_find pk es').
Proof. intros He [x Hx]. exists x. by apply He. Qed.

Lemma extends_insert pk r (es : list (N * RouterContact)) :
  extends es (entries_insert pk r es).
Proof. intros k x Hx. by rewrite entries_find_insert, Hx. Qed.

Lemma loadfile_spec (db : llarp_nodedb) (f : string) :
  disk (loadfile db f).1 = disk db ∧
  nodePath (loadfile db f).1 = nodePath db ∧
  extends (entries db) (entries (loadfile db f).1) ∧
  (Forall (λ e, Verify e.2 = true) (entries db) →
   Forall (λ e, Verify e.2 = true) (entries (loadfile db f).1)) ∧
  (∀ r, loadable (disk db) f r →
        is_Some (entries_find (pubkey r) (entries (loadfile db f).1))) ∧
  ((∀ r, loadable (disk db) f r →
         is_Some (entries_find (pubkey r) (entries db))) →
   entries (loadfile db f).1 = entries db).
Proof.
  unfold loadfile, loadable.
  destruct (decide (extension f ≠ RC_FILE_EXT)) as [Hext|Hext].
  { simpl. repeat split; try done; [apply extends_refl|].
    by intros r (? & _). }
  destruct (RouterContact_Read (disk db) f) as [r0|] eqn:Hr.
  2:{ simpl. repeat split; try done; [apply extends_refl|].
      by intros r (_ & ? & _). }
  destruct (Verify r0) eqn:Hv; simpl.
  2:{ repeat split; try done; [apply extends_refl|].
      intros r (_ & [= <-] & ?). congruence. }
  repeat split; try done.
  - apply extends_insert.
  - intros Hall. by apply entries_insert_Forall.
  - intros r (_ & [= <-] & _). apply entries_insert_find.
  - intros Hsat. unfold entries_insert.
    destruct (Hsat r0) as [x ->]; [|done].
    split; [|done]. by destruct (decide (extension f = RC_FILE_EXT)) as [|[]];
      [|apply dec_stable].
Qed.

(** What a pass over a list of files keeps and reaches; [step] is the
    visitor of [loadSubdir]. *)
Lemma loadSubdir_fold (L : list string) (acc : llarp_nodedb * Z) :
  let res :=
    foldl loadSubdir_visit acc L in
  disk res.1 = disk acc.1 ∧
  nodePath res.1 = nodePath acc.1 ∧
  extends (entries acc.1) (entries res.1) ∧
  (acc.2 ≤ res.2)%Z ∧
  (Forall (λ e, Verify e.2 = true) (entries acc.1) →
   Forall (λ e, Verify e.2 = true) (entries res.1)) ∧
  saturated (disk acc.1) (entries res.1) L ∧
  (saturated (disk acc.1) (entries acc.1) L → entries res.1 = entries acc.1).
Proof.
  revert acc. induction L as [|f L IH]; intros acc; simpl.
  { split_and!; [done|done|apply extends_refl|lia|done| |done].
    intros f r Hf. by apply elem_of_nil in Hf. }
  set (acc' := loadSubdir_visit acc f).
  pose proof (loadfile_spec acc.1 f) as (Ld & Lp & Le & Lv & Ll & Ln).
  assert (Hstep :
    disk acc'.1 = disk acc.1 ∧ nodePath acc'.1 = nodePath acc.1 ∧
    extends (entries acc.1) (entries acc'.1) ∧ (acc.2 ≤ acc'.2)%Z ∧
    (Forall (λ e, Verify e.2 = true) (entries acc.1) →
     Forall (λ e, Verify e.2 = true) (entries acc'.1)) ∧
    (is_regular_file (disk acc.1) f = true →
     ∀ r, loadable (disk acc.1) f r →
          is_Some (entries_find (pubkey r) (entries acc'.1))) ∧
    ((is_regular_file (disk acc.1) f = true →
      ∀ r, loadable (disk acc.1) f r →
           is_Some (entries_find (pubkey r) (entries acc.1))) →
     entries acc'.1 = entries acc.1)).
  { unfold acc', loadSubdir_visit.
    destruct (is_regular_file (disk acc.1) f) eqn:Hreg.
    - destruct (loadfile acc.1 f) as [db' ok]. simpl in *.
      split_and!; [done|done|done| |done|by intros _| ].
      + destruct ok; lia.
      + intros Hs. apply Ln. by apply Hs.
    - split_and!; [done|done|apply extends_refl|lia|done|done|done]. }
  destruct Hstep as (Sd & Sp & Se & Sc & Sv & Sl & Sn).
  specialize (IH acc'). simpl in IH.
  destruct IH as (Id & Ip & Ie & Ic & Iv & Is & In).
  rewrite Sd in *. split_and!.
  - by rewrite Id.
  - by rewrite Ip.
  - by eapply extends_trans.
  - lia.
  - auto.
  - intros g r Hg Hreg Hl. apply elem_of_cons in Hg as [->|Hg].
    + eapply extends_is_Some; [done|]. by apply Sl.
    + by apply (Is g).
  - intros Hsat.
    assert (entries acc'.1 = entries acc.1) as Heq.
    { apply Sn. intros Hreg r Hl. apply (Hsat f); [by left|done|done]. }
    rewrite In; [done|]. rewrite Heq.
    intros g r Hg. apply Hsat. by right.
Qed.

Lemma loadSubdir_spec (db : llarp_nodedb) (dir : string) :
  disk (loadSubdir db dir).1 = disk db ∧
  nodePath (loadSubdir db dir).1 = nodePath db ∧
  extends (entries db) (entries (loadSubdir db dir).1) ∧
  (0 ≤ (loadSubdir db dir).2)%Z ∧
  (Forall (λ e, Verify e.2 = true) (entries db) →
   Forall (λ e, Verify e.2 = true) (entries (loadSubdir db dir).1)) ∧
  saturated (disk db) (entries (loadSubdir db dir).1) (IterDir (disk db) dir) ∧
  (saturated (disk db) (entries db) (IterDir (disk db) dir) →
   entries (loadSubdir db dir).1 = entries db).
Proof. apply (loadSubdir_fold (IterDir (disk db) dir) (db, 0%Z)). Qed.

Lemma saturated_app d (es : list (N * RouterContact)) F G :
  saturated d es (F ++ G) ↔ saturated d es F ∧ saturated d es G.
Proof.
  unfold saturated. split.
  - intros Hs. split; intros f r Hf; apply Hs; apply elem_of_app;
      [by left|by right].
  - intros [HF HG] f r Hf. apply elem_of_app in Hf as [Hf|Hf];
      [by apply HF|by apply HG].
Qed.

Lemma saturated_extends d (es es' : list (N * RouterContact)) F :
  extends es es' → saturated d es F → saturated d es' F.
Proof.
  intros He Hs f r Hf Hreg Hl. eapply extends_is_Some; [done|].
  by apply (Hs f).
Qed.

Lemma Load_fold (path : string) (S : list string) (acc : llarp_nodedb * Z) :
  let res :=
    foldl (Load_subdir path) acc S in
  disk res.1 = disk acc.1 ∧
  nodePath res.1 = nodePath acc.1 ∧
  extends (entries acc.1) (entries res.1) ∧
  (acc.2 ≤ res.2)%Z ∧
  (Forall (λ e, Verify e.2 = true) (entries acc.1) →
   Forall (λ e, Verify e.2 = true) (entries res.1)) ∧
  saturated (disk acc.1) (entries res.1) (skiplist_files (disk acc.1) path S) ∧
  (saturated (disk acc.1) (entries acc.1)
     (skiplist_files (disk acc.1) path S) →
   entries res.1 = entries acc.1).
Proof.
  revert acc. induction S as [|p S IH]; intros acc; simpl.
  { split_and!; [done|done|apply extends_refl|lia|done| |done].
    intros f r Hf. by apply elem_of_nil in Hf. }
  pose proof (loadSubdir_spec acc.1 (path +:+ "/" +:+ p))
    as (Sd & Sp & Se & Sc & Sv & Ss & Sn).
  destruct (loadSubdir acc.1 (path +:+ "/" +:+ p)) as [db' l] eqn:El.
  replace (Load_subdir path acc p)
    with (db', if (0 <? l)%Z then (acc.2 + l)%Z else acc.2)
    by (unfold Load_subdir; cbv zeta; by rewrite El).
  simpl in *.
  specialize (IH (db', if (0 <? l)%Z then (acc.2 + l)%Z else acc.2)).
  simpl in IH. destruct IH as (Id & Ip & Ie & Ic & Iv & Is & In).
  rewrite Sd in *. unfold skiplist_files in *. simpl.
  split_and!.
  - done.
  - by rewrite Ip.
  - by eapply extends_trans.
  - destruct (0 <? l)%Z; lia.
  - auto.
  - apply saturated_app. split; [|done].
    by eapply saturated_extends.
  - intros Hsat. apply saturated_app in Hsat as [Hs1 Hs2].
    specialize (Sn Hs1). rewrite In; [done|]. by rewrite Sn.
Qed.

Lemma Load_exists (db : llarp_nodedb) (path : string) :
  fs_exists (disk db) path = true →
  Load db path = foldl (Load_subdir path) (db, 0%Z) skiplist_subdirs.
Proof. intros Hex. unfold Load. by rewrite Hex. Qed.

Lemma Load_fold_twice (path : string) (S : list string) (db : llarp_nodedb) :
  (0 ≤ (foldl (Load_subdir path) (db, 0%Z) S).2)%Z ∧
  disk (foldl (Load_subdir path) (db, 0%Z) S).1 = disk db ∧
  extends (entries db) (entries (foldl (Load_subdir path) (db, 0%Z) S).1) ∧
  (Forall (λ e, Verify e.2 = true) (entries db) →
   Forall (λ e, Verify e.2 = true)
     (entries (foldl (Load_subdir path) (db, 0%Z) S).1)) ∧
  saturated (disk db) (entries (foldl (Load_subdir path) (db, 0%Z) S).1)
    (skiplist_files (disk db) path S) ∧
  entries (foldl (Load_subdir path)
             ((foldl (Load_subdir path) (db, 0%Z) S).1, 0%Z) S).1
    = entries (foldl (Load_subdir path) (db, 0%Z) S).1.
Proof.
  pose proof (Load_fold path S (db, 0%Z))
    as (Ld & Lp & Le & Lc & Lv & Ls & Ln).
  cbv zeta in Ld, Lp, Le, Lc, Lv, Ls, Ln.
  cbn [fst snd] in Ld, Lp, Le, Lc, Lv, Ls, Ln.
  split_and!; try assumption.
  pose proof (Load_fold path S ((foldl (Load_subdir path) (db, 0%Z) S).1, 0%Z))
    as (_ & _ & _ & _ & _ & _ & Ln2).
  cbv zeta in Ln2. cbn [fst snd] in Ln2. apply Ln2. by rewrite Ld.
Qed.

(** X5: [Load] returns [-1] and changes nothing when the directory does not
    exist.  Otherwise it returns a count that is not negative, leaves the
    disk alone, keeps every entry that was stored, keeps a database whose
    entries all verify in that state, and stores the pubkey of every regular
    [.signed] file below the 16 subdirectories whose RC reads and verifies;
    loading the same directory again changes no entry. *)
Theorem Load_verified_and_idempotent (db : llarp_nodedb) (path : string) :
  if fs_exists (disk db) path then
    (0 ≤ (Load db path).2)%Z ∧
    disk (Load db path).1 = disk db ∧
    extends (entries db) (entries (Load db path).1) ∧
    (Forall (λ e, Verify e.2 = true) (entries db) →
     Forall (λ e, Verify e.2 = true) (entries (Load db path).1)) ∧
    saturated (disk db) (entries (Load db path).1)
      (skiplist_files (disk db) path skiplist_subdirs) ∧
    entries (Load (Load db path).1 path).1 = entries (Load db path).1
  else Load db path = (db, (-1)%Z).
Proof.
  destruct (fs_exists (disk db) path) eqn:Hex;
    [|unfold Load; by rewrite Hex].
  rewrite (Load_exists db path Hex).
  destruct (Load_fold_twice path skiplist_subdirs db)
    as (Lc & Ld & Le & Lv & Ls & Ln).
  rewrite Load_exists by (by rewrite Ld).
  split_and!; assumption.
Qed.

(** Where the entries of a load come from: [origin d F e] says that the
    entry [e] is keyed by its own pubkey and was read, and verified, from a
    regular [.signed] file of [F]. *)
Lemma loadfile_origin (db : llarp_nodedb) (f : string) :
  (NoDup (entries db).*1 → NoDup (entries (loadfile db f).1).*1) ∧
  (∀ e, e ∈ entries (loadfile db f).1 →
        e ∈ entries db ∨ (loadable (disk db) f e.2 ∧ e.1 = pubkey e.2)) ∧
  (length (entries (loadfile db f).1)
     ≤ length (entries db) + (if (loadfile db f).2 then 1 else 0))%nat.
Proof.
  unfold loadfile, loadable.
  destruct (decide (extension f ≠ RC_FILE_EXT)) as [Hext|Hext].
  { simpl. split_and!; [done|by left|lia]. }
  apply dec_stable in Hext.
  destruct (RouterContact_Read (disk db) f) as [r0|] eqn:Hr.
  2:{ simpl. split_and!; [done|by left|lia]. }
  destruct (Verify r0) eqn:Hv; simpl.
  2:{ split_and!; [done|by left|lia]. }
  split_and!.
  - apply entries_insert_keys.
  - intros e. unfold entries_insert.
    destruct (entries_find (pubkey r0) (entries db)); [by left|].
    rewrite elem_of_app, list_elem_of_singleton. intros [He| ->]; [by left|].
    by right.
  - rewrite entries_insert_length.
    destruct (entries_find (pubkey r0) (entries db)); lia.
Qed.

Lemma loadSubdir_origin (L : list string) (acc : llarp_nodedb * Z) :
  let res :=
    foldl loadSubdir_visit acc L in
  (NoDup (entries acc.1).*1 → NoDup (entries res.1).*1) ∧
  (∀ e, e ∈ entries res.1 →
        e ∈ entries acc.1 ∨
        ∃ f, f ∈ L ∧ is_regular_file (disk acc.1) f = true ∧
             loadable (disk acc.1) f e.2 ∧ e.1 = pubkey e.2) ∧
  (Z.of_nat (length (entries res.1)) - res.2
     ≤ Z.of_nat (length (entries acc.1)) - acc.2)%Z.
Proof.
  revert acc. induction L as [|f L IH]; intros acc; simpl.
  { split_and!; [done|by left|lia]. }
  set (acc' := loadSubdir_visit acc f).
  pose proof (loadfile_origin acc.1 f) as (Ln & Lo & Lc).
  pose proof (loadfile_spec acc.1 f) as (Ld & _).
  assert (Hstep :
    disk acc'.1 = disk acc.1 ∧
    (NoDup (entries acc.1).*1 → NoDup (entries acc'.1).*1) ∧
    (∀ e, e ∈ entries acc'.1 →
          e ∈ entries acc.1 ∨
          (is_regular_file (disk acc.1) f = true ∧
           loadable (disk acc.1) f e.2 ∧ e.1 = pubkey e.2)) ∧
    (Z.of_nat (length (entries acc'.1)) - acc'.2
       ≤ Z.of_nat (length (entries acc.1)) - acc.2)%Z).
  { unfold acc', loadSubdir_visit.
    destruct (is_regular_file (disk acc.1) f) eqn:Hreg.
    - destruct (loadfile acc.1 f) as [db' ok]. simpl in *.
      split_and!; [done|done| |destruct ok; lia].
      intros e He. destruct (Lo e He) as [?|[? ?]]; [by left|by right].
    - split_and!; [done|done|by left|lia]. }
  destruct Hstep as (Sd & Sn & So & Sc).
  specialize (IH acc'). simpl in IH. destruct IH as (In & Io & Ic).
  rewrite Sd in *. split_and!.
  - auto.
  - intros e He. destruct (Io e He) as [He'|(g & Hg & Hreg & Hl & Hk)].
    + destruct (So e He') as [?|(Hreg & Hl & Hk)]; [by left|].
      right. exists f. split_and!; [by left|done|done|done].
    + right. exists g. split_and!; [by right|done|done|done].
  - lia.
Qed.

Lemma Load_origin (path : string) (S : list string) (acc : llarp_nodedb * Z) :
  let res :=
    foldl (Load_subdir path) acc S in
  (NoDup (entries acc.1).*1 → NoDup (entries res.1).*1) ∧
  (∀ e, e ∈ entries res.1 →
        e ∈ entries acc.1 ∨
        ∃ f, f ∈ skiplist_files (disk acc.1) path S ∧
             is_regular_file (disk acc.1) f = true ∧
             loadable (disk acc.1) f e.2 ∧ e.1 = pubkey e.2) ∧
  (Z.of_nat (length (entries res.1)) - res.2
     ≤ Z.of_nat (length (entries acc.1)) - acc.2)%Z.
Proof.
  revert acc. induction S as [|p S IH]; intros acc; simpl.
  { split_and!; [done|by left|lia]. }
  pose proof (loadSubdir_spec acc.1 (path +:+ "/" +:+ p))
    as (Sd & _ & _ & Sc & _).
  pose proof (loadSubdir_origin (IterDir (disk acc.1) (path +:+ "/" +:+ p))
                (acc.1, 0%Z)) as (Sn & So & Sl).
  fold (loadSubdir acc.1 (path +:+ "/" +:+ p)) in Sn, So, Sl.
  destruct (loadSubdir acc.1 (path +:+ "/" +:+ p)) as [db' l] eqn:El.
  replace (Load_subdir path acc p)
    with (db', if (0 <? l)%Z then (acc.2 + l)%Z else acc.2)
    by (unfold Load_subdir; cbv zeta; by rewrite El).
  simpl in *.
  specialize (IH (db', if (0 <? l)%Z then (acc.2 + l)%Z else acc.2)).
  simpl in IH. destruct IH as (In & Io & Ic).
  rewrite Sd in *. unfold skiplist_files in *. simpl.
  split_and!.
  - auto.
  - intros e He. destruct (Io e He) as [He'|(g & Hg & Hreg & Hl & Hk)].
    + destruct (So e He') as [?|(g & Hg & Hreg & Hl & Hk)]; [by left|].
      right. exists g. split_and!; [|done|done|done].
      apply elem_of_app. by left.
    + right. exists g. split_and!; [|done|done|done].
      apply elem_of_app. by right.
  - destruct (0 <? l)%Z eqn:E; lia.
Qed.

(** X17: [Clear] followed by [load_dir] of an existing directory leaves a
    database that holds only what the directory holds: the node path is the
    directory, the keys are unique, every entry is keyed by the pubkey of its
    RC, which verifies and was read from a regular [.signed] file of one of
    the 16 subdirectories, and the returned count (the files accepted) is at
    least the number of entries.  When the directory does not exist the call
    returns [-1] and does not set the node path. *)
Theorem load_dir_after_Clear (db : llarp_nodedb) (dir : string) :
  if fs_exists (disk db) dir then
    nodePath (load_dir (Clear db) dir).1 = dir ∧
    keys_unique (load_dir (Clear db) dir).1 ∧
    (∀ k r, (k, r) ∈ entries (load_dir (Clear db) dir).1 →
       k = pubkey r ∧ Verify r = true ∧
       ∃ f, f ∈ skiplist_files (disk db) dir skiplist_subdirs ∧
            is_regular_file (disk db) f = true ∧
            extension f = RC_FILE_EXT ∧
            RouterContact_Read (disk db) f = Some r) ∧
    (num_loaded (load_dir (Clear db) dir).1
       ≤ (load_dir (Clear db) dir).2)%Z
  else load_dir (Clear db) dir = (Clear db, (-1)%Z).
Proof.
  destruct (fs_exists (disk db) dir) eqn:Hex.
  2:{ unfold load_dir. change (disk (Clear db)) with (disk db).
      by rewrite Hex. }
  assert (HL : load_dir (Clear db) dir =
    foldl (Load_subdir dir) (set_dir (Clear db) dir, 0%Z) skiplist_subdirs).
  { unfold load_dir. change (disk (Clear db)) with (disk db).
    rewrite Hex. cbn [negb]. unfold Load.
    change (disk (set_dir (Clear db) dir)) with (disk db).
    by rewrite Hex. }
  rewrite HL.
  pose proof (Load_fold dir skiplist_subdirs (set_dir (Clear db) dir, 0%Z))
    as (_ & Lp & _).
  pose proof (Load_origin dir skiplist_subdirs (set_dir (Clear db) dir, 0%Z))
    as (Ln & Lo & Lc).
  cbv zeta in Lp, Ln, Lo, Lc.
  cbn [fst snd set_dir Clear entries disk nodePath] in Lp, Ln, Lo, Lc.
  set (res := foldl (Load_subdir dir) _ skiplist_subdirs) in *.
  split_and!.
  - done.
  - apply Ln. constructor.
  - intros k r Hin. destruct (Lo _ Hin) as [Hin'|(f & Hf & Hreg & Hl & Hk)].
    { by apply elem_of_nil in Hin'. }
    destruct Hl as (Hext & Hread & Hv). cbn [fst snd] in *.
    split_and!; [done|done|]. by exists f.
  - unfold num_loaded. cbn [length] in Lc. lia.
Qed.
End nodedb_more_proofs.

(** ** Router: queue, lookups, policy *)

Section router_more_proofs.
Import router.
Context `{!Crypto, !Encoder, !FileSystem, !LinkMessages, !Profiling, !VerifyAt}.

Lemma FlushOutboundFor_events (r : Router) (remote : RouterID)
    (l : ILinkLayer) :
  events (FlushOutboundFor r remote (Some l))
    = events r ++ map (Link_SendTo (Name l) remote) (MessageQueue_of r remote).
Proof.
  unfold FlushOutboundFor, MessageQueue_of.
  destruct (outboundMessageQueue r !! remote) as [q|]; simpl; [done|].
  by rewrite app_nil_r.
Qed.

Lemma FlushOutboundFor_keeps (r : Router) (remote : RouterID)
    (chosen : option ILinkLayer) :
  validRouters (FlushOutboundFor r remote chosen) = validRouters r ∧
  dht_nodes (FlushOutboundFor r remote chosen) = dht_nodes r ∧
  nodedb (FlushOutboundFor r remote chosen) = nodedb r ∧
  pendingVerifyRC (FlushOutboundFor r remote chosen) = pendingVerifyRC r.
Proof.
  unfold FlushOutboundFor.
  destruct (outboundMessageQueue r !! remote); [|done]. by destruct chosen.
Qed.

(** X6: [FlushOutboundFor] with a link sends the queued buffers of the peer
    on that link, oldest first and each once, and leaves the peer's queue
    empty; without a link it sends nothing and drops the queue.  Either way
    the peer's establish job is erased and no other peer's queue changes. *)
Theorem FlushOutboundFor_sends_in_order (r : Router) (remote k : RouterID)
    (l : ILinkLayer) :
  events (FlushOutboundFor r remote (Some l))
    = events r ++ map (Link_SendTo (Name l) remote) (MessageQueue_of r remote) ∧
  MessageQueue_of (FlushOutboundFor r remote (Some l)) remote = [] ∧
  events (FlushOutboundFor r remote None) = events r ∧
  outboundMessageQueue (FlushOutboundFor r remote None) !! remote = None ∧
  HasPendingConnectJob (FlushOutboundFor r remote (Some l)) remote = false ∧
  HasPendingConnectJob (FlushOutboundFor r remote None) remote = false ∧
  (k ≠ remote →
   outboundMessageQueue (FlushOutboundFor r remote (Some l)) !! k
     = outboundMessageQueue r !! k ∧
   outboundMessageQueue (FlushOutboundFor r remote None) !! k
     = outboundMessageQueue r !! k).
Proof.
  unfold FlushOutboundFor, MessageQueue_of, HasPendingConnectJob,
    DiscardOutboundFor.
  destruct (outboundMessageQueue r !! remote) as [q|] eqn:E; simpl.
  - rewrite !lookup_insert_eq, !lookup_delete_eq. simpl.
    repeat (split; [first [done|apply bool_decide_eq_false_2; by intros [? ?]]|]).
    intros Hne. by rewrite lookup_insert_ne, lookup_delete_ne.
  - rewrite E, !lookup_delete_eq. simpl. rewrite app_nil_r.
    repeat (split; [first [done|apply bool_decide_eq_false_2; by intros [? ?]]|]).
    done.
Qed.

Lemma try_connect_links (r : Router) (remote : RouterContact) (n : Z) :
  inboundLinks (llarp_router_try_connect r remote n).1 = inboundLinks r ∧
  outboundLink (llarp_router_try_connect r remote n).1 = outboundLink r ∧
  nodedb (llarp_router_try_connect r remote n).1 = nodedb r ∧
  validRouters (llarp_router_try_connect r remote n).1 = validRouters r.
Proof.
  unfold llarp_router_try_connect.
  by destruct (HasPendingConnectJob r (pubkey remote)).
Qed.

Lemma SendToOrQueue_links (r : Router) (remote : RouterID) (msg : ILinkMessage) :
  inboundLinks (SendToOrQueue r remote msg).1 = inboundLinks r ∧
  outboundLink (SendToOrQueue r remote msg).1 = outboundLink r.
Proof.
  unfold SendToOrQueue.
  destruct (link_with_session r remote); [done|].
  destruct (ILinkMessage_BEncode msg) as [buf|];
    [|by destruct (outboundMessageQueue r !! remote)].
  cbv zeta.
  match goal with |- context [NodeDB.Get (nodedb ?x) remote] =>
    set (r2 := x) end.
  assert (Hl2 : inboundLinks r2 = inboundLinks r ∧
                outboundLink r2 = outboundLink r).
  { unfold r2. destruct (_ <? _)%nat; simpl;
      by destruct (outboundMessageQueue r !! remote). }
  destruct (NodeDB.Get (nodedb r2) remote) as [remoteRC|]; cbn [fst].
  - destruct (try_connect_links r2 remoteRC 10) as (-> & -> & _). done.
  - done.
Qed.

Lemma SendToOrQueue_queue_step (r : Router) (remote : RouterID)
    (msg : ILinkMessage) :
  link_with_session r remote = None →
  MessageQueue_of (SendToOrQueue r remote msg).1 remote =
  match ILinkMessage_BEncode msg with
  | Some buf =>
      if (length (MessageQueue_of r remote) <? MaxPendingSendQueueSize)%nat
      then MessageQueue_of r remote ++ [buf]
      else MessageQueue_of r remote
  | None => MessageQueue_of r remote
  end.
Proof.
  intros Hno. pose proof (SendToOrQueue_no_link r remote msg Hno) as Hs.
  unfold MessageQueue_of at 1.
  destruct (ILinkMessage_BEncode msg) as [buf|].
  - destruct Hs as [_ Hs].
    destruct (_ <? _)%nat.
    + destruct Hs as [-> _]. by rewrite lookup_insert_eq.
    + destruct Hs as [-> _]. by rewrite lookup_insert_eq.
  - destruct Hs as (_ & -> & _). by rewrite lookup_insert_eq.
Qed.

Lemma queue_fill (q bufs : list buffer) :
  (length q ≤ 8)%nat →
  foldl (λ q' b, if (length q' <? 8)%nat then q' ++ [b] else q') q bufs
  = take 8 (q ++ bufs).
Proof.
  revert q. induction bufs as [|b bufs IH]; intros q Hq; simpl.
  - rewrite app_nil_r. by rewrite take_ge.
  - destruct (Nat.ltb_spec (length q) 8) as [Hlt|Hge].
    + rewrite IH by (rewrite length_app; simpl; lia).
      by rewrite <- app_assoc.
    + rewrite IH by done.
      rewrite !take_app_le by lia. done.
Qed.

Lemma link_with_session_links (r r' : Router) (remote : RouterID) :
  inboundLinks r' = inboundLinks r → outboundLink r' = outboundLink r →
  link_with_session r' remote = link_with_session r remote.
Proof. intros Hi Ho. unfold link_with_session. by rewrite Hi, Ho. Qed.

Lemma send_all_queue (msgs : list ILinkMessage) (r : Router) (remote : RouterID) :
  link_with_session r remote = None →
  link_with_session (send_all r remote msgs) remote = None ∧
  MessageQueue_of (send_all r remote msgs) remote =
  foldl (λ q' b, if (length q' <? 8)%nat then q' ++ [b] else q')
        (MessageQueue_of r remote) (omap ILinkMessage_BEncode msgs).
Proof.
  revert r. induction msgs as [|m msgs IH]; intros r Hno; simpl; [done|].
  destruct (SendToOrQueue_links r remote m) as [Hi Ho].
  destruct (IH (SendToOrQueue r remote m).1) as [IH1 IH2].
  { by rewrite (link_with_session_links r). }
  unfold send_all in *. split; [done|]. rewrite IH2.
  rewrite SendToOrQueue_queue_step by done.
  by destruct (ILinkMessage_BEncode m).
Qed.

(** X7: while a peer has no link session, [SendToOrQueue] of a series of
    messages leaves in the peer's queue the first 8 of what was queued
    before followed by the encodings of the messages that encode, in order;
    a later [FlushOutboundFor] on a link sends exactly these, in that
    order. *)
Theorem send_all_then_flush (r : Router) (remote : RouterID)
    (msgs : list ILinkMessage) (l : ILinkLayer) :
  (∀ l', l' ∈ inboundLinks r → HasSessionTo l' remote = false) →
  (∀ l', outboundLink r = Some l' → HasSessionTo l' remote = false) →
  (length (MessageQueue_of r remote) ≤ 8)%nat →
  MessageQueue_of (send_all r remote msgs) remote
    = take 8 (MessageQueue_of r remote ++ omap ILinkMessage_BEncode msgs) ∧
  events (FlushOutboundFor (send_all r remote msgs) remote (Some l))
    = events (send_all r remote msgs) ++
      map (Link_SendTo (Name l) remote)
        (take 8 (MessageQueue_of r remote ++ omap ILinkMessage_BEncode msgs)).
Proof.
  intros Hin Hout Hlen.
  destruct (send_all_queue msgs r remote (no_session_no_link r remote Hin Hout))
    as [_ Hq].
  rewrite queue_fill in Hq by done. split; [done|].
  by rewrite FlushOutboundFor_events, Hq.
Qed.


(** X9: [GetRandomGoodRouter] fails exactly on an empty node database;
    otherwise the draw [i] selects the key of the [i]-th entry, so every
    stored router can be selected, and whatever the draw the selected key is
    stored. *)
Theorem GetRandomGoodRouter_reaches_every_entry (r : Router) (rnd : Z)
    (i : nat) :
  (GetRandomGoodRouter r rnd = None ↔ NodeDB.entries (nodedb r) = []) ∧
  (∀ k, GetRandomGoodRouter r rnd = Some k →
        k ∈ (NodeDB.entries (nodedb r)).*1) ∧
  (∀ k rc, NodeDB.entries (nodedb r) !! i = Some (k, rc) →
           GetRandomGoodRouter r (Z.of_nat i) = Some k).
Proof.
  unfold GetRandomGoodRouter.
  set (es := NodeDB.entries (nodedb r)).
  destruct (Z.eqb_spec (Z.of_nat (length es)) 0) as [Hz0|Hn].
  - assert (es = []) as -> by (apply length_zero_iff_nil; lia).
    split_and!; [done|done|]. intros k rc Hl. by rewrite lookup_nil in Hl.
  - assert (Hin : ∀ z, (0 ≤ z < Z.of_nat (length es))%Z →
                       is_Some (fst <$> es !! Z.to_nat z)).
    { intros z Hz. apply fmap_is_Some, lookup_lt_is_Some_2. lia. }
    assert (Hidx : ∀ z, (0 ≤ (if (1 <? Z.of_nat (length es))%Z
                              then z mod Z.of_nat (length es) else 0)
                         < Z.of_nat (length es))%Z).
    { intros z. destruct (Z.ltb_spec 1 (Z.of_nat (length es))); [|lia].
      apply Z.mod_pos_bound. lia. }
    split_and!.
    + split.
      * intros Hnone. destruct (Hin _ (Hidx rnd)) as [x Hx]. congruence.
      * intros Hnil. rewrite Hnil in Hn. done.
    + intros k Hk. apply fmap_Some in Hk as ([k' rc] & Hl & ->).
      apply list_elem_of_fmap. exists (k', rc). split; [done|].
      by eapply list_elem_of_lookup_2.
    + intros k rc Hl. apply lookup_lt_Some in Hl as Hlt.
      destruct (Z.ltb_spec 1 (Z.of_nat (length es))) as [Hsz|Hsz].
      * rewrite Z.mod_small by lia. by rewrite Nat2Z.id, Hl.
      * assert (i = 0%nat) as -> by lia.
        change (Z.to_nat 0) with 0%nat. by rewrite Hl.
Qed.

Lemma Has_Insert_self (db : NodeDB.llarp_nodedb) (x : RouterContact) :
  NodeDB.Has (NodeDB.Insert db x).1 (pubkey x) = true.
Proof.
  unfold NodeDB.Has. rewrite Insert_entries.
  apply bool_decide_eq_true_2, entries_insert_find.
Qed.

Lemma Has_Insert_mono (db : NodeDB.llarp_nodedb) (x : RouterContact)
    (k : PubKey) :
  NodeDB.Has db k = true → NodeDB.Has (NodeDB.Insert db x).1 k = true.
Proof.
  unfold NodeDB.Has. rewrite Insert_entries.
  intros Hk. apply bool_decide_eq_true_1 in Hk.
  apply bool_decide_eq_true_2.
  by eapply extends_is_Some; [apply extends_insert|].
Qed.

Lemma try_connect_pending_self (r : Router) (remote : RouterContact) (n : Z) :
  HasPendingConnectJob (llarp_router_try_connect r remote n).1 (pubkey remote)
    = true.
Proof.
  rewrite HasPendingConnectJob_is_Some, try_connect_jobs.
  destruct (pendingEstablishJobs r !! pubkey remote) as [j|] eqn:E.
  - by rewrite E.
  - by rewrite lookup_insert_eq.
Qed.

Lemma try_connect_pending_mono (r : Router) (remote : RouterContact) (n : Z)
    (k : RouterID) :
  HasPendingConnectJob r k = true →
  HasPendingConnectJob (llarp_router_try_connect r remote n).1 k = true.
Proof.
  rewrite !HasPendingConnectJob_is_Some, try_connect_jobs.
  destruct (pendingEstablishJobs r !! pubkey remote) as [j|] eqn:E; [done|].
  intros [j Hj]. destruct (decide (pubkey remote = k)) as [->|Hne].
  - by rewrite lookup_insert_eq.
  - by rewrite lookup_insert_ne.
Qed.

Lemma TryEstablishTo_nodedb cfg hl (r : Router) (remote : RouterID) :
  nodedb (TryEstablishTo cfg hl r remote).1 = nodedb r.
Proof.
  unfold TryEstablishTo. destruct (negb _); [done|].
  destruct (NodeDB.Get (nodedb r) remote) as [rc0|].
  - cbn [fst]. apply try_connect_links.
  - destruct (_ || _); [by destruct hl|done].
Qed.

(** X10: [TryEstablishTo] starts nothing for a router the configuration
    does not allow: no establish job and no lookup (a non-empty
    strict-connect list forbids every router that is not on it).  For an
    allowed router it leaves a job pending when the node database knows the
    router, and otherwise starts at most one lookup, none if one is already
    running or if a client finds the router unreliable. *)
Theorem TryEstablishTo_respects_policy (cfg : RouterConfig) (hl : bool)
    (r : Router) (remote : RouterID) :
  (size (strictConnectPubkeys cfg) ≠ 0%nat →
   remote ∉ strictConnectPubkeys cfg →
   ConnectionToRouterAllowed cfg r remote = false) ∧
  if ConnectionToRouterAllowed cfg r remote then
    match NodeDB.Get (nodedb r) remote with
    | Some rc0 =>
        HasPendingConnectJob (TryEstablishTo cfg hl r remote).1 (pubkey rc0)
          = true ∧
        (TryEstablishTo cfg hl r remote).2 = []
    | None =>
        pendingEstablishJobs (TryEstablishTo cfg hl r remote).1
          = pendingEstablishJobs r ∧
        (TryEstablishTo cfg hl r remote).2 =
          if (IsServiceNode r || negb (IsBad (routerProfiling r) remote))
             && negb hl
          then [LookupRouter remote HandleDHTLookupForTryEstablishTo_h]
          else []
    end
  else
    pendingEstablishJobs (TryEstablishTo cfg hl r remote).1
      = pendingEstablishJobs r ∧
    (TryEstablishTo cfg hl r remote).2 = [].
Proof.
  split.
  - intros Hsz Hnot. unfold ConnectionToRouterAllowed.
    destruct (Nat.eqb_spec (size (strictConnectPubkeys cfg)) 0); [done|].
    by rewrite bool_decide_eq_true_2.
  - unfold TryEstablishTo.
    destruct (ConnectionToRouterAllowed cfg r remote); cbn [negb]; [|done].
    destruct (NodeDB.Get (nodedb r) remote) as [rc0|] eqn:E.
    + cbn [fst snd]. split; [|done]. apply try_connect_pending_self.
    + destruct (_ || _); [by destruct hl|done].
Qed.

Lemma Get_Insert (db : NodeDB.llarp_nodedb) (x : RouterContact) (k : PubKey) :
  NodeDB.Get (NodeDB.Insert db x).1 k
  = match NodeDB.Get db k with
    | Some old => Some old
    | None => if decide (pubkey x = k) then Some x else None
    end.
Proof. unfold NodeDB.Get. rewrite Insert_entries. apply entries_find_insert. Qed.

(** X11: [HandleDHTLookupForSendTo] on an empty answer, or on an answer
    whose first RC does not verify, drops the messages queued for the peer
    and starts nothing.  When the first RC verifies it is inserted without
    replacing: afterwards the node database holds under its pubkey the RC
    that was stored there before, or the answer's RC if there was none, and
    no other lookup changes; the establish job pending for that pubkey is
    the one that was pending before, or a new one for the answer's RC with
    10 tries on the outbound link; the queue is kept.  A peer that the
    whitelist excludes changes nothing. *)
Theorem HandleDHTLookupForSendTo_outcome (cfg : RouterConfig)
    (now : llarp_time_t) (r : Router) (remote : RouterID)
    (results : list RouterContact) :
  let r' := HandleDHTLookupForSendTo cfg now r remote results in
  match results with
  | first :: _ =>
      if whitelistRouters cfg && bool_decide (remote ∉ lokinetRouters cfg)
      then r' = r
      else if Verify_at first now then
        NodeDB.Get (nodedb r') (pubkey first)
          = Some (default first (NodeDB.Get (nodedb r) (pubkey first))) ∧
        (∀ k, k ≠ pubkey first →
              NodeDB.Get (nodedb r') k = NodeDB.Get (nodedb r) k) ∧
        NodeDB.Has (nodedb r') (pubkey first) = true ∧
        pendingEstablishJobs r' !! pubkey first
          = Some (default {| rc := first; link := outboundLink r;
                             triesLeft := 10 |}
                    (pendingEstablishJobs r !! pubkey first)) ∧
        (∀ k, k ≠ pubkey first →
              pendingEstablishJobs r' !! k = pendingEstablishJobs r !! k) ∧
        HasPendingConnectJob r' (pubkey first) = true ∧
        outboundMessageQueue r' = outboundMessageQueue r
      else
        outboundMessageQueue r' !! remote = None ∧
        pendingEstablishJobs r' = pendingEstablishJobs r ∧
        nodedb r' = nodedb r
  | [] =>
      outboundMessageQueue r' !! remote = None ∧
      pendingEstablishJobs r' = pendingEstablishJobs r ∧
      nodedb r' = nodedb r
  end.
Proof.
  cbv zeta. unfold HandleDHTLookupForSendTo.
  destruct results as [|first rest].
  - simpl. by rewrite lookup_delete_eq.
  - destruct (_ && _); [done|].
    destruct (Verify_at first now).
    + match goal with |- context [llarp_router_try_connect ?x ?y ?z] =>
        destruct (try_connect_links x y z) as (_ & _ & -> & _);
        destruct (try_connect_queue x y z) as (-> & _);
        rewrite (try_connect_pending_self x y z);
        rewrite (try_connect_jobs x y z) end.
      cbn [nodedb set_nodedb pendingEstablishJobs outboundMessageQueue
           outboundLink].
      split_and!; try done.
      * rewrite Get_Insert. destruct (NodeDB.Get (nodedb r) (pubkey first));
          [done|]. by rewrite decide_True.
      * intros k Hk. rewrite Get_Insert.
        destruct (NodeDB.Get (nodedb r) k); [done|]. by rewrite decide_False.
      * apply Has_Insert_self.
      * destruct (pendingEstablishJobs r !! pubkey first) as [j|] eqn:E;
          [done|]. by rewrite lookup_insert_eq.
      * intros k Hk.
        destruct (pendingEstablishJobs r !! pubkey first) as [j|] eqn:E;
          [done|]. by rewrite lookup_insert_ne.
    + simpl. by rewrite lookup_delete_eq.
Qed.

(** What the node database holds after the loop of
    [HandleDHTLookupForExplore] over RCs that all verify. *)
Lemma insert_verified_Get (now : llarp_time_t) (results : list RouterContact)
    (db : NodeDB.llarp_nodedb) (k : PubKey) :
  Forall (λ rc, Verify_at rc now = true) results →
  NodeDB.Get (insert_verified now db results).1 k
  = match NodeDB.Get db k with
    | Some old => Some old
    | None => List.find (λ rc, bool_decide (pubkey rc = k)) results
    end.
Proof.
  intros Hall. revert db.
  induction Hall as [|x rest Hx Hall IH]; intros db; simpl.
  { by destruct (NodeDB.Get db k). }
  rewrite Hx, IH, Get_Insert.
  destruct (NodeDB.Get db k) as [old|]; [done|].
  destruct (decide (pubkey x = k)) as [Hk|Hk].
  - by rewrite bool_decide_eq_true_2.
  - by rewrite bool_decide_eq_false_2.
Qed.

Lemma insert_verified_stops (now : llarp_time_t)
    (good : list RouterContact) (bad : RouterContact)
    (rest : list RouterContact) (db : NodeDB.llarp_nodedb) :
  Forall (λ rc, Verify_at rc now = true) good → Verify_at bad now = false →
  insert_verified now db (good ++ bad :: rest)
  = ((insert_verified now db good).1, false).
Proof.
  intros Hall Hbad. revert db.
  induction Hall as [|x good Hx Hall IH]; intros db; simpl.
  - by rewrite Hbad.
  - by rewrite Hx, IH.
Qed.

Lemma insert_verified_spec (now : llarp_time_t) (results : list RouterContact)
    (db : NodeDB.llarp_nodedb) :
  (Forall (λ e, Verify_at e.2 now = true) (NodeDB.entries db) →
   Forall (λ e, Verify_at e.2 now = true)
     (NodeDB.entries (insert_verified now db results).1)) ∧
  NodeDB.extends (NodeDB.entries db)
    (NodeDB.entries (insert_verified now db results).1) ∧
  ((insert_verified now db results).2 = true ↔
   Forall (λ rc, Verify_at rc now = true) results) ∧
  ((insert_verified now db results).2 = true →
   ∀ rc, rc ∈ results →
     NodeDB.Has (insert_verified now db results).1 (pubkey rc) = true).
Proof.
  revert db. induction results as [|rc0 rest IH]; intros db; simpl.
  - split_and!; [done|apply extends_refl|done|].
    intros _ rc Hrc. by apply elem_of_nil in Hrc.
  - destruct (Verify_at rc0 now) eqn:Hv.
    + destruct (IH (NodeDB.Insert db rc0).1) as (Iv & Ie & Ia & Ih).
      split_and!.
      * intros Hall. apply Iv. rewrite Insert_entries.
        by apply entries_insert_Forall.
      * eapply extends_trans; [|exact Ie]. rewrite Insert_entries.
        apply extends_insert.
      * rewrite Ia. split; [by constructor|]. intros Hall. by inversion Hall.
      * intros Hall rc Hrc. apply elem_of_cons in Hrc as [->|Hrc]; [|by apply Ih].
        pose proof (Has_Insert_self db rc0) as Hh.
        unfold NodeDB.Has in *. apply bool_decide_eq_true_1 in Hh.
        apply bool_decide_eq_true_2. by eapply extends_is_Some.
    + split_and!; [done|apply extends_refl| |done].
      split; [done|]. intros Hall. inversion Hall; congruence.
Qed.

(** X12: [HandleDHTLookupForExplore] inserts the RCs of the answer in order
    until the first one that does not verify, and never replaces an entry:
    afterwards a pubkey holds the RC stored before the call or, if there was
    none, the first RC with that pubkey among those inserted.  So a node
    database whose entries all verify stays so and nothing stored before is
    lost.  If some RC of the answer does not verify, only the RCs before it
    are inserted and no establish job and no lookup is started; if all
    verify, all are inserted and the pubkey of every RC of the answer is
    stored. *)
Theorem HandleDHTLookupForExplore_outcome (cfg : RouterConfig) (hl : bool)
    (now : llarp_time_t) (r : Router) (remote : RouterID)
    (results : list RouterContact) :
  let r' := (HandleDHTLookupForExplore cfg hl now r remote results).1 in
  (Forall (λ e, Verify_at e.2 now = true) (NodeDB.entries (nodedb r)) →
   Forall (λ e, Verify_at e.2 now = true) (NodeDB.entries (nodedb r'))) ∧
  NodeDB.extends (NodeDB.entries (nodedb r)) (NodeDB.entries (nodedb r')) ∧
  (¬ Forall (λ rc, Verify_at rc now = true) results →
   pendingEstablishJobs r' = pendingEstablishJobs r ∧
   (HandleDHTLookupForExplore cfg hl now r remote results).2 = []) ∧
  (Forall (λ rc, Verify_at rc now = true) results →
   ∀ rc, rc ∈ results → NodeDB.Has (nodedb r') (pubkey rc) = true) ∧
  (Forall (λ rc, Verify_at rc now = true) results →
   ∀ k, NodeDB.Get (nodedb r') k
        = match NodeDB.Get (nodedb r) k with
          | Some old => Some old
          | None => List.find (λ rc, bool_decide (pubkey rc = k)) results
          end) ∧
  (∀ good bad rest,
     results = good ++ bad :: rest →
     Forall (λ rc, Verify_at rc now = true) good →
     Verify_at bad now = false →
     ∀ k, NodeDB.Get (nodedb r') k
          = match NodeDB.Get (nodedb r) k with
            | Some old => Some old
            | None => List.find (λ rc, bool_decide (pubkey rc = k)) good
            end).
Proof.
  cbv zeta. unfold HandleDHTLookupForExplore.
  destruct results as [|rc0 rest] eqn:Er.
  { simpl. split_and!; [done|apply extends_refl| | | |].
    - intros Hn. by destruct Hn.
    - intros _ rc Hrc. by apply elem_of_nil in Hrc.
    - intros _ k. by destruct (NodeDB.Get (nodedb r) k).
    - intros good bad rest' Hnil. by destruct good. }
  rewrite <- Er. clear Er.
  pose proof (insert_verified_spec now results (nodedb r)) as (Iv & Ie & Ia & Ih).
  pose proof (insert_verified_Get now results (nodedb r)) as Ig.
  pose proof (λ good bad rest', insert_verified_stops now good bad rest' (nodedb r))
    as Is.
  destruct (insert_verified now (nodedb r) results) as [db all] eqn:Eiv.
  simpl in *.
  assert (Hdb : nodedb
    (if all
     then if ConnectionToRouterAllowed cfg (set_nodedb db r) remote
          then TryEstablishTo cfg hl (set_nodedb db r) remote
          else (set_nodedb db r, [])
     else (set_nodedb db r, [])).1 = db).
  { destruct all; [|done]. destruct (ConnectionToRouterAllowed _ _ _); [|done].
    by rewrite TryEstablishTo_nodedb. }
  rewrite Hdb. split_and!; [done|done| | | |].
  - intros Hn. destruct all; [|done]. exfalso. by apply Hn, Ia.
  - intros Hall. apply Ih. by apply Ia.
  - intros Hall k. by apply Ig.
  - intros good bad rest' -> Hgood Hbad k.
    rewrite (Is good bad rest' Hgood Hbad) in Eiv. injection Eiv as <- _.
    by apply insert_verified_Get.
Qed.

Lemma HandleDHTLookupForTryEstablishTo_fold (cfg : RouterConfig)
    (results : list RouterContact) (r : Router) :
  let r' :=
    foldl (λ r' result,
             if whitelistRouters cfg
                && bool_decide (pubkey result ∉ lokinetRouters cfg)
             then r'
             else
               let r1 := set_nodedb (NodeDB.Insert (nodedb r') result).1 r' in
               (llarp_router_try_connect r1 result 10).1) r results in
  (∀ k, NodeDB.Has (nodedb r) k = true → NodeDB.Has (nodedb r') k = true) ∧
  (∀ k, HasPendingConnectJob r k = true → HasPendingConnectJob r' k = true) ∧
  (∀ rc, rc ∈ results →
     whitelistRouters cfg = false ∨ pubkey rc ∈ lokinetRouters cfg →
     NodeDB.Has (nodedb r') (pubkey rc) = true ∧
     HasPendingConnectJob r' (pubkey rc) = true).
Proof.
  revert r. induction results as [|x rest IH]; intros r; simpl.
  { split_and!; [done|done|]. intros rc Hrc. by apply elem_of_nil in Hrc. }
  set (r1 := if whitelistRouters cfg
                && bool_decide (pubkey x ∉ lokinetRouters cfg)
             then r
             else (llarp_router_try_connect
                     (set_nodedb (NodeDB.Insert (nodedb r) x).1 r) x 10).1).
  destruct (IH r1) as (Ih & Ip & Ir).
  assert (Hstep :
    (∀ k, NodeDB.Has (nodedb r) k = true → NodeDB.Has (nodedb r1) k = true) ∧
    (∀ k, HasPendingConnectJob r k = true → HasPendingConnectJob r1 k = true) ∧
    (whitelistRouters cfg = false ∨ pubkey x ∈ lokinetRouters cfg →
     NodeDB.Has (nodedb r1) (pubkey x) = true ∧
     HasPendingConnectJob r1 (pubkey x) = true)).
  { unfold r1.
    destruct (whitelistRouters cfg) eqn:Hw; simpl.
    - destruct (decide (pubkey x ∈ lokinetRouters cfg)) as [Hi|Hi].
      + rewrite bool_decide_eq_false_2 by (by intros ?).
        match goal with |- context [llarp_router_try_connect ?a ?b ?c] =>
          destruct (try_connect_links a b c) as (_ & _ & -> & _) end.
        simpl. split_and!.
        * intros k. apply Has_Insert_mono.
        * intros k Hk. by apply try_connect_pending_mono.
        * intros _. split; [apply Has_Insert_self|].
          apply try_connect_pending_self.
      + rewrite bool_decide_eq_true_2 by done.
        split_and!; [done|done|]. by intros [?|?].
    - match goal with |- context [llarp_router_try_connect ?a ?b ?c] =>
        destruct (try_connect_links a b c) as (_ & _ & -> & _) end.
      simpl. split_and!.
      * intros k. apply Has_Insert_mono.
      * intros k Hk. by apply try_connect_pending_mono.
      * intros _. split; [apply Has_Insert_self|].
        apply try_connect_pending_self. }
  destruct Hstep as (Sh & Sp & Sx).
  split_and!.
  - intros k Hk. by apply Ih, Sh.
  - intros k Hk. by apply Ip, Sp.
  - intros rc Hrc Hw. apply elem_of_cons in Hrc as [->|Hrc].
    + destruct (Sx Hw) as [Hh Hp]. split; [by apply Ih|by apply Ip].
    + by apply Ir.
Qed.

(** What the loop of [HandleDHTLookupForTryEstablishTo] leaves under a
    pubkey: what was there, or else what belongs to the first RC of the
    answer with that pubkey that the whitelist does not exclude. *)
Lemma HandleDHTLookupForTryEstablishTo_first (cfg : RouterConfig)
    (results : list RouterContact) (r : Router) (k : RouterID) :
  let r' :=
    foldl (λ r' result,
             if whitelistRouters cfg
                && bool_decide (pubkey result ∉ lokinetRouters cfg)
             then r'
             else
               let r1 := set_nodedb (NodeDB.Insert (nodedb r') result).1 r' in
               (llarp_router_try_connect r1 result 10).1) r results in
  let first :=
    List.find (λ rc, bool_decide (pubkey rc = k)
                     && negb (whitelistRouters cfg
                              && bool_decide (pubkey rc ∉ lokinetRouters cfg)))
      results in
  outboundLink r' = outboundLink r ∧
  NodeDB.Get (nodedb r') k
  = match NodeDB.Get (nodedb r) k with
    | Some old => Some old
    | None => first
    end ∧
  pendingEstablishJobs r' !! k
  = match pendingEstablishJobs r !! k with
    | Some j => Some j
    | None =>
        (λ x, {| rc := x; link := outboundLink r; triesLeft := 10 |})
          <$> first
    end.
Proof.
  cbv zeta. revert r. induction results as [|x rest IH]; intros r.
  { simpl. split; [done|].
    split; [by destruct (NodeDB.Get (nodedb r) k)|].
    by destruct (pendingEstablishJobs r !! k). }
  cbn [foldl List.find].
  destruct (whitelistRouters cfg
            && bool_decide (pubkey x ∉ lokinetRouters cfg)) eqn:Hex.
  { rewrite andb_false_r. apply IH. }
  cbn [negb]. rewrite andb_true_r.
  set (r1 := (llarp_router_try_connect
                (set_nodedb (NodeDB.Insert (nodedb r) x).1 r) x 10).1).
  destruct (IH r1) as (Il & Ig & Ij). rewrite Il, Ig, Ij.
  assert (Hl : outboundLink r1 = outboundLink r).
  { unfold r1. by destruct (try_connect_links
      (set_nodedb (NodeDB.Insert (nodedb r) x).1 r) x 10) as (_ & -> & _). }
  assert (Hg : NodeDB.Get (nodedb r1) k
               = match NodeDB.Get (nodedb r) k with
                 | Some old => Some old
                 | None => if decide (pubkey x = k) then Some x else None
                 end).
  { unfold r1. destruct (try_connect_links
      (set_nodedb (NodeDB.Insert (nodedb r) x).1 r) x 10) as (_ & _ & -> & _).
    cbn [nodedb set_nodedb]. apply Get_Insert. }
  assert (Hj : pendingEstablishJobs r1 !! k
               = match pendingEstablishJobs r !! k with
                 | Some j => Some j
                 | None =>
                     if decide (pubkey x = k)
                     then Some {| rc := x; link := outboundLink r;
                                  triesLeft := 10 |}
                     else None
                 end).
  { unfold r1. rewrite try_connect_jobs.
    cbn [pendingEstablishJobs set_nodedb outboundLink].
    destruct (decide (pubkey x = k)) as [<-|Hne].
    - destruct (pendingEstablishJobs r !! pubkey x) as [j|] eqn:E.
      + by rewrite E.
      + by rewrite lookup_insert_eq.
    - destruct (pendingEstablishJobs r !! pubkey x) as [j|] eqn:E;
        [by destruct (pendingEstablishJobs r !! k)|].
      rewrite lookup_insert_ne by done.
      by destruct (pendingEstablishJobs r !! k). }
  rewrite Hl, Hg, Hj. split; [done|].
  destruct (decide (pubkey x = k)) as [Hk|Hk].
  - rewrite bool_decide_eq_true_2 by done. split.
    + by destruct (NodeDB.Get (nodedb r) k).
    + by destruct (pendingEstablishJobs r !! k).
  - rewrite bool_decide_eq_false_2 by done. split.
    + by destruct (NodeDB.Get (nodedb r) k).
    + by destruct (pendingEstablishJobs r !! k).
Qed.

(** X13: [HandleDHTLookupForTryEstablishTo] never verifies the RCs of the
    answer.  For every RC of the answer that the whitelist does not exclude,
    the pubkey is afterwards stored in the node database and has an
    establish job pending.  Nothing stored or pending before is lost or
    replaced: under each pubkey the node database holds the RC stored before
    the call, or else the first allowed RC of the answer with that pubkey,
    and the pending job is the earlier one, or else a new job for that RC
    with 10 tries on the outbound link. *)
Theorem HandleDHTLookupForTryEstablishTo_stores_all (cfg : RouterConfig)
    (r : Router) (remote : RouterID) (results : list RouterContact)
    (rc0 : RouterContact) :
  rc0 ∈ results →
  whitelistRouters cfg = false ∨ pubkey rc0 ∈ lokinetRouters cfg →
  NodeDB.Has
    (nodedb (HandleDHTLookupForTryEstablishTo cfg r remote results))
    (pubkey rc0) = true ∧
  HasPendingConnectJob
    (HandleDHTLookupForTryEstablishTo cfg r remote results) (pubkey rc0)
    = true ∧
  (∀ k,
     NodeDB.Get
       (nodedb (HandleDHTLookupForTryEstablishTo cfg r remote results)) k
     = match NodeDB.Get (nodedb r) k with
       | Some old => Some old
       | None =>
           List.find
             (λ rc, bool_decide (pubkey rc = k)
                    && negb (whitelistRouters cfg
                             && bool_decide
                                  (pubkey rc ∉ lokinetRouters cfg)))
             results
       end) ∧
  (∀ k,
     pendingEstablishJobs
       (HandleDHTLookupForTryEstablishTo cfg r remote results) !! k
     = match pendingEstablishJobs r !! k with
       | Some j => Some j
       | None =>
           (λ x, {| rc := x; link := outboundLink r; triesLeft := 10 |})
             <$> List.find
                   (λ rc, bool_decide (pubkey rc = k)
                          && negb (whitelistRouters cfg
                                   && bool_decide
                                        (pubkey rc ∉ lokinetRouters cfg)))
                   results
       end).
Proof.
  intros Hin Hw. unfold HandleDHTLookupForTryEstablishTo.
  match goal with |- context [foldl _ ?r0 results] =>
    set (start := r0);
    destruct (HandleDHTLookupForTryEstablishTo_fold cfg results start)
      as (_ & _ & Hr);
    pose proof (HandleDHTLookupForTryEstablishTo_first cfg results start)
      as Hf end.
  assert (Hs : nodedb start = nodedb r ∧
               pendingEstablishJobs start = pendingEstablishJobs r ∧
               outboundLink start = outboundLink r).
  { unfold start. destruct results; [|done]. by destruct (negb _). }
  destruct Hs as (Hn & Hj & Hl). cbv zeta in Hf, Hr.
  destruct (Hr rc0 Hin Hw) as [Hhas Hpend].
  split_and!; [done|done| |].
  - intros k. destruct (Hf k) as (_ & Hg & _). by rewrite Hg, Hn.
  - intros k. destruct (Hf k) as (_ & _ & Hp). by rewrite Hp, Hj, Hl.
Qed.

Lemma on_verify_server_rc_spec (r : Router) (rc0 : RouterContact)
    (ej : option TryConnectJob) :
  (validRouters (on_verify_server_rc r rc0 false ej) = validRouters r ∧
   dht_nodes (on_verify_server_rc r rc0 false ej) = dht_nodes r ∧
   nodedb (on_verify_server_rc r rc0 false ej) = nodedb r ∧
   pendingEstablishJobs (on_verify_server_rc r rc0 false ej)
     = pendingEstablishJobs r ∧
   outboundMessageQueue (on_verify_server_rc r rc0 false ej) !! pubkey rc0
     = None ∧
   pendingVerifyRC (on_verify_server_rc r rc0 false ej) !! pubkey rc0 = None) ∧
  (validRouters (on_verify_server_rc r rc0 true ej) !! pubkey rc0 = Some rc0 ∧
   dht_nodes (on_verify_server_rc r rc0 true ej) !! pubkey rc0 = Some rc0 ∧
   nodedb (on_verify_server_rc r rc0 true ej) = nodedb r ∧
   pendingVerifyRC (on_verify_server_rc r rc0 true ej) !! pubkey rc0 = None ∧
   pendingEstablishJobs (on_verify_server_rc r rc0 true ej)
     = delete (default (pubkey rc0) (pubkey ∘ rc <$> ej))
         (pendingEstablishJobs r)).
Proof.
  unfold on_verify_server_rc. cbn [negb]. split.
  - destruct ej as [j|]; simpl; by rewrite !lookup_delete_eq.
  - destruct ej as [j|]; cbn [default fmap option_fmap option_map compose].
    + unfold TryConnectJob_Success.
      match goal with |- context [FlushOutboundFor ?x ?y ?z] =>
        destruct (FlushOutboundFor_keeps x y z) as (Hv & Hd & Hn & Hp);
        pose proof (FlushOutboundFor_jobs x y z) as Hj end.
      simpl in *. rewrite Hv, Hd, Hn, Hp, Hj. simpl.
      by rewrite !lookup_insert_eq, lookup_delete_eq.
    + match goal with |- context [FlushOutboundFor ?x ?y ?z] =>
        destruct (FlushOutboundFor_keeps x y z) as (Hv & Hd & Hn & Hp);
        pose proof (FlushOutboundFor_jobs x y z) as Hj end.
      simpl in *. rewrite Hv, Hd, Hn, Hp, Hj. simpl.
      by rewrite !lookup_insert_eq, lookup_delete_eq.
Qed.

Lemma on_verify_client_rc_spec (r : Router) (rc0 : RouterContact) :
  validRouters (on_verify_client_rc r rc0) = validRouters r ∧
  dht_nodes (on_verify_client_rc r rc0) = dht_nodes r ∧
  nodedb (on_verify_client_rc r rc0) = nodedb r ∧
  pendingVerifyRC (on_verify_client_rc r rc0) !! pubkey rc0 = None ∧
  HasPendingConnectJob (on_verify_client_rc r rc0) (pubkey rc0) = false.
Proof.
  unfold on_verify_client_rc.
  match goal with |- context [FlushOutboundFor ?x ?y ?z] =>
    destruct (FlushOutboundFor_keeps x y z) as (Hv & Hd & Hn & Hp);
    pose proof (FlushOutboundFor_jobs x y z) as Hj end.
  simpl in *. rewrite Hv, Hd, Hn.
  split_and!; [done|done|done|by rewrite lookup_delete_eq|].
  apply HasPendingConnectJob_None. simpl. rewrite Hj.
  by rewrite lookup_delete_eq.
Qed.

(** X14: [OnSessionEstablished] passes no link to [async_verify_RC].  The
    call dereferences that null link exactly when no verification of the
    pubkey is pending, the RC is public, the whitelist is on and the pubkey
    is not on it.  With a link, [async_verify_RC] always returns; in that
    case it closes the session on the link and starts no verification. *)
Theorem OnSessionEstablished_null_link (cfg : RouterConfig) (r : Router)
    (rc0 : RouterContact) :
  (OnSessionEstablished cfg r rc0 = None ↔
   pendingVerifyRC r !! pubkey rc0 = None ∧ IsPublicRouter rc0 = true ∧
   whitelistRouters cfg = true ∧ pubkey rc0 ∉ lokinetRouters cfg) ∧
  (∀ l, async_verify_RC cfg r rc0 (Some l) ≠ None) ∧
  (∀ l, pendingVerifyRC r !! pubkey rc0 = None → IsPublicRouter rc0 = true →
        whitelistRouters cfg = true → pubkey rc0 ∉ lokinetRouters cfg →
        async_verify_RC cfg r rc0 (Some l)
        = Some (emit [Link_CloseSessionTo (Some (Name l)) (pubkey rc0)] r,
                None)).
Proof.
  unfold OnSessionEstablished, async_verify_RC. split_and!.
  - destruct (pendingVerifyRC r !! pubkey rc0) as [x|] eqn:Hp.
    { rewrite bool_decide_eq_true_2 by (by eexists).
      split; [done|]. by intros [? _]. }
    rewrite bool_decide_eq_false_2 by (by intros [? ?]).
    destruct (IsPublicRouter rc0), (whitelistRouters cfg); cbn [andb];
      try (split; [done|]; by intros (_ & ? & ? & _)).
    destruct (decide (pubkey rc0 ∈ lokinetRouters cfg)) as [Hin|Hin].
    + rewrite bool_decide_eq_false_2 by (by intros ?).
      split; [done|]. by intros (_ & _ & _ & ?).
    + by rewrite bool_decide_eq_true_2.
  - intros l. by repeat case_match.
  - intros l Hp Hpub Hw Hin. rewrite Hp, Hpub, Hw.
    rewrite bool_decide_eq_false_2 by (by intros [? ?]).
    by rewrite bool_decide_eq_true_2.
Qed.

(** X15: one full verification of an RC that is not being verified already
    (whitelist off): the request runs through the pipeline on the router's
    node database, the hook is delivered, and afterwards the verification is
    no longer pending.  A public RC becomes the valid router and the DHT
    node of its pubkey exactly when it verified and was written to disk;
    when it did not verify, or the write failed, the valid routers and the
    DHT are as before and the messages queued for it are dropped.  A client
    RC never enters the valid routers or the node database.  A second
    request for a pubkey whose verification is pending is dropped. *)
Theorem verify_round_outcome (cfg : RouterConfig) (r : Router)
    (rc0 : RouterContact) (l : option ILinkLayer) :
  (is_Some (pendingVerifyRC r !! pubkey rc0) →
   verify_round cfg r rc0 l = Some r) ∧
  (whitelistRouters cfg = false →
   pendingVerifyRC r !! pubkey rc0 = None →
   ∃ r', verify_round cfg r rc0 l = Some r' ∧
     pendingVerifyRC r' !! pubkey rc0 = None ∧
     if IsPublicRouter rc0 then
       if Verify rc0 && (NodeDB.Insert (nodedb r) rc0).2 then
         validRouters r' !! pubkey rc0 = Some rc0 ∧
         dht_nodes r' !! pubkey rc0 = Some rc0 ∧
         NodeDB.Has (nodedb r') (pubkey rc0) = true
       else
         validRouters r' = validRouters r ∧
         dht_nodes r' = dht_nodes r ∧
         outboundMessageQueue r' !! pubkey rc0 = None
     else
       validRouters r' = validRouters r ∧
       dht_nodes r' = dht_nodes r ∧
       nodedb r' = nodedb r).
Proof.
  split.
  - intros Hp. unfold verify_round, async_verify_RC.
    by rewrite bool_decide_eq_true_2.
  - intros Hw Hnone. unfold verify_round, async_verify_RC.
    rewrite Hnone, Hw, andb_false_r. cbn [bool_decide andb].
    rewrite bool_decide_eq_false_2 by (by intros [? ?]). cbn [andb].
    rewrite async_verify_run by done. cbn [NodeDB.rc NodeDB.hook].
    eexists. split; [done|].
    change (nodedb (set_verifying (<[pubkey rc0:=rc0]> (pendingVerifyRC r)) r))
      with (nodedb r).
    destruct (IsPublicRouter rc0) eqn:Hpub.
    + destruct (Verify rc0) eqn:Hv; cbn [andb].
      * cbn [NodeDB.job NodeDB.trace NodeDB.nodedb deliver_hooks foldl
             NodeDB.set_valid NodeDB.rc].
        destruct (NodeDB.Insert (nodedb r) rc0) as [db ok] eqn:Hi.
        cbn [fst snd]. destruct ok.
        -- match goal with |- context [on_verify_server_rc ?x ?y true ?z] =>
             destruct (on_verify_server_rc_spec x y z)
               as (_ & (Hv1 & Hd1 & Hn1 & Hp1 & _)) end.
           rewrite Hv1, Hd1, Hn1, Hp1. simpl.
           split_and!; try done.
           pose proof (Has_Insert_self (nodedb r) rc0) as Hh.
           by rewrite Hi in Hh.
        -- match goal with |- context [on_verify_server_rc ?x ?y false ?z] =>
             destruct (on_verify_server_rc_spec x y z)
               as ((Hv1 & Hd1 & Hn1 & _ & Hq1 & Hp1) & _) end.
           by rewrite Hv1, Hd1, Hq1, Hp1.
      * cbn [NodeDB.job NodeDB.trace NodeDB.nodedb deliver_hooks foldl
             NodeDB.set_valid NodeDB.rc app].
        match goal with |- context [on_verify_server_rc ?x ?y false ?z] =>
          destruct (on_verify_server_rc_spec x y z)
            as ((Hv1 & Hd1 & Hn1 & _ & Hq1 & Hp1) & _) end.
        by rewrite Hv1, Hd1, Hq1, Hp1.
    + rewrite andb_false_r.
      destruct (Verify rc0) eqn:Hv;
        cbn [NodeDB.job NodeDB.trace NodeDB.nodedb deliver_hooks foldl
             NodeDB.set_valid NodeDB.rc app];
        match goal with |- context [on_verify_client_rc ?x ?y] =>
          destruct (on_verify_client_rc_spec x y)
            as (Hv1 & Hd1 & Hn1 & Hp1 & _) end;
        by rewrite Hv1, Hd1, Hn1, Hp1.
Qed.

(** X16: [PersistSessionUntil] never shortens a commitment: afterwards the
    peer's deadline is the later of the requested one and the one stored
    before (0 when there was none), no other peer's deadline changes, and
    two requests have the same effect in either order. *)
Theorem PersistSessionUntil_keeps_latest (m : gmap RouterID Z)
    (a b : RouterID) (u v : Z) :
  PersistSessionUntil m a u !! a = Some (Z.max u (default 0%Z (m !! a))) ∧
  (∀ k, k ≠ a → PersistSessionUntil m a u !! k = m !! k) ∧
  PersistSessionUntil (PersistSessionUntil m a u) b v
    = PersistSessionUntil (PersistSessionUntil m b v) a u.
Proof.
  unfold PersistSessionUntil. split_and!.
  - by rewrite lookup_insert_eq.
  - intros k Hk. by rewrite lookup_insert_ne.
  - destruct (decide (a = b)) as [->|Hne].
    + rewrite !lookup_insert_eq, !insert_insert_eq. simpl. f_equal. lia.
    + rewrite !lookup_insert_ne by done. by apply insert_insert_ne.
Qed.

(** X19: a session from verification to close.  After the server hook has
    accepted an RC the router has a session to its pubkey, and the number of
    connected routers has grown by one unless it was connected before.
    [SessionClosed] then removes the pubkey from the valid routers and from
    the DHT, whatever RC was stored for it before the verification, and
    touches neither the pending jobs nor the outbound queues. *)
Theorem SessionClosed_after_verify (r : Router) (rc0 : RouterContact)
    (ej : option TryConnectJob) :
  let rv := on_verify_server_rc r rc0 true ej in
  Router_HasSessionTo rv (pubkey rc0) = true ∧
  NumberOfConnectedRouters rv
    = (if Router_HasSessionTo r (pubkey rc0)
       then NumberOfConnectedRouters r
       else S (NumberOfConnectedRouters r)) ∧
  Router_HasSessionTo (SessionClosed rv (pubkey rc0)) (pubkey rc0) = false ∧
  validRouters (SessionClosed rv (pubkey rc0))
    = delete (pubkey rc0) (validRouters r) ∧
  dht_nodes (SessionClosed rv (pubkey rc0))
    = delete (pubkey rc0) (dht_nodes r) ∧
  pendingEstablishJobs (SessionClosed rv (pubkey rc0))
    = pendingEstablishJobs rv ∧
  outboundMessageQueue (SessionClosed rv (pubkey rc0))
    = outboundMessageQueue rv.
Proof.
  intros rv.
  assert (Hv : validRouters rv
               = <[pubkey rc0 := rc0]> (delete (pubkey rc0) (validRouters r))
             ∧ dht_nodes rv = <[pubkey rc0 := rc0]> (dht_nodes r)).
  { unfold rv, on_verify_server_rc. cbn [negb].
    destruct ej as [j|]; [unfold TryConnectJob_Success|];
      match goal with |- context [FlushOutboundFor ?x ?y ?z] =>
        destruct (FlushOutboundFor_keeps x y z) as (Hv & Hd & _) end;
      simpl in *; by rewrite Hv, Hd. }
  destruct Hv as [Hv Hd].
  unfold Router_HasSessionTo, NumberOfConnectedRouters, SessionClosed.
  cbn [validRouters dht_nodes pendingEstablishJobs outboundMessageQueue
       set_validRouters set_dht_nodes].
  rewrite Hv, Hd. split_and!.
  - apply bool_decide_eq_true_2. rewrite lookup_insert_eq. by eexists.
  - rewrite insert_delete_eq, map_size_insert.
    destruct (validRouters r !! pubkey rc0) as [x|] eqn:E.
    + rewrite bool_decide_eq_true_2; [done|by eexists].
    + rewrite bool_decide_eq_false_2; [done|]. by intros [? ?].
  - apply bool_decide_eq_false_2. rewrite lookup_delete_eq. by intros [? ?].
  - by rewrite delete_insert_eq, delete_delete_eq.
  - by rewrite delete_insert_eq.
  - done.
  - done.
Qed.
End router_more_proofs.

Section random_connect_proofs.
Import router.
Context `{!Crypto, !Encoder, !FileSystem, !LinkMessages, !Profiling,
          !VerifyAt, !RCExpiry}.

(** One visit either leaves the router and [want] alone, or starts an
    attempt for a router that passed every test. *)
Lemma ConnectToRandomRouters_visit_cases (cfg : RouterConfig)
    (now : llarp_time_t) (rnd : nat → Z) (r : Router) (want : Z) (n : nat)
    (other : RouterContact) :
  (∃ n', ConnectToRandomRouters_visit cfg now rnd (r, want, n) other
         = ((r, want, n'), (0 <? want)%Z)) ∨
  (ExpiresSoon other now 30000 = false ∧
   ConnectionToRouterAllowed cfg r (pubkey other) = true ∧
   Router_HasSessionTo r (pubkey other) = false ∧
   pendingEstablishJobs r !! pubkey other = None ∧
   ConnectToRandomRouters_visit cfg now rnd (r, want, n) other
     = (((llarp_router_try_connect r other 5).1, (want - 1)%Z, S n),
        (0 <? want - 1)%Z)).
Proof.
  unfold ConnectToRandomRouters_visit.
  destruct (ExpiresSoon other now 30000) eqn:Hexp; [left; by eexists|].
  destruct (ConnectionToRouterAllowed cfg r (pubkey other)) eqn:Hal;
    cbn [negb]; [|left; by eexists].
  destruct ((rnd n mod 2 =? 0)%Z
            && negb (Router_HasSessionTo r (pubkey other)
                     || HasPendingConnectJob r (pubkey other))) eqn:Htry;
    [|left; by eexists].
  apply andb_true_iff in Htry as [_ Hno].
  apply negb_true_iff, orb_false_iff in Hno as [Hsess Hpend].
  apply HasPendingConnectJob_None in Hpend. by right.
Qed.

(** What the visits of [ConnectToRandomRouters] from one entry on do to the
    router and to [want]. *)
Lemma ConnectToRandomRouters_visits (cfg : RouterConfig) (now : llarp_time_t)
    (rnd : nat → Z) (es : list (PubKey * RouterContact)) :
  ∀ (r : Router) (want : Z) (n : nat),
    let res := NodeDB.visit_entries es
                 (ConnectToRandomRouters_visit cfg now rnd) (r, want, n) in
    ((res.1.2 ≤ want)%Z ∧ (0 < want → 0 ≤ res.1.2)%Z ∧
     (want ≤ 0 → want - 1 ≤ res.1.2)%Z) ∧
    Z.of_nat (size (pendingEstablishJobs res.1.1))
      = (Z.of_nat (size (pendingEstablishJobs r)) + (want - res.1.2))%Z ∧
    (nodedb res.1.1 = nodedb r ∧ validRouters res.1.1 = validRouters r ∧
     outboundMessageQueue res.1.1 = outboundMessageQueue r ∧
     inboundLinks res.1.1 = inboundLinks r ∧
     outboundLink res.1.1 = outboundLink r) ∧
    (∀ k j, pendingEstablishJobs r !! k = Some j →
            pendingEstablishJobs res.1.1 !! k = Some j) ∧
    (∀ k j, pendingEstablishJobs r !! k = None →
            pendingEstablishJobs res.1.1 !! k = Some j →
       ∃ e, e ∈ es ∧ pubkey e.2 = k ∧
            j = {| rc := e.2; link := outboundLink r; triesLeft := 5 |} ∧
            ExpiresSoon e.2 now 30000 = false ∧
            ConnectionToRouterAllowed cfg r k = true ∧
            Router_HasSessionTo r k = false).
Proof.
  induction es as [|e es IH]; intros r want n; cbv zeta;
    cbn [NodeDB.visit_entries].
  { cbn [fst snd]. split_and!; try done; try lia. congruence. }
  destruct (ConnectToRandomRouters_visit_cases cfg now rnd r want n e.2)
    as [[n' ->]|(Hexp & Hal & Hsess & Hpend & ->)].
  { destruct (Z.ltb_spec 0 want) as [Hw|Hw].
    - destruct (IH r want n')
        as (Hb & Hs & (K1 & K2 & K3 & K4 & K5) & Hm & Ho).
      cbv zeta in *. split_and!; try lia; try done.
      intros k j Hn Hj. destruct (Ho k j Hn Hj) as (x & Hx & Hrest).
      exists x. split; [by right|done].
    - cbn [fst snd]. split_and!; try done; try lia. congruence. }
  pose proof (try_connect_jobs r e.2 5) as Hjobs. rewrite Hpend in Hjobs.
  destruct (try_connect_links r e.2 5) as (Hin & Hout & Hdb & Hval).
  destruct (try_connect_queue r e.2 5) as (Hq & _).
  set (r1 := (llarp_router_try_connect r e.2 5).1) in *.
  assert (Hsz : size (pendingEstablishJobs r1)
                = S (size (pendingEstablishJobs r))).
  { rewrite Hjobs. by apply map_size_insert_None. }
  assert (Hal1 : ∀ k, ConnectionToRouterAllowed cfg r1 k
                      = ConnectionToRouterAllowed cfg r k).
  { intros k. unfold ConnectionToRouterAllowed, IsServiceNode.
    by rewrite Hin. }
  assert (Hs1 : ∀ k, Router_HasSessionTo r1 k = Router_HasSessionTo r k).
  { intros k. unfold Router_HasSessionTo. by rewrite Hval. }
  assert (Hnew : ∀ k j,
    pendingEstablishJobs r !! k = None →
    pendingEstablishJobs r1 !! k = Some j →
    ∃ x, x ∈ e :: es ∧ pubkey x.2 = k ∧
         j = {| rc := x.2; link := outboundLink r; triesLeft := 5 |} ∧
         ExpiresSoon x.2 now 30000 = false ∧
         ConnectionToRouterAllowed cfg r k = true ∧
         Router_HasSessionTo r k = false).
  { intros k j Hn Hj. rewrite Hjobs in Hj.
    destruct (decide (pubkey e.2 = k)) as [<-|Hne].
    - rewrite lookup_insert_eq in Hj. injection Hj as <-.
      exists e. split_and!; [by left|done..].
    - rewrite lookup_insert_ne in Hj by done. congruence. }
  assert (Hold : ∀ k j, pendingEstablishJobs r !! k = Some j →
                        pendingEstablishJobs r1 !! k = Some j).
  { intros k j Hj. rewrite Hjobs.
    rewrite lookup_insert_ne; [done|]. intros <-. congruence. }
  destruct (Z.ltb_spec 0 (want - 1)) as [Hw|Hw].
  - destruct (IH r1 (want - 1)%Z (S n))
      as (Hb & Hs & (K1 & K2 & K3 & K4 & K5) & Hm & Ho).
    cbv zeta in *.
    split_and!; try lia; try congruence.
    + intros k j Hj. by apply Hm, Hold.
    + intros k j Hn Hj.
      destruct (pendingEstablishJobs r1 !! k) as [j1|] eqn:E1.
      * rewrite (Hm k j1 E1) in Hj. injection Hj as <-. by apply Hnew.
      * destruct (Ho k j E1 Hj) as (x & Hx & Hpk & Hjx & He & Ha & Hs').
        exists x. rewrite Hal1 in Ha. rewrite Hs1 in Hs'. rewrite Hout in Hjx.
        split_and!; [by right|done..].
  - cbn [fst snd]. split_and!; try lia; try done.
Qed.

(** X18: [ConnectToRandomRouters] starts at most [want] connection attempts,
    or one when [want] is not positive (the visitor tests [want] only after
    it has handled an entry).  Each attempt adds one pending job; the jobs
    that were pending stay as they are, and every new job is for an entry of
    the node database that does not expire within 30 s, that the
    configuration allows and to which there is no session, with 5 retries
    on the outbound link.  The node database, the valid routers and the
    outbound queues are not changed. *)
Theorem ConnectToRandomRouters_attempts (cfg : RouterConfig)
    (now : llarp_time_t) (rnd : nat → Z) (r : Router) (want : Z) :
  let res := ConnectToRandomRouters cfg now rnd r want in
  (0 ≤ want - res.2 ≤ Z.max want 1)%Z ∧
  Z.of_nat (size (pendingEstablishJobs res.1))
    = (Z.of_nat (size (pendingEstablishJobs r)) + (want - res.2))%Z ∧
  nodedb res.1 = nodedb r ∧ validRouters res.1 = validRouters r ∧
  outboundMessageQueue res.1 = outboundMessageQueue r ∧
  (∀ k j, pendingEstablishJobs r !! k = Some j →
          pendingEstablishJobs res.1 !! k = Some j) ∧
  (∀ k j, pendingEstablishJobs r !! k = None →
          pendingEstablishJobs res.1 !! k = Some j →
     ∃ e, e ∈ NodeDB.entries (nodedb r) ∧ pubkey e.2 = k ∧
          j = {| rc := e.2; link := outboundLink r; triesLeft := 5 |} ∧
          ExpiresSoon e.2 now 30000 = false ∧
          ConnectionToRouterAllowed cfg r k = true ∧
          Router_HasSessionTo r k = false).
Proof.
  unfold ConnectToRandomRouters, NodeDB.visit.
  pose proof (ConnectToRandomRouters_visits cfg now rnd
                (NodeDB.entries (nodedb r)) r want 0%nat)
    as (Hb & Hs & (K1 & K2 & K3 & _) & Hm & Ho).
  cbv zeta in *.
  destruct (NodeDB.visit_entries _ _ _) as [[r' want'] n'].
  cbn [fst snd] in *. split_and!; try lia; done.
Qed.
End random_connect_proofs.

Section path_more_proofs.
Import path.
Context `{!PathConstants}.

(** X20: what one [Tick] can do to a path.  It sends at most one latency
    probe, and only when no probe is outstanding and the last one is more
    than 5 s old; the probe records its id and the time.  It enters
    [ePathTimeout] or leaves the status alone, and a timeout is reported to
    the profiler and then to the path set, after the probe if one was sent.
    The build time, the introduction, the time of the last message, the
    roles and the dead-check callback are never changed, and a path whose
    status is [ePathTimeout] or [ePathExpired] is left untouched. *)
Theorem Tick_effects (p : Path) (now rnd : Z) :
  (∃ probe timed_out : bool,
     (Tick p now rnd).2
       = (if probe then [SendRoutingMessage_PathLatency rnd] else [])
         ++ (if timed_out then [MarkPathFail; HandlePathBuildTimeout] else []) ∧
     _status (data (Tick p now rnd).1)
       = (if timed_out then ePathTimeout else _status (data p)) ∧
     m_LastLatencyTestID (data (Tick p now rnd).1)
       = (if probe then rnd else m_LastLatencyTestID (data p)) ∧
     m_LastLatencyTestTime (data (Tick p now rnd).1)
       = (if probe then now else m_LastLatencyTestTime (data p)) ∧
     (probe = true →
      m_LastLatencyTestID (data p) = 0 ∧
      5000 < sub64 now (m_LastLatencyTestTime (data p)))%Z ∧
     (timed_out = true → Expired p now = false)) ∧
  buildStarted (data (Tick p now rnd).1) = buildStarted (data p) ∧
  intro (data (Tick p now rnd).1) = intro (data p) ∧
  m_LastRecvMessage (data (Tick p now rnd).1) = m_LastRecvMessage (data p) ∧
  _role (data (Tick p now rnd).1) = _role (data p) ∧
  m_CheckForDead (Tick p now rnd).1 = m_CheckForDead p ∧
  (_status (data p) = ePathTimeout ∨ _status (data p) = ePathExpired →
   Tick p now rnd = (p, [])).
Proof.
  assert (Hterm : _status (data p) = ePathTimeout ∨
                  _status (data p) = ePathExpired → Tick p now rnd = (p, [])).
  { intros Hst. unfold Tick, Expired. by destruct Hst as [-> | ->]. }
  split; [|split_and!; try exact Hterm];
    unfold Tick; destruct (Expired p now) eqn:Hexp;
    try done; try (by exists false, false).
  all: destruct (bool_decide (_status (data p) = ePathBuilding)
                 && (buildStarted (data p) <=? now)%Z
                 && (PATH_BUILD_TIMEOUT <=? sub64 now (buildStarted (data p)))%Z);
    try done; try (by exists false, true).
  all: unfold latency_test;
    destruct ((5000 <? sub64 now (m_LastLatencyTestTime (data p)))%Z
              && (m_LastLatencyTestID (data p) =? 0)%Z) eqn:Hprobe;
    cbn [fst snd data with_data set_latency_test _status m_LastRecvMessage
         m_CheckForDead];
    repeat first
      [ destruct (decide (_status (data p) = ePathEstablished)) as [Hst|Hst]
      | match goal with
        | |- context [if ?b then _ else _] => destruct b eqn:?
        | |- context [match m_CheckForDead _ with _ => _ end] =>
            destruct (m_CheckForDead p) eqn:?
        end ];
    try done.
  all: try (apply andb_true_iff in Hprobe as [Hp1 Hp2]).
  all: first
    [ by (exists true, true; split_and!; try done; intros _; lia)
    | by (exists true, false; split_and!; try done; intros _; lia)
    | by (exists false, true)
    | by (exists false, false) ].
Qed.

(** X21: a building path is timed out by the build timeout alone: [Tick]
    enters [ePathTimeout] exactly when the clock has not gone back behind
    the start of the build and at least [PATH_BUILD_TIMEOUT] has passed
    since; the profiler and the path set are told and no latency probe is
    sent in that tick.  Otherwise the path stays [ePathBuilding]. *)
Theorem Tick_building (p : Path) (now rnd : Z) :
  _status (data p) = ePathBuilding →
  if (buildStarted (data p) <=? now)%Z
     && (PATH_BUILD_TIMEOUT <=? sub64 now (buildStarted (data p)))%Z
  then
    _status (data (Tick p now rnd).1) = ePathTimeout ∧
    (Tick p now rnd).2 = [MarkPathFail; HandlePathBuildTimeout] ∧
    m_LastLatencyTestID (data (Tick p now rnd).1)
      = m_LastLatencyTestID (data p)
  else
    (_status (data (Tick p now rnd).1) = ePathBuilding ∧
     (MarkPathFail ∉ (Tick p now rnd).2) ∧
     (HandlePathBuildTimeout ∉ (Tick p now rnd).2)).
Proof.
  intros Hst. unfold Tick, Expired. rewrite Hst.
  rewrite bool_decide_eq_true_2 by done. cbn [andb].
  destruct ((buildStarted (data p) <=? now)%Z
            && (PATH_BUILD_TIMEOUT <=? sub64 now (buildStarted (data p)))%Z).
  { done. }
  pose proof (latency_test_keeps p now rnd) as (Ks & _ & _ & _ & Ke).
  assert (Hh : HandlePathBuildTimeout ∉ (latency_test p now rnd).2).
  { unfold latency_test. destruct (_ && _); simpl.
    - intros Hin. apply list_elem_of_singleton in Hin. discriminate.
    - apply not_elem_of_nil. }
  destruct (latency_test p now rnd) as [p1 evs]. cbn [fst snd] in *.
  destruct (decide (_status (data p1) = ePathEstablished)) as [He|He];
    [congruence|].
  cbn [fst snd]. split_and!; [congruence|done|done].
Qed.
End path_more_proofs.

Section pathcontext_more_proofs.
Import path.
Context `{!TransitHopExpiry}.

Lemma find_Some_elem {A} (f : A → bool) (l : list A) (x : A) :
  List.find f l = Some x → x ∈ l ∧ f x = true.
Proof.
  intros Hf. apply find_some in Hf as [Hin Hx]. by apply list_elem_of_In in Hin.
Qed.

Lemma find_None_elem {A} (f : A → bool) (l : list A) :
  List.find f l = None ↔ ∀ x, x ∈ l → f x = false.
Proof.
  split.
  - intros Hf x Hx. apply (find_none _ _ Hf). by apply list_elem_of_In.
  - intros Hall. induction l as [|a l IH]; [done|]. simpl.
    rewrite (Hall a) by (by left). apply IH. intros x Hx. apply Hall. by right.
Qed.

Lemma equal_range_filter {V} (k : N) (Q : V → bool) (m : list (N * V)) :
  equal_range k (filter (λ kv, Q kv.2 = false) m)
    = filter (λ v, Q v = false) (equal_range k m).
Proof.
  unfold equal_range. induction m as [|[k' v] m IH]; [done|].
  rewrite (filter_cons (λ kv, Q kv.2 = false)),
          (filter_cons (λ kv, kv.1 = k) (k', v)).
  cbn [fst snd].
  destruct (decide (Q v = false)) as [Hq|Hq];
    destruct (decide (k' = k)) as [Hk|Hk];
    rewrite ?fmap_cons; cbn [fst snd];
    rewrite ?(filter_cons (λ kv : N * V, kv.1 = k)),
            ?(filter_cons (λ v, Q v = false)); cbn [fst snd];
    rewrite ?decide_True, ?decide_False by done;
    rewrite ?fmap_cons; cbn [fst snd]; by rewrite ?IH.
Qed.

Lemma find_filter {A} (f Q : A → bool) (l : list A) :
  List.find f (filter (λ v, Q v = false) l)
    = List.find (λ v, f v && negb (Q v)) l.
Proof.
  induction l as [|a l IH]; [done|]. rewrite filter_cons. simpl.
  destruct (decide (Q a = false)) as [Hq|Hq].
  - simpl. rewrite Hq, andb_true_r. by destruct (f a).
  - apply not_false_is_true in Hq. by rewrite Hq, andb_false_r.
Qed.

(** X22: the transit lookups are sound and complete for the index.  A hop
    returned by [GetByDownstream], by [GetPathForTransfer] or, as a transit
    hop, by [GetByUpstream] is indexed under the id asked for and has the
    router asked for on the side asked for; the first two return nothing
    only when no indexed hop qualifies.  [HasTransitHop] holds exactly when
    a hop with that info is indexed under the info's [txID], and when no own
    path set answers, [GetByUpstream] for this router is
    [GetPathForTransfer]. *)
Theorem transit_lookups_sound_complete (ctx : PathContext) (remote : RouterID)
    (id : PathID_t) (i : TransitHopInfo) :
  match GetByDownstream ctx remote id with
  | Some (TransitHandler h) =>
      (id, h) ∈ m_TransitPaths ctx ∧ downstream (info h) = remote
  | Some (OwnedPath _) => False
  | None => ∀ h, (id, h) ∈ m_TransitPaths ctx → downstream (info h) ≠ remote
  end ∧
  match GetPathForTransfer ctx remote id with
  | Some (TransitHandler h) =>
      (id, h) ∈ m_TransitPaths ctx ∧ upstream (info h) = remote
  | Some (OwnedPath _) => False
  | None => ∀ h, (id, h) ∈ m_TransitPaths ctx → upstream (info h) ≠ remote
  end ∧
  (∀ h, GetByUpstream ctx remote id = Some (TransitHandler h) →
        (id, h) ∈ m_TransitPaths ctx ∧ upstream (info h) = remote) ∧
  (MapGet (m_OurPaths ctx) id (λ _, true)
     (λ p, OwnedPath <$> PathSet_GetByUpstream p remote id) = None →
   GetByUpstream ctx remote id = GetPathForTransfer ctx remote id) ∧
  (HasTransitHop ctx i = true ↔
   ∃ h, (txID i, h) ∈ m_TransitPaths ctx ∧ info h = i).
Proof.
  assert (Hfind : ∀ (side : TransitHopInfo → RouterID),
    match List.find (λ hop, bool_decide (side (info hop) = remote))
            (equal_range id (m_TransitPaths ctx)) with
    | Some h => (id, h) ∈ m_TransitPaths ctx ∧ side (info h) = remote
    | None => ∀ h, (id, h) ∈ m_TransitPaths ctx → side (info h) ≠ remote
    end).
  { intros side. destruct (List.find _ _) as [h|] eqn:E.
    - apply find_Some_elem in E as [Hin Hs].
      split; [by apply equal_range_elem|by apply bool_decide_eq_true_1 in Hs].
    - intros h Hin. apply equal_range_elem in Hin.
      pose proof (proj1 (find_None_elem _ _) E h Hin) as Hs.
      by apply bool_decide_eq_false_1 in Hs. }
  split_and!.
  - unfold GetByDownstream, MapGet. specialize (Hfind downstream).
    by destruct (List.find _ _).
  - unfold GetPathForTransfer. specialize (Hfind upstream).
    by destruct (List.find _ _).
  - intros h. unfold GetByUpstream.
    destruct (MapGet (m_OurPaths ctx) id _ _) as [o|] eqn:Eo.
    + intros [= ->]. unfold MapGet in Eo.
      destruct (List.find _ _); [|done].
      by destruct (PathSet_GetByUpstream _ _ _).
    + unfold MapGet. specialize (Hfind upstream).
      destruct (List.find _ _); [|done]. by intros [= ->].
  - intros Hown. unfold GetByUpstream, GetPathForTransfer. rewrite Hown.
    unfold MapGet. by destruct (List.find _ _).
  - unfold HasTransitHop, MapHas.
    destruct (List.find _ _) as [h|] eqn:E.
    + apply find_Some_elem in E as [Hin Hs]. split; [|done]. intros _.
      exists h. split; [by apply equal_range_elem|].
      by apply bool_decide_eq_true_1 in Hs.
    + split; [done|]. intros (h & Hin & Hi). apply equal_range_elem in Hin.
      pose proof (proj1 (find_None_elem _ _) E h Hin) as Hs.
      apply bool_decide_eq_false_1 in Hs. by subst.
Qed.

(** X23: [ExpirePaths] removes from the index exactly the entries of the hops
    that have expired, so a lookup afterwards finds the first hop that
    qualifies and has not expired, even one that an expired hop used to
    hide.  The own paths and the transit switch are not changed, and exactly
    the builders that are not null are told to expire their paths. *)
Theorem ExpirePaths_drops_expired (ctx : PathContext)
    (builders : list (option N)) (now : llarp_time_t) (remote : RouterID)
    (id : PathID_t) :
  (∀ k h, (k, h) ∈ m_TransitPaths (ExpirePaths ctx builders now).1 ↔
          (k, h) ∈ m_TransitPaths ctx ∧ TransitHop_Expired h now = false) ∧
  GetByDownstream (ExpirePaths ctx builders now).1 remote id
    = TransitHandler <$>
        List.find (λ h, bool_decide (downstream (info h) = remote)
                        && negb (TransitHop_Expired h now))
          (equal_range id (m_TransitPaths ctx)) ∧
  GetPathForTransfer (ExpirePaths ctx builders now).1 remote id
    = TransitHandler <$>
        List.find (λ h, bool_decide (upstream (info h) = remote)
                        && negb (TransitHop_Expired h now))
          (equal_range id (m_TransitPaths ctx)) ∧
  m_OurPaths (ExpirePaths ctx builders now).1 = m_OurPaths ctx ∧
  m_AllowTransit (ExpirePaths ctx builders now).1 = m_AllowTransit ctx ∧
  (∀ b, (b, now) ∈ (ExpirePaths ctx builders now).2 ↔ Some b ∈ builders).
Proof.
  unfold ExpirePaths. cbn [fst snd m_TransitPaths m_OurPaths m_AllowTransit].
  split_and!; try done.
  - intros k h. rewrite list_elem_of_filter. simpl.
    split; intros [? ?]; by split.
  - unfold GetByDownstream, MapGet. cbn [m_TransitPaths].
    rewrite (equal_range_filter id (λ h, TransitHop_Expired h now)).
    rewrite find_filter. by destruct (List.find _ _).
  - unfold GetPathForTransfer. cbn [m_TransitPaths].
    rewrite (equal_range_filter id (λ h, TransitHop_Expired h now)).
    by rewrite find_filter.
  - intros b. rewrite list_elem_of_omap. split.
    + intros ([x|] & Hin & Hx); simpl in Hx; [|done]. by injection Hx as ->.
    + intros Hin. by exists (Some b).
Qed.

(** X24: the index keeps every transit hop under both of its ids or under
    neither: [PutTransitHop] adds a hop under both, and [ExpirePaths] drops
    a hop under both, because the two entries hold the same hop. *)
Theorem index_stays_in_pairs (ctx : PathContext) :
  indexed_in_pairs ctx →
  (∀ h, indexed_in_pairs (PutTransitHop ctx h)) ∧
  (∀ builders now, indexed_in_pairs (ExpirePaths ctx builders now).1).
Proof.
  intros Hp. split.
  - intros h k hop Hin. rewrite !PutTransitHop_elem.
    apply PutTransitHop_elem in Hin as [Hin|[-> _]].
    + destruct (Hp k hop Hin). auto.
    + auto.
  - intros builders now k hop Hin. unfold ExpirePaths in *.
    cbn [fst m_TransitPaths] in *.
    apply list_elem_of_filter in Hin as [Hq Hin]. simpl in Hq.
    destruct (Hp k hop Hin). rewrite !list_elem_of_filter. auto.
Qed.
End pathcontext_more_proofs.

Section path_new_proofs.
Import path.
Context `{!PathConstants}.

Lemma stitch_prefix (hops : list PathHopConfig) (k : nat) :
  (k ≤ length hops - 1)%nat →
  ∀ i,
    foldl (λ hs idx,
             match hs !! (idx + 1)%nat with
             | Some next => alter (set_hop_txID (hop_rxID next)) idx hs
             | None => hs
             end) hops (seq 0 k) !! i
    = if decide (i < k)%nat
      then (λ a, match hops !! S i with
                 | Some b => set_hop_txID (hop_rxID b) a
                 | None => a
                 end) <$> hops !! i
      else hops !! i.
Proof.
  induction k as [|k IH]; intros Hk i; [done|].
  rewrite seq_S, foldl_app. cbn [foldl]. rewrite Nat.add_0_l.
  assert (Hk' : (k ≤ length hops - 1)%nat) by lia.
  specialize (IH Hk').
  set (hs := foldl _ hops (seq 0 k)) in *.
  rewrite (IH (k + 1)%nat). rewrite decide_False by lia.
  destruct (lookup_lt_is_Some_2 hops (k + 1)%nat) as [b Hb]; [lia|].
  rewrite Hb. destruct (decide (k = i)) as [<-|Hne].
  - rewrite list_lookup_alter, decide_True by done.
    rewrite (IH k), decide_False by lia. rewrite decide_True by lia.
    replace (S k) with (k + 1)%nat by lia. by rewrite Hb.
  - rewrite list_lookup_alter_ne by done. rewrite (IH i).
    destruct (decide (i < k)%nat); [by rewrite decide_True by lia|].
    by rewrite decide_False by lia.
Qed.

Lemma stitch_hops_lookup (hops : list PathHopConfig) (i : nat) :
  stitch_hops hops !! i
  = (λ a, match hops !! S i with
          | Some b => set_hop_txID (hop_rxID b) a
          | None => a
          end) <$> hops !! i.
Proof.
  unfold stitch_hops. rewrite stitch_prefix by done.
  destruct (decide (i < length hops - 1)%nat) as [Hi|Hi]; [done|].
  destruct (hops !! i) as [a|] eqn:Ha; [|done]. simpl.
  by rewrite (lookup_ge_None_2 hops (S i)) by lia.
Qed.

(** X25: the constructor of [Path] stitches the hops: hop [i] carries the
    [i]-th RC and the rx id drawn for it, and its tx id is the rx id of hop
    [i + 1]; the last hop keeps the tx id drawn for it.  The introduction
    names the last hop's router and tx id, and the path starts in
    [ePathBuilding] at [now] with the starting roles and no dead-check
    callback. *)
Theorem Path_new_stitches (rc0 : RouterContact) (h' : list RouterContact)
    (now : llarp_time_t) (roles : Z) (rnd : nat → PathID_t) (d0 : PathData) :
  ∃ hops p,
    Path_new (rc0 :: h') now roles rnd d0
      = Some (hops, p, [LogInfo "path is building"]) ∧
    length hops = S (length h') ∧
    (∀ i x, (rc0 :: h') !! i = Some x →
       ∃ hop, hops !! i = Some hop ∧ hop_rc hop = x ∧
              hop_rxID hop = rnd (2 * i + 1)%nat ∧
              hop_txID hop = (if decide (i < length h')%nat
                              then rnd (2 * S i + 1)%nat
                              else rnd (2 * i)%nat)) ∧
    (∀ i a b, hops !! i = Some a → hops !! S i = Some b →
              hop_txID a = hop_rxID b) ∧
    router (intro (data p)) = pubkey (default rc0 (last h')) ∧
    pathID (intro (data p)) = rnd (2 * length h')%nat ∧
    _status (data p) = ePathBuilding ∧ buildStarted (data p) = now ∧
    _role (data p) = roles ∧ m_CheckForDead p = None.
Proof.
  set (h := rc0 :: h').
  assert (Hh : length h = S (length h')) by done.
  set (hops := stitch_hops (randomized_hops h rnd)).
  assert (Hlook : ∀ i x, h !! i = Some x →
    hops !! i = Some {| hop_rc := x;
                        hop_txID := (if decide (i < length h')%nat
                                     then rnd (2 * S i + 1)%nat
                                     else rnd (2 * i)%nat);
                        hop_rxID := rnd (2 * i + 1)%nat |}).
  { intros i x Hx. unfold hops. rewrite stitch_hops_lookup.
    unfold randomized_hops. rewrite !list_lookup_imap, Hx.
    destruct (decide (i < length h')%nat) as [Hi|Hi].
    - destruct (lookup_lt_is_Some_2 h (S i)) as [y Hy]; [lia|].
      by rewrite Hy.
    - by rewrite (lookup_ge_None_2 h (S i)) by lia. }
  assert (Hlen : length hops = S (length h')).
  { apply Nat.le_antisymm.
    - destruct (Nat.le_gt_cases (length hops) (S (length h'))) as [?|Hgt];
        [done|].
      destruct (lookup_lt_is_Some_2 hops (S (length h'))) as [a Ha]; [lia|].
      unfold hops in Ha. rewrite stitch_hops_lookup in Ha.
      unfold randomized_hops in Ha. rewrite !list_lookup_imap in Ha.
      by rewrite (lookup_ge_None_2 h (S (length h'))) in Ha by lia.
    - destruct (lookup_lt_is_Some_2 h (length h')) as [x Hx]; [lia|].
      apply Hlook in Hx. apply lookup_lt_Some in Hx. lia. }
  assert (Hlast : h !! length h' = Some (default rc0 (last h'))).
  { unfold h. clear. destruct h' as [|a l]; [done|].
    rewrite last_lookup. cbn [length Init.Nat.pred].
    change ((rc0 :: a :: l) !! S (length l)) with ((a :: l) !! length l).
    destruct (lookup_lt_is_Some_2 (a :: l) (length l)) as [x Hx];
      [simpl; lia|]. by rewrite Hx. }
  pose proof (Hlook _ _ Hlast) as Hl. rewrite decide_False in Hl by lia.
  unfold Path_new. fold h. fold hops.
  rewrite last_lookup, Hlen. cbn [Init.Nat.pred]. rewrite Hl.
  cbn [EnterState hop_rc hop_txID]. eexists _, _. split; [done|].
  split_and!; try done.
  - intros i x Hx. eexists. split; [by apply Hlook|done].
  - intros i a b Ha Hb.
    assert (Hi : (S i < length hops)%nat) by (by eapply lookup_lt_Some).
    destruct (lookup_lt_is_Some_2 h i) as [x Hx]; [lia|].
    destruct (lookup_lt_is_Some_2 h (S i)) as [y Hy]; [lia|].
    rewrite (Hlook _ _ Hx) in Ha. rewrite (Hlook _ _ Hy) in Hb.
    injection Ha as <-. injection Hb as <-. simpl.
    by rewrite decide_True by lia.
Qed.

Lemma bufbe64toh_fold (bs : list Byte.byte) (acc : Z) :
  (0 ≤ acc)%Z →
  (0 ≤ foldl (λ acc b, acc * 256 + Z.of_N (Byte.to_N b)) acc bs
     < (acc + 1) * 256 ^ Z.of_nat (length bs))%Z.
Proof.
  revert acc. induction bs as [|b bs IH]; intros acc Hacc.
  { simpl. lia. }
  cbn [foldl length]. pose proof (Byte.to_N_bounded b) as Hb.
  specialize (IH (acc * 256 + Z.of_N (Byte.to_N b))%Z).
  destruct IH as [I1 I2]; [lia|]. split; [done|].
  eapply Z.lt_le_trans; [exact I2|].
  rewrite Nat2Z.inj_succ, Z.pow_succ_r by lia.
  assert (0 < 256 ^ Z.of_nat (length bs))%Z by (apply Z.pow_pos_nonneg; lia).
  nia.
Qed.

Lemma bufbe64toh_range (bs : list Byte.byte) :
  (0 ≤ bufbe64toh bs < 2 ^ 64)%Z.
Proof.
  unfold bufbe64toh.
  pose proof (bufbe64toh_fold (take 8 bs) 0%Z ltac:(lia)) as [B1 B2].
  split; [done|]. eapply Z.lt_le_trans; [exact B2|].
  rewrite Z.mul_1_l. change (2 ^ 64)%Z with (256 ^ 8)%Z.
  apply Z.pow_le_mono_r; [lia|]. rewrite length_take. lia.
Qed.

Lemma deliver_packets_all (X : list (list Byte.byte)) :
  Forall (λ pkt, 8 < length pkt)%nat X ↔
  deliver_packets X
    = (map (λ pkt, ExitTrafficHandler (drop 8 pkt) (bufbe64toh pkt)) X, true).
Proof.
  induction X as [|pkt X IH]; [done|]. cbn [deliver_packets map].
  rewrite Forall_cons. destruct (Nat.leb_spec (length pkt) 8) as [Hs|Hs].
  - split; [intros [? _]; lia|done].
  - destruct (deliver_packets X) as [evs fin]. split.
    + intros [_ HX]. apply IH in HX. by injection HX as -> ->.
    + intros [= -> ->]. split; [done|]. by apply IH.
Qed.

Lemma deliver_packets_short (good : list (list Byte.byte))
    (bad : list Byte.byte) (rest : list (list Byte.byte)) :
  Forall (λ pkt, 8 < length pkt)%nat good → (length bad ≤ 8)%nat →
  deliver_packets (good ++ bad :: rest)
    = (map (λ pkt, ExitTrafficHandler (drop 8 pkt) (bufbe64toh pkt)) good,
       false).
Proof.
  intros Hg Hb. induction Hg as [|pkt good Hp Hg IH]; cbn [app deliver_packets].
  - by destruct (Nat.leb_spec (length bad) 8); [|lia].
  - destruct (Nat.leb_spec (length pkt) 8); [lia|]. by rewrite IH.
Qed.

Lemma deliver_packets_calls (X : list (list Byte.byte)) (ev : TrafficEvent) :
  ev ∈ (deliver_packets X).1 →
  ∃ pkt, pkt ∈ X ∧ (8 < length pkt)%nat ∧
         ev = ExitTrafficHandler (drop 8 pkt) (bufbe64toh pkt).
Proof.
  induction X as [|pkt X IH]; cbn [deliver_packets].
  { intros Hin. by apply elem_of_nil in Hin. }
  destruct (Nat.leb_spec (length pkt) 8) as [Hs|Hs].
  { intros Hin. by apply elem_of_nil in Hin. }
  destruct (deliver_packets X) as [evs fin]. cbn [fst] in *.
  rewrite elem_of_cons. intros [->|Hin].
  - exists pkt. split_and!; [by left|done|done].
  - destruct (IH Hin) as (q & Hq & Hrest). exists q. split; [by right|done].
Qed.

(** X26: exit traffic.  [HandleTransferTrafficMessage] accepts a message
    exactly when the path has the exit or the service role, a traffic
    handler is set, the message has at least one packet and every packet is
    longer than 8 bytes; the handler then gets every packet in order.  When
    a packet is too short the message is refused, but the packets before it
    have been handed over already.  The handler never gets an empty payload,
    and the counter it gets is a 64-bit number.  A path without those roles
    is not even marked active. *)
Theorem HandleTransferTrafficMessage_delivery (p : Path) (has_handler : bool)
    (X : list (list Byte.byte)) (now : llarp_time_t) :
  ((HandleTransferTrafficMessage p has_handler X now).1 = true ↔
   SupportsAnyRoles p (Z.lor ePathRoleExit ePathRoleSVC) = true ∧
   has_handler = true ∧ X ≠ [] ∧
   Forall (λ pkt, 8 < length pkt)%nat X) ∧
  (SupportsAnyRoles p (Z.lor ePathRoleExit ePathRoleSVC) = true →
   has_handler = true →
   (Forall (λ pkt, 8 < length pkt)%nat X →
    (HandleTransferTrafficMessage p has_handler X now).2
      = MarkActive now ::
        map (λ pkt, ExitTrafficHandler (drop 8 pkt) (bufbe64toh pkt)) X) ∧
   (∀ good bad rest,
      X = good ++ bad :: rest →
      Forall (λ pkt, 8 < length pkt)%nat good → (length bad ≤ 8)%nat →
      HandleTransferTrafficMessage p has_handler X now
        = (false,
           MarkActive now ::
           map (λ pkt, ExitTrafficHandler (drop 8 pkt) (bufbe64toh pkt))
             good))) ∧
  (∀ payload counter,
     ExitTrafficHandler payload counter
       ∈ (HandleTransferTrafficMessage p has_handler X now).2 →
     payload ≠ [] ∧ (0 ≤ counter < 2 ^ 64)%Z ∧
     ∃ pkt, pkt ∈ X ∧ payload = drop 8 pkt ∧ counter = bufbe64toh pkt) ∧
  (SupportsAnyRoles p (Z.lor ePathRoleExit ePathRoleSVC) = false →
   HandleTransferTrafficMessage p has_handler X now = (false, [])).
Proof.
  unfold HandleTransferTrafficMessage.
  destruct (SupportsAnyRoles p (Z.lor ePathRoleExit ePathRoleSVC)) eqn:Hr;
    cbn [negb].
  2:{ split_and!; try done.
      - split; [done|]. by intros [? _].
      - intros ? ? Hin. by apply elem_of_nil in Hin. }
  destruct has_handler; cbn [negb].
  2:{ split_and!; try done.
      - split; [done|]. by intros (_ & ? & _).
      - intros ? ? Hin. apply list_elem_of_singleton in Hin. discriminate. }
  pose proof (deliver_packets_all X) as Hall.
  pose proof (deliver_packets_calls X) as Hcalls.
  split_and!.
  - destruct (deliver_packets X) as [evs fin] eqn:E. cbn [fst]. split.
    + intros Hres. destruct fin; [|done].
      apply Nat.ltb_lt in Hres.
      assert (Forall (λ pkt, 8 < length pkt)%nat X) as HF.
      { apply Hall. f_equal.
        assert (Hd : deliver_packets X = (evs, true)) by done.
        clear -Hd. revert evs Hd. induction X as [|pkt X IH]; intros evs Hd.
        - by injection Hd as <-.
        - cbn [deliver_packets] in Hd.
          destruct (length pkt <=? 8)%nat; [done|].
          destruct (deliver_packets X) as [evs' fin'].
          injection Hd as <- ->. cbn [map]. f_equal. by apply IH. }
      split_and!; [done|done| |done]. intros ->. simpl in Hres. lia.
    + intros (_ & _ & Hne & HF). apply Hall in HF. injection HF as -> ->.
      apply Nat.ltb_lt. destruct X; [done|]. simpl. lia.
  - intros _ _. split.
    + intros HF. apply Hall in HF. by rewrite HF.
    + intros good bad rest -> Hg Hb.
      by rewrite (deliver_packets_short good bad rest Hg Hb).
  - intros payload counter Hin.
    destruct (deliver_packets X) as [evs fin]. cbn [fst snd] in *.
    apply elem_of_cons in Hin as [Hin|Hin]; [discriminate|].
    destruct (Hcalls _ Hin) as (pkt & Hpkt & Hlen & [= -> ->]).
    split; [|split].
    + intros Hnil. apply (f_equal length) in Hnil.
      rewrite length_drop in Hnil. simpl in Hnil. lia.
    + apply bufbe64toh_range.
    + by exists pkt.
  - done.
Qed.
End path_new_proofs.

Section dht_more_proofs.
Import dht.
Context `{!ContextOps}.

(** X27: how the FindRouter handlers answer.  The path-relayed handler keeps
    the replies it was given and adds either one reply or one lookup, never
    both; it fails exactly when it is asked for this router's own key over a
    path it does not know, and a request for the own key is never answered
    from the node database nor forwarded.  For another key the node database
    is asked first, and only a miss can start a lookup, towards the closest
    node if there is one.  The direct handler, once past its guards and not
    exploring, answers from the node database without starting a lookup when
    it has the key, and otherwise hands the lookup on. *)
Theorem FindRouter_reply_policy (m : FindRouterMessage)
    (rm : RelayedFindRouterMessage) (ctx : Context) (rs : list IMessage) :
  rs `prefix_of` replies (RelayedFindRouterMessage_HandleMessage rm ctx rs) ∧
  (length (replies (RelayedFindRouterMessage_HandleMessage rm ctx rs))
   + length (calls (RelayedFindRouterMessage_HandleMessage rm ctx rs))
   ≤ length rs + 1)%nat ∧
  (ret (RelayedFindRouterMessage_HandleMessage rm ctx rs) = false ↔
   K (base rm) = OurKey ctx ∧
   path.GetByUpstream (router_pathContext ctx) (K (base rm)) (pathID rm)
     = None) ∧
  (K (base rm) = OurKey ctx →
   calls (RelayedFindRouterMessage_HandleMessage rm ctx rs) = [] ∧
   ∀ x, x ∈ replies (RelayedFindRouterMessage_HandleMessage rm ctx rs) →
        x ∈ rs ∨
        x = GotRouterMessage (K (base rm)) (txid (base rm)) [router_rc ctx]
              false) ∧
  (K (base rm) ≠ OurKey ctx →
   match nodedb_Get ctx (K (base rm)) with
   | Some found =>
       RelayedFindRouterMessage_HandleMessage rm ctx rs
       = {| ret := true;
            replies := rs ++ [GotRouterMessage (K (base rm)) (txid (base rm))
                                [found] false];
            calls := [] |}
   | None =>
       replies (RelayedFindRouterMessage_HandleMessage rm ctx rs) = rs ∧
       calls (RelayedFindRouterMessage_HandleMessage rm ctx rs)
       = match FindClosest (nodes ctx) (K (base rm)) with
         | Some peer =>
             [LookupRouterForPath (K (base rm)) (txid (base rm)) (pathID rm)
                peer]
         | None => []
         end
   end) ∧
  (allowTransit ctx = true →
   (From m, txid m) ∉ pendingRouterLookups ctx →
   exploritory m = false →
   ret (FindRouterMessage_HandleMessage m ctx rs) = true ∧
   match nodedb_Get ctx (K m) with
   | Some found =>
       replies (FindRouterMessage_HandleMessage m ctx rs)
       = rs ++ [GotRouterMessage (K m) (txid m) [found] false] ∧
       calls (FindRouterMessage_HandleMessage m ctx rs) = []
   | None =>
       calls (FindRouterMessage_HandleMessage m ctx rs)
       = [LookupRouterRelayed (From m) (txid m) (K m) (negb (iterative m))]
   end).
Proof.
  unfold RelayedFindRouterMessage_HandleMessage.
  split_and!.
  - repeat case_match; cbn [replies]; first [done|by apply prefix_app_r].
  - repeat case_match; cbn [replies calls]; rewrite ?length_app; simpl; lia.
  - repeat case_match; cbn [ret]; split; try done; by intros [? ?].
  - intros Hus. rewrite decide_True by done.
    destruct (path.GetByUpstream _ _ _); cbn [replies calls].
    + split; [done|]. intros x Hx. apply elem_of_app in Hx as [Hx|Hx];
        [by left|]. apply list_elem_of_singleton in Hx. by right.
    + split; [done|]. by left.
  - intros Hne. rewrite decide_False by done.
    destruct (nodedb_Get ctx (K (base rm))); [done|].
    by destruct (FindClosest _ _).
  - intros Ha Hp He. unfold FindRouterMessage_HandleMessage, HasPendingLookupFrom.
    rewrite Ha, He, bool_decide_eq_false_2 by done. cbn [negb].
    by destruct (nodedb_Get ctx (K m)).
Qed.
End dht_more_proofs.

Section service_proofs.
Import service.
Context `{!EndpointOps}.

Lemma endpointType_last (opts : list (string * string)) (t : string) :
  endpointType (opts ++ [("type", t)]) = t.
Proof. unfold endpointType. by rewrite foldl_app. Qed.

(** X28: [AddEndpoint] either adds exactly one endpoint under the section's
    name or changes nothing.  It refuses a name that is taken, a type other
    than [tun] and [null] (the last [type] option decides, [tun] when there
    is none), an option the endpoint rejects, and, with [autostart], an
    endpoint that does not start.  On success the name was free, the stored
    endpoint is the constructed one after its options were set (and after
    [Start] with [autostart]), and no other endpoint and no stopped endpoint
    is touched.  A [type] option among the options of [AddDefaultEndpoint]
    overrides the [tun] type that it puts first (shown for [null]). *)
Theorem AddEndpoint_outcome (ctx : Context) (name : string)
    (opts : list (string * string)) (autostart : bool) :
  m_Stopped (AddEndpoint ctx (name, opts) autostart).1 = m_Stopped ctx ∧
  (∀ k, k ≠ name →
     m_Endpoints (AddEndpoint ctx (name, opts) autostart).1 !! k
     = m_Endpoints ctx !! k) ∧
  ((AddEndpoint ctx (name, opts) autostart).2 = false →
   (AddEndpoint ctx (name, opts) autostart).1 = ctx) ∧
  ((AddEndpoint ctx (name, opts) autostart).2 = true →
   m_Endpoints ctx !! name = None ∧
   ∃ construct service,
     endpointConstructors (endpointType opts) = Some construct ∧
     (construct = TunEndpoint ∨ construct = NullEndpoint) ∧
     configure (construct name) opts = Some service ∧
     (autostart = true → (Start service).2 = true) ∧
     m_Endpoints (AddEndpoint ctx (name, opts) autostart).1 !! name
     = Some (if autostart then (Start service).1 else service)) ∧
  (is_Some (m_Endpoints ctx !! name) →
   AddEndpoint ctx (name, opts) autostart = (ctx, false)) ∧
  (∀ t, t ≠ "tun" → t ≠ "null" →
     AddEndpoint ctx (name, opts ++ [("type", t)]) autostart = (ctx, false)) ∧
  (∀ more, AddDefaultEndpoint ctx (opts ++ ("type", "null") :: more) autostart
           = AddEndpoint ctx
               ("default",
                ("type", "tun") :: opts ++ ("type", "null") :: more)
               autostart ∧
           (("type" ∉ more.*1) →
            endpointType (("type", "tun") :: opts ++ ("type", "null") :: more)
            = "null")).
Proof.
  unfold AddEndpoint. cbn [fst snd].
  split_and!.
  - repeat case_match; done.
  - intros k Hk. repeat case_match; try done; cbn [fst m_Endpoints];
      by rewrite lookup_insert_ne.
  - repeat case_match; done.
  - destruct (bool_decide (is_Some (m_Endpoints ctx !! name))) eqn:Hdup;
      [done|].
    apply bool_decide_eq_false_1 in Hdup.
    assert (Hfree : m_Endpoints ctx !! name = None)
      by (by apply eq_None_not_Some).
    destruct (endpointConstructors (endpointType opts)) as [construct|] eqn:Hc;
      [|done].
    destruct (configure (construct name) opts) as [service|] eqn:Hs; [|done].
    assert (Hkind : construct = TunEndpoint ∨ construct = NullEndpoint).
    { unfold endpointConstructors in Hc.
      repeat case_decide; [left|right|]; congruence. }
    destruct autostart.
    + destruct (Start service) as [service' ok] eqn:Hst. destruct ok; [|done].
      intros _. split; [done|]. exists construct, service.
      cbn [fst snd m_Endpoints]. rewrite lookup_insert_eq, Hst.
      by split_and!.
    + intros _. split; [done|]. exists construct, service.
      cbn [fst snd m_Endpoints]. rewrite lookup_insert_eq. by split_and!.
  - intros Hdup. by rewrite bool_decide_eq_true_2.
  - intros t Ht1 Ht2. rewrite endpointType_last. unfold endpointConstructors.
    rewrite !decide_False by done. by case_match.
  - intros more. split; [done|]. intros Hno.
    unfold endpointType. cbn [foldl]. rewrite decide_True by done.
    rewrite foldl_app. cbn [foldl fst snd]. rewrite decide_True by done.
    generalize "null". induction more as [|[k v] more IH]; intros t; [done|].
    cbn [foldl fst snd]. rewrite fmap_cons, not_elem_of_cons in Hno.
    destruct Hno as [Hk Hno]. rewrite decide_False by done. by apply IH.
Qed.

Lemma StartAll_from_spec (l : list (string * Endpoint))
    (m : gmap string Endpoint) :
  NoDup l.*1 →
  (∀ k e, (k, e) ∈ l → m !! k = Some e) →
  dom (StartAll_from l m).1 = dom m ∧
  ((StartAll_from l m).2 = true ↔ ∀ k e, (k, e) ∈ l → (Start e).2 = true) ∧
  ((StartAll_from l m).2 = true →
   ∀ k e, (k, e) ∈ l → (StartAll_from l m).1 !! k = Some (Start e).1) ∧
  (∀ k, k ∉ l.*1 → (StartAll_from l m).1 !! k = m !! k).
Proof.
  revert m. induction l as [|[name ep] l IH]; intros m Hnd Hin;
    cbn [StartAll_from].
  { split_and!; try done.
    - split; [|done]. intros _ k e Hk. by apply elem_of_nil in Hk.
    - intros _ k e Hk. by apply elem_of_nil in Hk. }
  rewrite fmap_cons in Hnd. apply NoDup_cons in Hnd as [Hname Hnd].
  cbn [fst] in Hname.
  assert (Hm : m !! name = Some ep) by (apply Hin; by left).
  assert (Hdom : ∀ e', dom (<[name := e']> m) = dom m).
  { intros e'. apply dom_insert_lookup_L. by eexists. }
  destruct (Start ep) as [ep' ok] eqn:Hst. destruct ok.
  - specialize (IH (<[name := ep']> m) Hnd).
    destruct IH as (Id & Iok & Iall & Ikeep).
    { intros k e Hk.
      assert (Hne : name ≠ k).
      { intros <-. apply Hname. apply list_elem_of_fmap. by exists (name, e). }
      rewrite lookup_insert_ne by done. apply Hin. by right. }
    split_and!.
    + by rewrite Id, Hdom.
    + rewrite Iok. split.
      * intros Hall k e Hk. apply elem_of_cons in Hk as [[= -> ->]|Hk];
          [by rewrite Hst|by apply (Hall k)].
      * intros Hall k e Hk. apply (Hall k). by right.
    + intros Hok k e Hk. apply elem_of_cons in Hk as [[= -> ->]|Hk].
      * rewrite Ikeep by done. by rewrite lookup_insert_eq, Hst.
      * by apply Iall.
    + intros k Hk. rewrite fmap_cons, not_elem_of_cons in Hk.
      destruct Hk as [Hk1 Hk2]. cbn [fst] in Hk1.
      rewrite Ikeep by done. by rewrite lookup_insert_ne.
  - cbn [fst snd]. split_and!.
    + apply Hdom.
    + split; [done|]. intros Hall.
      specialize (Hall name ep (ltac:(by left))). by rewrite Hst in Hall.
    + done.
    + intros k Hk. rewrite fmap_cons, not_elem_of_cons in Hk.
      destruct Hk as [Hk1 Hk2]. cbn [fst] in Hk1.
      by rewrite lookup_insert_ne.
Qed.

(** X29: [StartAll] succeeds exactly when every endpoint starts; then every
    endpoint has been started once.  Whether it succeeds or stops at the
    first endpoint that fails, it neither adds nor removes a name and
    leaves the stopped endpoints alone. *)
Theorem StartAll_all_or_first_failure (ctx : Context) :
  ((StartAll ctx).2 = true ↔
   ∀ k e, m_Endpoints ctx !! k = Some e → (Start e).2 = true) ∧
  ((StartAll ctx).2 = true →
   ∀ k e, m_Endpoints ctx !! k = Some e →
          m_Endpoints (StartAll ctx).1 !! k = Some (Start e).1) ∧
  dom (m_Endpoints (StartAll ctx).1) = dom (m_Endpoints ctx) ∧
  m_Stopped (StartAll ctx).1 = m_Stopped ctx.
Proof.
  unfold StartAll.
  pose proof (StartAll_from_spec (map_to_list (m_Endpoints ctx))
                (m_Endpoints ctx)) as Hs.
  destruct Hs as (Hd & Hok & Hall & _).
  { apply NoDup_fst_map_to_list. }
  { intros k e Hk. by apply elem_of_map_to_list. }
  destruct (StartAll_from _ _) as [m ok]. cbn [fst snd m_Endpoints m_Stopped] in *.
  split_and!; try done.
  - rewrite Hok. split.
    + intros Hx k e Hk. apply (Hx k). by apply elem_of_map_to_list.
    + intros Hx k e Hk. apply (Hx k). by apply elem_of_map_to_list.
  - intros Ht k e Hk. apply Hall; [done|]. by apply elem_of_map_to_list.
Qed.

(** X30: stopping endpoints.  [RemoveEndpoint] of a name that is not there
    changes nothing; of a name that is there it takes that endpoint out,
    stops it and keeps it as the last stopped endpoint, so removing an
    endpoint that was just added restores the endpoints that were there
    before.  [StopAll] leaves no endpoint and moves every one, stopped, to
    the stopped endpoints.  [Tick] then forgets exactly the stopped
    endpoints that are done, and ticks the running endpoints without adding
    or removing a name. *)
Theorem endpoints_stop_and_expire (ctx : Context) (name : string)
    (opts : list (string * string)) (autostart : bool) (now : llarp_time_t) :
  (m_Endpoints ctx !! name = None → RemoveEndpoint ctx name = (ctx, false)) ∧
  (∀ ep, m_Endpoints ctx !! name = Some ep →
     RemoveEndpoint ctx name
     = ({| m_Endpoints := delete name (m_Endpoints ctx);
           m_Stopped := m_Stopped ctx ++ [Stop ep] |}, true)) ∧
  ((AddEndpoint ctx (name, opts) autostart).2 = true →
   (RemoveEndpoint (AddEndpoint ctx (name, opts) autostart).1 name).2 = true ∧
   m_Endpoints
     (RemoveEndpoint (AddEndpoint ctx (name, opts) autostart).1 name).1
   = m_Endpoints ctx) ∧
  ((StopAll ctx).2 = true ∧
   hasEndpoints (StopAll ctx).1 = false ∧
   length (m_Stopped (StopAll ctx).1)
   = (length (m_Stopped ctx) + size (m_Endpoints ctx))%nat ∧
   ∀ e, e ∈ m_Stopped (StopAll ctx).1 ↔
        e ∈ m_Stopped ctx ∨
        ∃ k e0, m_Endpoints ctx !! k = Some e0 ∧ e = Stop e0) ∧
  ((∀ e, e ∈ m_Stopped (Tick ctx now) ↔
         e ∈ m_Stopped ctx ∧ ShouldRemove e = false) ∧
   dom (m_Endpoints (Tick ctx now)) = dom (m_Endpoints ctx) ∧
   ∀ k, m_Endpoints (Tick ctx now) !! k
        = (λ ep, Endpoint_Tick ep now) <$> m_Endpoints ctx !! k).
Proof.
  split_and!.
  - intros Hn. unfold RemoveEndpoint. by rewrite Hn.
  - intros ep Hep. unfold RemoveEndpoint. by rewrite Hep.
  - intros Hok.
    assert (Hfree : m_Endpoints ctx !! name = None).
    { unfold AddEndpoint in Hok. cbn [fst snd] in Hok.
      destruct (bool_decide (is_Some (m_Endpoints ctx !! name))) eqn:Hdup;
        [done|].
      apply bool_decide_eq_false_1 in Hdup. by apply eq_None_not_Some. }
    assert (Hadd : ∃ ep, m_Endpoints (AddEndpoint ctx (name, opts) autostart).1
                         = <[name := ep]> (m_Endpoints ctx)).
    { unfold AddEndpoint in *. cbn [fst snd] in *.
      repeat case_match; try done; by eexists. }
    destruct Hadd as [ep Hadd]. unfold RemoveEndpoint.
    rewrite Hadd, lookup_insert_eq. cbn [fst snd m_Endpoints].
    split; [done|]. rewrite delete_insert_eq. by apply delete_id.
  - done.
  - unfold StopAll, hasEndpoints. cbn [fst m_Endpoints]. by rewrite map_size_empty.
  - unfold StopAll. cbn [fst m_Stopped].
    by rewrite length_app, length_fmap, length_fmap, length_map_to_list.
  - intros e. unfold StopAll. cbn [fst m_Stopped].
    rewrite elem_of_app, list_elem_of_fmap. split.
    + intros [?|(e0 & -> & Hin)]; [by left|]. right.
      apply list_elem_of_fmap in Hin as ([k e1] & -> & Hin).
      apply elem_of_map_to_list in Hin. by exists k, e1.
    + intros [?|(k & e0 & Hk & ->)]; [by left|]. right. exists e0.
      split; [done|]. apply list_elem_of_fmap. exists (k, e0).
      split; [done|]. by apply elem_of_map_to_list.
  - intros e. unfold Tick. cbn [m_Stopped]. rewrite list_elem_of_filter.
    split; intros [? ?]; by split.
  - unfold Tick. cbn [m_Endpoints]. by rewrite dom_fmap_L.
  - intros k. unfold Tick. cbn [m_Endpoints]. by rewrite lookup_fmap.
Qed.
End service_proofs.

(** *** The router theorems on a client without sessions *)

#[local] Existing Instance Fixtures.toy_crypto.
#[local] Existing Instance Fixtures.toy_encoder.
#[local] Existing Instance Fixtures.mem_fs.
#[local] Existing Instance Fixtures.raw_messages.
#[local] Existing Instance Fixtures.counting_profiler.

Lemma client_router_no_session (q : list buffer) (remote : RouterID) :
  (∀ l, l ∈ router.inboundLinks (Fixtures.client_router q) →
        router.HasSessionTo l remote = false) ∧
  (∀ l, router.outboundLink (Fixtures.client_router q) = Some l →
        router.HasSessionTo l remote = false).
Proof.
  split.
  - intros l Hl. by apply elem_of_nil in Hl.
  - intros l [= <-]. reflexivity.
Defined.

(** Witness of C3: the ninth message for peer 2 is dropped, the eight queued
    ones stay; on an empty queue the message is appended. *)
Lemma SendToOrQueue_queue_cap_witness :
  router.MessageQueue_of
    (router.SendToOrQueue (Fixtures.client_router Fixtures.full_queue) 2%N
       Fixtures.msg1).1 2%N = Fixtures.full_queue ∧
  router.MessageQueue_of
    (router.SendToOrQueue (Fixtures.client_router []) 2%N Fixtures.msg1).1 2%N
    = [Fixtures.msg1].
Proof.
  split.
  - destruct (SendToOrQueue_queue_cap
                (Fixtures.client_router Fixtures.full_queue) 2%N
                Fixtures.msg1) as (_ & _ & _ & _ & Hfull).
    + apply client_router_no_session.
    + apply client_router_no_session.
    + intros k q Hq. unfold Fixtures.client_router in Hq. simpl in Hq.
      apply lookup_singleton_Some in Hq as [_ <-].
      vm_compute. repeat constructor.
    + apply Hfull. reflexivity.
  - destruct (SendToOrQueue_queue_cap
                (Fixtures.client_router []) 2%N
                Fixtures.msg1) as (_ & _ & _ & Hroom & _).
    + apply client_router_no_session.
    + apply client_router_no_session.
    + intros k q Hq. unfold Fixtures.client_router in Hq. simpl in Hq.
      apply lookup_singleton_Some in Hq as [_ <-].
      vm_compute. repeat constructor.
    + apply Hroom. vm_compute. repeat constructor.
Defined.

(** Witness of C8: [rcBad] does not verify and is adopted. *)
Lemma CheckRenegotiateValid_adopts_unverified_witness :
  Verify Fixtures.rcBad = false ∧
  (router.CheckRenegotiateValid (Fixtures.client_router [])
     Fixtures.rcBad Fixtures.rcBad).2 = true ∧
  router.validRouters
    (router.CheckRenegotiateValid (Fixtures.client_router [])
       Fixtures.rcBad Fixtures.rcBad).1 !! 4%N = Some Fixtures.rcBad.
Proof.
  assert (Hbad : Verify Fixtures.rcBad = false) by (vm_compute; reflexivity).
  destruct (CheckRenegotiateValid_adopts_unverified
              (Fixtures.client_router []) Fixtures.rcBad Fixtures.rcBad
              Hbad eq_refl) as (Hret & Hvalid & _ & _).
  split; [exact Hbad|]. split; [exact Hret|exact Hvalid].
Defined.

(** Witness of C9: after [try_connect] to [rcB] the job stays pending while
    the connect attempt runs, another message is queued for the peer and a
    first connect timeout is retried. *)
Lemma pending_connect_job_lifetime_witness :
  router.HasPendingConnectJob
    (foldl router.exec
       (router.llarp_router_try_connect (Fixtures.client_router [])
          Fixtures.rcB 10).1
       [router.op_on_try_connecting 2%N;
        router.op_SendToOrQueue 2%N Fixtures.link_msg1;
        router.op_OnConnectTimeout 2%N]) 2%N = true.
Proof.
  destruct (pending_connect_job_lifetime (Fixtures.client_router [])
              Fixtures.rcB 10
              [router.op_on_try_connecting 2%N;
               router.op_SendToOrQueue 2%N Fixtures.link_msg1;
               router.op_OnConnectTimeout 2%N] None) as (_ & Hnew & _ & _).
  - intros k j Hl. unfold Fixtures.client_router in Hl. simpl in Hl.
    rewrite lookup_empty in Hl. discriminate Hl.
  - destruct (Hnew eq_refl) as (_ & _ & Hkeep). apply Hkeep.
    split; [intros []|]. split; [intros []|].
    split; [intros []|]. split; [intros []|].
    split; [intros []|]. split; [|exact I].
    intros [_ (j & Hj & Hr)]. vm_compute in Hj.
    injection Hj as <-. vm_compute in Hr. discriminate Hr.
Defined.

(** Witness of X2: [rcBad] is not in the database of three, so inserting it
    makes four entries. *)
Lemma Insert_num_loaded_witness :
  NodeDB.keys_unique Fixtures.db3 ∧
  NodeDB.num_loaded (NodeDB.Insert Fixtures.db3 Fixtures.rcBad).1 = 4%Z.
Proof.
  assert (Hu : NodeDB.keys_unique Fixtures.db3).
  { unfold NodeDB.keys_unique. apply (bool_decide_unpack _).
    vm_compute. exact I. }
  destruct (Insert_num_loaded Fixtures.db3 Fixtures.rcBad Hu) as [_ Hn].
  split; [exact Hu|]. rewrite Hn. vm_compute. reflexivity.
Defined.

(** Witness of X3: removing peer 2 from the database of three succeeds and
    leaves peer 1 in place. *)
Lemma Remove_erases_entry_witness :
  NodeDB.keys_unique Fixtures.db3 ∧
  (NodeDB.Remove Fixtures.db3 2%N).2 = true ∧
  NodeDB.Has (NodeDB.Remove Fixtures.db3 2%N).1 2%N = false ∧
  NodeDB.Get (NodeDB.Remove Fixtures.db3 2%N).1 1%N = Some Fixtures.rcA.
Proof.
  assert (Hu : NodeDB.keys_unique Fixtures.db3).
  { unfold NodeDB.keys_unique. apply (bool_decide_unpack _).
    vm_compute. exact I. }
  pose proof (Remove_erases_entry Fixtures.db3 2%N 1%N Hu) as Hr.
  assert (HG : NodeDB.Get Fixtures.db3 2%N = Some Fixtures.rcB)
    by (vm_compute; reflexivity).
  rewrite HG in Hr. destruct Hr as (Hret & Hgone & Hother & _ & _).
  split; [exact Hu|]. split; [exact Hret|]. split; [exact Hgone|].
  rewrite Hother by discriminate. vm_compute. reflexivity.
Defined.

(** Witness of X7: two messages sent to peer 2 without a session are queued
    in order, and a flush on the outbound link sends them. *)
Lemma send_all_then_flush_witness :
  router.MessageQueue_of
    (router.send_all (Fixtures.client_router []) 2%N
       [Fixtures.link_msg1; Fixtures.link_msg1]) 2%N
  = [Fixtures.msg1; Fixtures.msg1].
Proof.
  destruct (send_all_then_flush (Fixtures.client_router []) 2%N
              [Fixtures.link_msg1; Fixtures.link_msg1] Fixtures.outbound)
    as [Hq _].
  - apply client_router_no_session.
  - apply client_router_no_session.
  - vm_compute. repeat constructor.
  - rewrite Hq. vm_compute. reflexivity.
Defined.

(** Witness of X13: the answer [rcBad], whose signature does not verify, is
    stored under its pubkey and an establish job with 10 tries is left
    pending for it. *)
Lemma HandleDHTLookupForTryEstablishTo_stores_all_witness :
  Verify Fixtures.rcBad = false ∧
  NodeDB.Get
    (router.nodedb
       (router.HandleDHTLookupForTryEstablishTo Fixtures.open_config
          (Fixtures.client_router []) 4%N [Fixtures.rcBad]))
    4%N = Some Fixtures.rcBad ∧
  router.pendingEstablishJobs
    (router.HandleDHTLookupForTryEstablishTo Fixtures.open_config
       (Fixtures.client_router []) 4%N [Fixtures.rcBad]) !! 4%N
  = Some {| router.rc := Fixtures.rcBad;
            router.link := Some Fixtures.outbound;
            router.triesLeft := 10 |}.
Proof.
  split; [vm_compute; reflexivity|].
  destruct (HandleDHTLookupForTryEstablishTo_stores_all Fixtures.open_config
              (Fixtures.client_router []) 4%N [Fixtures.rcBad] Fixtures.rcBad)
    as (_ & _ & Hg & Hj).
  - by left.
  - by left.
  - split.
    + rewrite Hg. vm_compute. reflexivity.
    + rewrite Hj. vm_compute. reflexivity.
Defined.

(** Witness of X21: with the build timeout at 30 s, a path that started
    building at 0 is timed out by the tick at 30 s. *)
Lemma Tick_building_witness :
  path._status
    (path.data (@path.Tick Fixtures.spec_constants (Fixtures.building 0)
                  30000 5).1) = path.ePathTimeout.
Proof.
  pose proof (@Tick_building Fixtures.spec_constants (Fixtures.building 0)
                30000 5 eq_refl) as HT.
  assert (Hc : ((path.buildStarted (path.data (Fixtures.building 0))
                 <=? 30000)%Z
                && (@path.PATH_BUILD_TIMEOUT Fixtures.spec_constants
                    <=? sub64 30000
                          (path.buildStarted
                             (path.data (Fixtures.building 0))))%Z) = true)
    by (vm_compute; reflexivity).
  rewrite Hc in HT. destruct HT as [HT _]. exact HT.
Defined.

(** Witness of X24: a hop put into the empty index and kept by
    [ExpirePaths] is still indexed under both ids. *)
Lemma index_stays_in_pairs_witness :
  path.indexed_in_pairs Fixtures.empty_paths ∧
  path.indexed_in_pairs
    (@path.ExpirePaths Fixtures.hop_expiry
       (path.PutTransitHop Fixtures.empty_paths (Fixtures.hop 7 8 1 2))
       [Some 1%N] 5).1.
Proof.
  assert (He : path.indexed_in_pairs Fixtures.empty_paths).
  { intros k h Hin. by apply elem_of_nil in Hin. }
  destruct (@index_stays_in_pairs Fixtures.hop_expiry Fixtures.empty_paths He)
    as [Hput _].
  destruct (@index_stays_in_pairs Fixtures.hop_expiry _
              (Hput (Fixtures.hop 7 8 1 2))) as [_ Hexp].
  split; [exact He|apply Hexp].
Defined.
